(** * A flat file system on a block image: model of fs.c and its properties

    The development follows fs.c function by function.  The C globals
    ([sb], [inode_table], [block_bitmap], [disk_fd]) form the record
    [session]; the operating system the code talks to through
    open/lseek/read/write/close is the record [world].  Every API function
    of fs.c is a function on these two, returning the C return value next
    to the new state.

    Conventions.
    - [int] values are [Z]; the results of [+], [-], [*], [++] and [--] on
      [int] go through [wrap], the 32-bit two's complement wrap-around.
      [/] and [%] on [int] are [Z.quot] and [Z.rem].
    - An array is a list; an index outside the declared size of the array
      is the fault [OutOfBounds], a shift by a negative amount is
      [NegativeShift].  A function that can fault returns an [outcome].
    - A [const char*] argument is an [option string]: [None] is the null
      pointer, [Some s] the characters before the terminator.  A buffer is
      an [option (list byte)]; the caller of fs_write passes at least
      [size] bytes.
    - The image file keeps the three metadata regions (blocks 0, 1 and
      2-9) as the values that were stored in them: they are copied
      verbatim between the file and the globals, and the inode table is
      taken to fit in its eight blocks.  The data area is bytes by file
      offset, with the length of the file.  Positioned data I/O below the
      data area is the fault [OutsideDataArea]: the byte layout of the
      metadata is not described.
    - A write to the image file stores all its bytes; fs.c never looks at
      the result of a write. *)

From Stdlib Require Import ZArith Lia.
From Stdlib Require Import Strings.Byte.
From stdpp Require Import base numbers list gmap strings.

Local Open Scope Z_scope.

(** ** Compile-time constants *)

(** Modelled from the spec: the header fs.h, which defines the five
    constants and the two structs, is not among the sources.  The
    constants are parameters of the whole development. *)
Class geometry := Geometry {
  BLOCK_SIZE : Z;
  MAX_BLOCKS : Z;
  MAX_FILES : Z;
  MAX_FILENAME : Z;
  MAX_DIRECT_BLOCKS : Z
}.

(** What the code silently relies on: the bitmap (one block of bytes) has
    a bit for every block, the ten metadata blocks exist, a file of
    [MAX_DIRECT_BLOCKS] blocks fits in the data area and passes the size
    check of [fs_write], and the byte offsets and the bound of that check
    are representable as [int]. *)
Record geometry_ok (G : geometry) : Prop := GeometryOk {
  gok_block_size : 2 <= BLOCK_SIZE;
  gok_blocks_lo : 10 <= MAX_BLOCKS;
  gok_blocks_hi : MAX_BLOCKS <= 8 * BLOCK_SIZE;
  gok_files : 0 < MAX_FILES;
  gok_filename : 0 < MAX_FILENAME;
  gok_direct : 0 < MAX_DIRECT_BLOCKS;
  gok_direct_fit : MAX_DIRECT_BLOCKS <= MAX_BLOCKS - 10;
  gok_direct_files : MAX_DIRECT_BLOCKS <= MAX_FILES;
  gok_disk_int : MAX_BLOCKS * BLOCK_SIZE < 2 ^ 31;
  gok_bound_int : (MAX_FILES + 1) * BLOCK_SIZE < 2 ^ 31
}.

(** Modelled from the spec: values for the constants of fs.h.  The test
    drivers state three of them: blocks of 4KB, a file limit of
    "48KB = 12 blocks * 4KB", and names rejected when "longer than 28
    chars".  No source states MAX_FILES and MAX_BLOCKS; 256 and 2560 agree
    with the tests, which create 100 files and more on one image. *)
Definition ref_geometry : geometry :=
  {| BLOCK_SIZE := 4096; MAX_BLOCKS := 2560; MAX_FILES := 256;
     MAX_FILENAME := 28; MAX_DIRECT_BLOCKS := 12 |}.

(** ** Machine integers *)

Definition wrap (z : Z) : Z := (z + 2 ^ 31) mod 2 ^ 32 - 2 ^ 31.

(** ** Faults *)

Inductive fault := OutOfBounds | NegativeShift | OutsideDataArea.

Inductive outcome (A : Type) :=
  | Done (a : A)
  | Fault (f : fault).
Arguments Done {A} a.
Arguments Fault {A} f.

#[global] Instance outcome_ret : MRet outcome := λ A a, Done a.
#[global] Instance outcome_bind : MBind outcome :=
  λ A B k m, match m with Done a => k a | Fault f => Fault f end.

(** ** Data model *)

Record superblock := Superblock {
  total_blocks : Z;
  block_size : Z;
  free_blocks : Z;
  total_inodes : Z;
  free_inodes : Z
}.

Record inode := Inode {
  i_used : bool;
  i_name : string;
  i_size : Z;
  i_blocks : list Z
}.

Record session := Session {
  sb : superblock;
  inode_table : list inode;
  block_bitmap : list Z;
  disk_fd : Z
}.

(** What a read of a fixed-size region brings back: the whole value, or
    a short read, which overwrites the start of the destination only. *)
Inductive stored (A : Type) :=
  | Full (a : A)
  | Short (partial : A → A).
Arguments Full {A} a.
Arguments Short {A} partial.

Record file := File {
  f_sb : stored superblock;
  f_bitmap : stored (list Z);
  f_inodes : stored (list inode);
  f_data : Z → Byte.byte;
  f_len : Z
}.

Record world := World {
  files : gmap string file;
  fds : gmap Z string;
  creatable : string → bool
}.

Definition set_free_blocks (v : Z) (b : superblock) : superblock :=
  {| total_blocks := total_blocks b; block_size := block_size b;
     free_blocks := v; total_inodes := total_inodes b;
     free_inodes := free_inodes b |}.

Definition set_free_inodes (v : Z) (b : superblock) : superblock :=
  {| total_blocks := total_blocks b; block_size := block_size b;
     free_blocks := free_blocks b; total_inodes := total_inodes b;
     free_inodes := v |}.

Definition set_disk_fd (fd : Z) (s : session) : session :=
  {| sb := sb s; inode_table := inode_table s;
     block_bitmap := block_bitmap s; disk_fd := fd |}.

(** ** C strings *)

Fixpoint str_take (n : nat) (s : string) : string :=
  match n, s with
  | S n', String c s' => String c (str_take n' s')
  | _, _ => EmptyString
  end.

(** [strncmp(a, b, n) == 0]: the first [n] characters agree, or the
    strings end together before that. *)
Definition strncmp_eq0 (a b : string) (n : Z) : bool :=
  bool_decide (str_take (Z.to_nat n) a = str_take (Z.to_nat n) b).

Section FS.
Context {G : geometry}.

(** [strncpy(dst, src, MAX_FILENAME); dst[MAX_FILENAME - 1] = '\0'] *)
Definition strncpy_term (src : string) : string :=
  str_take (Z.to_nat (MAX_FILENAME - 1)) src.

(** ** Helpers of fs.c *)

(** The loops over the MAX_FILES slots of [inode_table] and over the
    MAX_DIRECT_BLOCKS pointers of an inode are recursions over the lists
    that stand for these arrays. *)
Fixpoint find_inode_from (i : Z) (tbl : list inode) (filename : string) : Z :=
  match tbl with
  | [] => -1
  | ino :: rest =>
      if i_used ino && strncmp_eq0 (i_name ino) filename MAX_FILENAME
      then i
      else find_inode_from (i + 1) rest filename
  end.

Definition find_inode (tbl : list inode) (filename : string) : Z :=
  find_inode_from 0 tbl filename.

Fixpoint find_free_inode_from (i : Z) (tbl : list inode) : Z :=
  match tbl with
  | [] => -1
  | ino :: rest =>
      if negb (i_used ino) then i else find_free_inode_from (i + 1) rest
  end.

Definition find_free_inode (tbl : list inode) : Z :=
  find_free_inode_from 0 tbl.

(** [block_bitmap[i / 8] & (1 << (i % 8))] is not zero.  The scan of
    find_free_block stays below MAX_BLOCKS, inside the bitmap when
    MAX_BLOCKS <= 8 * BLOCK_SIZE. *)
Definition bit_is_set (bm : list Z) (i : Z) : bool :=
  negb (Z.land (default 0 (bm !! Z.to_nat (Z.quot i 8)))
               (Z.shiftl 1 (Z.rem i 8)) =? 0).

Fixpoint find_free_block_from (n : nat) (i : Z) (bm : list Z) : Z :=
  match n with
  | O => -1
  | S n' =>
      if negb (bit_is_set bm i) then i
      else find_free_block_from n' (i + 1) bm
  end.

Definition find_free_block (bm : list Z) : Z :=
  find_free_block_from (Z.to_nat (MAX_BLOCKS - 10)) 10 bm.

(** The read-modify-write of one bitmap byte, shared by the two markers:
    the byte index must be inside [block_bitmap[BLOCK_SIZE]], the shift
    must not be negative, and the result is stored in an unsigned char. *)
Definition update_bitmap_byte (block_num : Z) (f : Z → Z → Z) (bm : list Z)
  : outcome (list Z) :=
  let byte := Z.quot block_num 8 in
  let bit := Z.rem block_num 8 in
  if bit <? 0 then Fault NegativeShift
  else if (byte <? 0) || (BLOCK_SIZE <=? byte) then Fault OutOfBounds
  else match bm !! Z.to_nat byte with
       | None => Fault OutOfBounds
       | Some v => Done (<[Z.to_nat byte := Z.land (f v (Z.shiftl 1 bit)) 255]> bm)
       end.

Definition mark_block_used (block_num : Z) (bm : list Z) : outcome (list Z) :=
  update_bitmap_byte block_num (λ v m, Z.lor v m) bm.

Definition mark_block_free (block_num : Z) (bm : list Z) : outcome (list Z) :=
  update_bitmap_byte block_num (λ v m, Z.land v (Z.lnot m)) bm.

(** ** The operating system *)

(** [open] returns the lowest descriptor that is not open. *)
Fixpoint lowest_unused_from (n : nat) (fd : Z) (tab : gmap Z string) : Z :=
  match n with
  | O => fd
  | S n' =>
      match tab !! fd with
      | None => fd
      | Some _ => lowest_unused_from n' (fd + 1) tab
      end
  end.

Definition lowest_unused (tab : gmap Z string) : Z :=
  lowest_unused_from (size tab) 0 tab.

Definition empty_file : file :=
  {| f_sb := Short id; f_bitmap := Short id; f_inodes := Short id;
     f_data := λ _, Byte.x00; f_len := 0 |}.

(** [open(path, O_RDWR)] *)
Definition sys_open (path : string) (w : world) : Z * world :=
  match files w !! path with
  | None => (-1, w)
  | Some _ =>
      let fd := lowest_unused (fds w) in
      (fd, {| files := files w; fds := <[fd := path]> (fds w);
              creatable := creatable w |})
  end.

(** [open(path, O_RDWR | O_CREAT | O_TRUNC, 0644)] *)
Definition sys_open_trunc (path : string) (w : world) : Z * world :=
  if creatable w path then
    let fd := lowest_unused (fds w) in
    (fd, {| files := <[path := empty_file]> (files w);
            fds := <[fd := path]> (fds w);
            creatable := creatable w |})
  else (-1, w).

Definition sys_close (fd : Z) (w : world) : world :=
  {| files := files w; fds := delete fd (fds w); creatable := creatable w |}.

Definition fd_file (fd : Z) (w : world) : option file :=
  path ← fds w !! fd; files w !! path.

(** A write through a descriptor that is not open fails and changes
    nothing; fs.c never looks at the result of a write. *)
Definition with_file (fd : Z) (upd : file → file) (w : world) : world :=
  match fds w !! fd with
  | None => w
  | Some path =>
      match files w !! path with
      | None => w
      | Some f => {| files := <[path := upd f]> (files w); fds := fds w;
                     creatable := creatable w |}
      end
  end.

(** [lseek(fd, 0, SEEK_SET); write(fd, &sb, sizeof(sb))] and its two
    siblings for the bitmap (block 1) and the inode table (blocks 2-9). *)
Definition sys_write_sb (fd : Z) (v : superblock) : world → world :=
  with_file fd (λ f, {| f_sb := Full v; f_bitmap := f_bitmap f;
                        f_inodes := f_inodes f; f_data := f_data f;
                        f_len := f_len f |}).

Definition sys_write_bitmap (fd : Z) (v : list Z) : world → world :=
  with_file fd (λ f, {| f_sb := f_sb f; f_bitmap := Full v;
                        f_inodes := f_inodes f; f_data := f_data f;
                        f_len := f_len f |}).

Definition sys_write_inodes (fd : Z) (v : list inode) : world → world :=
  with_file fd (λ f, {| f_sb := f_sb f; f_bitmap := f_bitmap f;
                        f_inodes := Full v; f_data := f_data f;
                        f_len := f_len f |}).

(** [lseek(fd, off, SEEK_SET); write(fd, bytes, len)] in the data area.
    Bytes between the old end of the file and [off] read as zero. *)
Definition pwrite_file (off : Z) (bytes : list Byte.byte) (f : file) : file :=
  let len := Z.of_nat (length bytes) in
  {| f_sb := f_sb f; f_bitmap := f_bitmap f; f_inodes := f_inodes f;
     f_data := λ o,
       if (off <=? o) && (o <? off + len)
       then default Byte.x00 (bytes !! Z.to_nat (o - off))
       else if f_len f <=? o then Byte.x00 else f_data f o;
     f_len := Z.max (f_len f) (off + len) |}.

Definition sys_pwrite (fd off : Z) (bytes : list Byte.byte) : world → world :=
  with_file fd (pwrite_file off bytes).

(** [count] zero bytes written at [off]: the loop of fs_format that
    appends [MAX_BLOCKS - 10] blocks of [zero_buf], as one write of the
    total length. *)
Definition pwrite_zeros_file (off count : Z) (f : file) : file :=
  {| f_sb := f_sb f; f_bitmap := f_bitmap f; f_inodes := f_inodes f;
     f_data := λ o,
       if (off <=? o) && (o <? off + count) then Byte.x00
       else if f_len f <=? o then Byte.x00 else f_data f o;
     f_len := Z.max (f_len f) (off + count) |}.

Definition sys_pwrite_zeros (fd off count : Z) : world → world :=
  with_file fd (pwrite_zeros_file off count).

(** [lseek(fd, off, SEEK_SET); n = read(fd, buf, count)] in the data
    area: [-1] through a bad descriptor, fewer bytes at the end of the
    file. *)
Definition sys_pread (fd off count : Z) (w : world) : Z * list Byte.byte :=
  match fd_file fd w with
  | None => (-1, [])
  | Some f =>
      let n := Z.max 0 (Z.min count (f_len f - off)) in
      (n, (λ k, f_data f (off + k)) <$> seqZ 0 n)
  end.

(** Byte offset of a block, as [block_idx * BLOCK_SIZE] computes it. *)
Definition data_offset (block_idx : Z) : outcome Z :=
  let off := wrap (block_idx * BLOCK_SIZE) in
  if off <? wrap (BLOCK_SIZE * 10) then Fault OutsideDataArea else Done off.

(** ** fs_format *)

Definition fresh_inode : inode :=
  {| i_used := false; i_name := EmptyString; i_size := 0;
     i_blocks := replicate (Z.to_nat MAX_DIRECT_BLOCKS) 0 |}.

Fixpoint mark_reserved (n : nat) (i : Z) (bm : list Z) : outcome (list Z) :=
  match n with
  | O => Done bm
  | S n' => bm' ← mark_block_used i bm; mark_reserved n' (i + 1) bm'
  end.

(** The superblock and the inode table that fs_format builds. *)
Definition fresh_sb : superblock :=
  {| total_blocks := MAX_BLOCKS; block_size := BLOCK_SIZE;
     free_blocks := wrap (MAX_BLOCKS - 10);
     total_inodes := MAX_FILES; free_inodes := MAX_FILES |}.

Definition fresh_table : list inode :=
  replicate (Z.to_nat MAX_FILES) fresh_inode.

Definition fs_format (disk_path : string) (s : session) (w : world)
  : outcome (Z * session * world) :=
  let '(fd, w) := sys_open_trunc disk_path w in
  if fd <? 0 then Done (-1, s, w)
  else
    bm ← mark_reserved 10 0 (replicate (Z.to_nat BLOCK_SIZE) 0);
    let w := sys_write_sb fd fresh_sb w in
    let w := sys_write_bitmap fd bm w in
    let w := sys_write_inodes fd fresh_table w in
    let w := sys_pwrite_zeros fd (wrap (BLOCK_SIZE * 10))
               (Z.max 0 (wrap (MAX_BLOCKS - 10)) * BLOCK_SIZE) w in
    let w := sys_close fd w in
    Done (0, {| sb := fresh_sb; inode_table := fresh_table;
                block_bitmap := bm; disk_fd := disk_fd s |}, w).

(** ** fs_mount and fs_unmount *)

Definition mount_fail (s : session) (w : world) : Z * session * world :=
  (-1, set_disk_fd (-1) s, sys_close (disk_fd s) w).

Definition fs_mount (disk_path : string) (s : session) (w : world)
  : Z * session * world :=
  if negb (disk_fd s =? -1) then (-1, s, w)
  else
    let '(fd, w) := sys_open disk_path w in
    let s := set_disk_fd fd s in
    if fd <? 0 then (-1, s, w)
    else
      match f_sb <$> fd_file fd w with
      | None => mount_fail s w
      | Some (Short p) =>
          mount_fail {| sb := p (sb s); inode_table := inode_table s;
                        block_bitmap := block_bitmap s; disk_fd := fd |} w
      | Some (Full sb') =>
          let s := {| sb := sb'; inode_table := inode_table s;
                      block_bitmap := block_bitmap s; disk_fd := fd |} in
          if negb (total_blocks sb' =? MAX_BLOCKS)
             || negb (block_size sb' =? BLOCK_SIZE)
             || negb (total_inodes sb' =? MAX_FILES)
          then mount_fail s w
          else
            match f_bitmap <$> fd_file fd w with
            | None => mount_fail s w
            | Some (Short p) =>
                mount_fail {| sb := sb'; inode_table := inode_table s;
                              block_bitmap := p (block_bitmap s);
                              disk_fd := fd |} w
            | Some (Full bm) =>
                match f_inodes <$> fd_file fd w with
                | None =>
                    mount_fail {| sb := sb'; inode_table := inode_table s;
                                  block_bitmap := bm; disk_fd := fd |} w
                | Some (Short p) =>
                    mount_fail {| sb := sb'; inode_table := p (inode_table s);
                                  block_bitmap := bm; disk_fd := fd |} w
                | Some (Full tbl) =>
                    (0, {| sb := sb'; inode_table := tbl; block_bitmap := bm;
                           disk_fd := fd |}, w)
                end
            end
      end.

Definition fs_unmount (s : session) (w : world) : session * world :=
  if disk_fd s =? -1 then (s, w)
  else
    let w := sys_write_sb (disk_fd s) (sb s) w in
    let w := sys_write_bitmap (disk_fd s) (block_bitmap s) w in
    let w := sys_write_inodes (disk_fd s) (inode_table s) w in
    (set_disk_fd (-1) s, sys_close (disk_fd s) w).

(** ** fs_create *)

Definition fs_create (filename : option string) (s : session) : Z * session :=
  if disk_fd s =? -1 then (-3, s)
  else
    match filename with
    | None => (-3, s)
    | Some fname =>
        if MAX_FILENAME <=? Z.of_nat (String.length fname) then (-3, s)
        else if negb (find_inode (inode_table s) fname =? -1) then (-1, s)
        else
          let inode_idx := find_free_inode (inode_table s) in
          if inode_idx =? -1 then (-2, s)
          else
            let new_inode :=
              {| i_used := true; i_name := strncpy_term fname; i_size := 0;
                 i_blocks := replicate (Z.to_nat MAX_DIRECT_BLOCKS) 0 |} in
            (0, {| sb := set_free_inodes (wrap (free_inodes (sb s) - 1)) (sb s);
                   inode_table :=
                     <[Z.to_nat inode_idx := new_inode]> (inode_table s);
                   block_bitmap := block_bitmap s;
                   disk_fd := disk_fd s |})
    end.

(** ** fs_delete *)

(** The loop that gives the blocks of an inode back; fs_delete and
    fs_write both have it:
    [for (i = 0; i < MAX_DIRECT_BLOCKS; i++) if (blocks[i] != 0) {
       mark_block_free(blocks[i]); sb.free_blocks++; blocks[i] = 0; }].
    It returns the pointers, the bitmap and the counter after the loop. *)
Fixpoint release_blocks (blks : list Z) (bm : list Z) (fb : Z)
  : outcome (list Z * list Z * Z) :=
  match blks with
  | [] => Done ([], bm, fb)
  | b :: rest =>
      if negb (b =? 0) then
        bm1 ← mark_block_free b bm;
        '(rest', bm', fb') ← release_blocks rest bm1 (wrap (fb + 1));
        Done (0 :: rest', bm', fb')
      else
        '(rest', bm', fb') ← release_blocks rest bm fb;
        Done (b :: rest', bm', fb')
  end.

Definition fs_delete (filename : option string) (s : session)
  : outcome (Z * session) :=
  if disk_fd s =? -1 then Done (-2, s)
  else
    match filename with
    | None => Done (-3, s)
    | Some fname =>
        if MAX_FILENAME <=? Z.of_nat (String.length fname) then Done (-3, s)
        else
          let inode_idx := find_inode (inode_table s) fname in
          if inode_idx =? -1 then Done (-1, s)
          else
            match inode_table s !! Z.to_nat inode_idx with
            | None => Fault OutOfBounds
            | Some target_inode =>
                '(blks, bm, fb) ← release_blocks (i_blocks target_inode)
                                    (block_bitmap s) (free_blocks (sb s));
                let cleared :=
                  {| i_used := false; i_name := EmptyString; i_size := 0;
                     i_blocks := blks |} in
                Done (0, {| sb := set_free_inodes (wrap (free_inodes (sb s) + 1))
                                    (set_free_blocks fb (sb s));
                            inode_table :=
                              <[Z.to_nat inode_idx := cleared]> (inode_table s);
                            block_bitmap := bm;
                            disk_fd := disk_fd s |})
            end
    end.

(** ** fs_list *)

(** [filenames] is the caller's array of rows; row [count] must exist
    when the loop writes it. *)
Fixpoint list_loop (tbl : list inode) (count max_files : Z)
    (filenames : list string) : outcome (Z * list string) :=
  match tbl with
  | [] => Done (count, filenames)
  | ino :: rest =>
      if count <? max_files then
        if i_used ino then
          if (Z.to_nat count <? length filenames)%nat then
            list_loop rest (wrap (count + 1)) max_files
              (<[Z.to_nat count := strncpy_term (i_name ino)]> filenames)
          else Fault OutOfBounds
        else list_loop rest count max_files filenames
      else Done (count, filenames)
  end.

Definition fs_list (filenames : option (list string)) (max_files : Z)
    (s : session) : outcome (Z * option (list string)) :=
  match filenames with
  | Some rows =>
      if (disk_fd s =? -1) || (max_files <=? 0) || (MAX_FILES <? max_files)
      then Done (-1, filenames)
      else '(count, rows') ← list_loop (inode_table s) 0 max_files rows;
           Done (count, Some rows')
  | None => Done (-1, filenames)
  end.

(** ** fs_write *)

(** The allocation loop, [n] iterations from index [i]; it threads the
    bitmap, [sb.free_blocks], the block pointers of the target inode and
    the world. *)
Fixpoint alloc_blocks (n : nat) (i needed_blocks size : Z)
    (data : list Byte.byte) (fd : Z)
    (bm : list Z) (fb : Z) (blks : list Z) (w : world)
  : outcome (list Z * Z * list Z * world) :=
  match n with
  | O => Done (bm, fb, blks, w)
  | S n' =>
      let block_idx := find_free_block bm in
      bm ← mark_block_used block_idx bm;
      let fb := wrap (fb - 1) in
      if (i <? 0) || (MAX_DIRECT_BLOCKS <=? i) then Fault OutOfBounds
      else
        let blks := <[Z.to_nat i := block_idx]> blks in
        off ← data_offset block_idx;
        let to_write :=
          if i =? wrap (needed_blocks - 1)
          then wrap (size - wrap (i * BLOCK_SIZE))
          else BLOCK_SIZE in
        let w :=
          sys_pwrite fd off
            (take (Z.to_nat to_write) (drop (Z.to_nat (wrap (i * BLOCK_SIZE))) data))
            w in
        let w :=
          if to_write <? BLOCK_SIZE
          then sys_pwrite fd (off + to_write)
                 (replicate (Z.to_nat (wrap (BLOCK_SIZE - to_write))) Byte.x00) w
          else w in
        alloc_blocks n' (wrap (i + 1)) needed_blocks size data fd bm fb blks w
  end.

(** [for (i = needed_blocks; i < MAX_DIRECT_BLOCKS; i++) blocks[i] = 0] *)
Definition zero_unused (needed_blocks : Z) (blks : list Z) : list Z :=
  take (Z.to_nat needed_blocks) blks
  ++ replicate (Z.to_nat MAX_DIRECT_BLOCKS - Z.to_nat needed_blocks)%nat 0.

Definition fs_write (filename : option string) (data : option (list Byte.byte))
    (size : Z) (s : session) (w : world) : outcome (Z * session * world) :=
  match filename, data with
  | Some fname, Some bytes =>
      if (disk_fd s =? -1) || (size <=? 0) then Done (-3, s, w)
      else if MAX_FILENAME <=? Z.of_nat (String.length fname)
      then Done (-3, s, w)
      else if wrap (MAX_FILES * BLOCK_SIZE) <? size then Done (-3, s, w)
      else
        let inode_idx := find_inode (inode_table s) fname in
        if inode_idx =? -1 then Done (-1, s, w)
        else
          match inode_table s !! Z.to_nat inode_idx with
          | None => Fault OutOfBounds
          | Some target_inode =>
              let needed_blocks :=
                Z.quot (wrap (size + BLOCK_SIZE - 1)) BLOCK_SIZE in
              if free_blocks (sb s) <? needed_blocks then Done (-2, s, w)
              else
                '(blks, bm, fb) ← release_blocks (i_blocks target_inode)
                                    (block_bitmap s) (free_blocks (sb s));
                '(bm, fb, blks, w) ←
                  alloc_blocks (Z.to_nat needed_blocks) 0 needed_blocks size
                    bytes (disk_fd s) bm fb blks w;
                let written :=
                  {| i_used := i_used target_inode;
                     i_name := i_name target_inode;
                     i_size := size;
                     i_blocks := zero_unused needed_blocks blks |} in
                Done (0, {| sb := set_free_blocks fb (sb s);
                            inode_table :=
                              <[Z.to_nat inode_idx := written]> (inode_table s);
                            block_bitmap := bm;
                            disk_fd := disk_fd s |}, w)
          end
  | _, _ => Done (-3, s, w)
  end.

(** ** fs_read *)

(** The read loop over the block pointers; [buf] is what has been stored
    at the start of the caller's buffer so far. *)
Fixpoint read_blocks (blks : list Z) (bytes_read bytes_to_read : Z)
    (buf : list Byte.byte) (fd : Z) (w : world)
  : outcome (Z * list Byte.byte) :=
  match blks with
  | [] => Done (bytes_read, buf)
  | block_idx :: rest =>
      if bytes_read <? bytes_to_read then
        if block_idx =? 0 then Done (bytes_read, buf)
        else
          off ← data_offset block_idx;
          let chunk :=
            if wrap (bytes_to_read - bytes_read) <? BLOCK_SIZE
            then wrap (bytes_to_read - bytes_read)
            else BLOCK_SIZE in
          let '(n, got) := sys_pread fd off chunk w in
          if n <? 0 then Done (-3, buf)
          else read_blocks rest (wrap (bytes_read + n)) bytes_to_read
                 (buf ++ got) fd w
      else Done (bytes_read, buf)
  end.

(** The result is the return value and the bytes stored from the start
    of the buffer; the rest of the buffer is not touched. *)
Definition fs_read (filename : option string) (data : option (list Byte.byte))
    (size : Z) (s : session) (w : world) : outcome (Z * list Byte.byte) :=
  match filename, data with
  | Some fname, Some _ =>
      if (disk_fd s =? -1) || (size <=? 0) then Done (-3, [])
      else if MAX_FILENAME <=? Z.of_nat (String.length fname)
      then Done (-3, [])
      else
        let inode_idx := find_inode (inode_table s) fname in
        if inode_idx =? -1 then Done (-1, [])
        else
          match inode_table s !! Z.to_nat inode_idx with
          | None => Fault OutOfBounds
          | Some target_inode =>
              let bytes_to_read :=
                if i_size target_inode <? size then i_size target_inode
                else size in
              read_blocks (i_blocks target_inode) 0 bytes_to_read []
                (disk_fd s) w
          end
  | _, _ => Done (-3, [])
  end.

(** ** Operations, reachable states and invariants *)

Inductive op :=
  | OpCreate (filename : option string)
  | OpDelete (filename : option string)
  | OpWrite (filename : option string) (data : option (list Byte.byte)) (size : Z)
  | OpRead (filename : option string) (data : option (list Byte.byte)) (size : Z)
  | OpList (filenames : option (list string)) (max_files : Z).

(** The state an operation leaves behind, when it completes. *)
Definition run_op (o : op) (s : session) (w : world) : outcome (session * world) :=
  match o with
  | OpCreate n => Done ((fs_create n s).2, w)
  | OpDelete n => '(_, s') ← fs_delete n s; Done (s', w)
  | OpWrite n d sz => '(_, s', w') ← fs_write n d sz s w; Done (s', w')
  | OpRead n d sz => _ ← fs_read n d sz s w; Done (s, w)
  | OpList b m => _ ← fs_list b m s; Done (s, w)
  end.

(** The states of a session that was mounted on a freshly formatted
    image and has completed any number of operations since. *)
Inductive reachable : session → world → Prop :=
  | reach_start path s0 w0 s1 w1 s w :
      fs_format path s0 w0 = Done (0, s1, w1) →
      fs_mount path s1 w1 = (0, s, w) →
      reachable s w
  | reach_step o s w s' w' :
      reachable s w →
      run_op o s w = Done (s', w') →
      reachable s' w'.

(** The operations of a client that respects the file size limit and
    passes rows for the names it asks for. *)
Definition op_in_bounds (o : op) : Prop :=
  match o with
  | OpWrite _ _ size => size <= MAX_DIRECT_BLOCKS * BLOCK_SIZE
  | OpList (Some rows) max_files => max_files <= Z.of_nat (length rows)
  | _ => True
  end.

(** The non-zero block pointers of the used inodes, in table order. *)
Definition ino_ptrs (ino : inode) : list Z :=
  if i_used ino then filter (λ b, b ≠ 0) (i_blocks ino) else [].

Definition all_ptrs (tbl : list inode) : list Z := tbl ≫= ino_ptrs.

(** The data blocks that the bitmap marks as used. *)
Definition used_bits (bm : list Z) : list Z :=
  filter (λ i, Is_true (bit_is_set bm i)) (seqZ 10 (MAX_BLOCKS - 10)).

Definition used_count (tbl : list inode) : Z :=
  Z.of_nat (length (filter (λ ino, Is_true (i_used ino)) tbl)).

Record session_ok (s : session) : Prop := SessionOk {
  ok_table_len : length (inode_table s) = Z.to_nat MAX_FILES;
  ok_blocks_len :
    Forall (λ ino, length (i_blocks ino) = Z.to_nat MAX_DIRECT_BLOCKS)
           (inode_table s);
  ok_bitmap_len : length (block_bitmap s) = Z.to_nat BLOCK_SIZE;
  ok_total_blocks : total_blocks (sb s) = MAX_BLOCKS;
  ok_block_size : block_size (sb s) = BLOCK_SIZE;
  ok_total_inodes : total_inodes (sb s) = MAX_FILES;
  ok_bits : used_bits (block_bitmap s) ≡ₚ all_ptrs (inode_table s);
  ok_free_blocks :
    free_blocks (sb s) + Z.of_nat (length (all_ptrs (inode_table s)))
    = MAX_BLOCKS - 10;
  ok_free_inodes : free_inodes (sb s) + used_count (inode_table s) = MAX_FILES
}.

(** The descriptor of a mounted session is open on a file. *)
Definition handle_ok (s : session) (w : world) : Prop :=
  disk_fd s ≠ -1 → is_Some (fd_file (disk_fd s) w).




Definition valid_name (fname : string) : Prop :=
  Z.of_nat (String.length fname) < MAX_FILENAME.

Definition name_in_use (tbl : list inode) (fname : string) : Prop :=
  ∃ ino, ino ∈ tbl ∧ i_used ino = true ∧ i_name ino = fname.

(** [ceil(size / BLOCK_SIZE)] *)
Definition blocks_for (size : Z) : Z := (size + BLOCK_SIZE - 1) / BLOCK_SIZE.

(** The block pointers of the used inodes other than slot [k]. *)
Definition other_ptrs (k : nat) (tbl : list inode) : list Z :=
  all_ptrs (take k tbl) ++ all_ptrs (drop (S k) tbl).

(** What the allocation loop of fs_write does to the image file: block
    [b], the [i]-th of the file, receives its share of [data] and is
    padded with zeros. *)
Definition chunk_size (needed_blocks size i : Z) : Z :=
  if i =? needed_blocks - 1 then size - i * BLOCK_SIZE else BLOCK_SIZE.

Definition store_chunk (i needed_blocks size : Z) (data : list Byte.byte)
    (b : Z) (f : file) : file :=
  let to_write := chunk_size needed_blocks size i in
  let f1 :=
    pwrite_file (b * BLOCK_SIZE)
      (take (Z.to_nat to_write) (drop (Z.to_nat (i * BLOCK_SIZE)) data)) f in
  if to_write <? BLOCK_SIZE
  then pwrite_file (b * BLOCK_SIZE + to_write)
         (replicate (Z.to_nat (BLOCK_SIZE - to_write)) Byte.x00) f1
  else f1.

Fixpoint store_blocks (i needed_blocks size : Z) (data : list Byte.byte)
    (newb : list Z) (f : file) : file :=
  match newb with
  | [] => f
  | b :: rest =>
      store_blocks (i + 1) needed_blocks size data rest
        (store_chunk i needed_blocks size data b f)
  end.

(** The blocks [blks], in this order, hold the first [size] bytes of
    [data] in the file [f]. *)
Definition file_holds (f : file) (blks : list Z) (data : list Byte.byte)
    (size : Z) : Prop :=
  ∀ j b, blks !! j = Some b →
    10 <= b < MAX_BLOCKS ∧ (b + 1) * BLOCK_SIZE <= f_len f ∧
    ∀ k, 0 <= k < BLOCK_SIZE → Z.of_nat j * BLOCK_SIZE + k < size →
      data !! Z.to_nat (Z.of_nat j * BLOCK_SIZE + k)
      = Some (f_data f (b * BLOCK_SIZE + k)).

(** What fs_list stores in the caller's rows: the names of the used
    inodes in slot order, each as [strncpy] and the terminator leave it,
    [max_files] of them at most. *)
Definition listed_names (tbl : list inode) (max_files : Z) : list string :=
  take (Z.to_nat max_files)
    ((λ ino, strncpy_term (i_name ino))
       <$> filter (λ ino, Is_true (i_used ino)) tbl).

(** The images that fs_mount turns down after opening them. *)
Definition image_rejected (f : file) : Prop :=
  match f_sb f with
  | Short _ => True
  | Full sb' =>
      total_blocks sb' ≠ MAX_BLOCKS ∨ block_size sb' ≠ BLOCK_SIZE
      ∨ total_inodes sb' ≠ MAX_FILES
      ∨ (∃ p, f_bitmap f = Short p) ∨ (∃ p, f_inodes f = Short p)
  end.

(** The globals as the program starts: zero-initialised statics and
    [disk_fd = -1]. *)
Definition boot_session : session :=
  {| sb := Superblock 0 0 0 0 0;
     inode_table := fresh_table;
     block_bitmap := replicate (Z.to_nat BLOCK_SIZE) 0;
     disk_fd := -1 |}.

(** ** Notions used by the properties of the single functions *)

(** The used inodes bear valid names, no two of them the same one. *)
Definition names_unique (tbl : list inode) : Prop :=
  (∀ ino, ino ∈ tbl → i_used ino = true → valid_name (i_name ino)) ∧
  ∀ i j a b,
    tbl !! i = Some a → tbl !! j = Some b →
    i_used a = true → i_used b = true → i_name a = i_name b → i = j.

(** The bytes of the bitmap are values of an [unsigned char]. *)
Definition bitmap_bytes (bm : list Z) : Prop :=
  Forall (λ v, 0 <= v < 256) bm.

End FS.

Definition blank_world : world :=
  {| files := ∅; fds := ∅; creatable := λ _, true |}.

(** ** Reference runs

    Concrete sessions used to exercise the model: a run on the reference
    geometry, a run that fills a small image, and an image whose bitmap
    disagrees with its inode table. *)

Definition code_of (o : outcome (Z * session * world)) : option Z :=
  match o with Done (r, _, _) => Some r | Fault _ => None end.

Definition session_of (o : outcome (Z * session * world)) : session :=
  match o with
  | Done (_, s, _) => s
  | Fault _ => Session (Superblock 0 0 0 0 0) [] [] (-1)
  end.

Definition world_of (o : outcome (Z * session * world)) : world :=
  match o with Done (_, _, w) => w | Fault _ => blank_world end.


Definition hello : list Byte.byte :=
  [Byte.x48; Byte.x65; Byte.x6c; Byte.x6c; Byte.x6f].

(** format; mount; create("a.txt") on the reference geometry *)
Definition ref_formatted : outcome (Z * session * world) :=
  fs_format (G := ref_geometry) "disk.img" (boot_session (G := ref_geometry))
    blank_world.

Definition ref_mounted : Z * session * world :=
  fs_mount (G := ref_geometry) "disk.img"
    (session_of ref_formatted) (world_of ref_formatted).

Definition ref_session_empty : session := ref_mounted.1.2.

Definition ref_world : world := ref_mounted.2.

Definition ref_session : session :=
  (fs_create (G := ref_geometry) (Some "a.txt") ref_session_empty).2.

(** then write("a.txt", "Hello", 5) *)
Definition ref_written : outcome (Z * session * world) :=
  fs_write (G := ref_geometry) (Some "a.txt") (Some hello) 5
    ref_session ref_world.

(** A geometry with two data blocks, to reach a full image in a few
    steps. *)
Definition small_geometry : geometry :=
  {| BLOCK_SIZE := 16; MAX_BLOCKS := 12; MAX_FILES := 4;
     MAX_FILENAME := 8; MAX_DIRECT_BLOCKS := 2 |}.

Definition small_formatted : outcome (Z * session * world) :=
  fs_format (G := small_geometry) "disk.img"
    (boot_session (G := small_geometry)) blank_world.

Definition small_mounted : Z * session * world :=
  fs_mount (G := small_geometry) "disk.img"
    (session_of small_formatted) (world_of small_formatted).

Definition small_created : session :=
  (fs_create (G := small_geometry) (Some "a") small_mounted.1.2).2.

(** write("a", 32 bytes) takes both data blocks *)
Definition small_filled : outcome (Z * session * world) :=
  fs_write (G := small_geometry) (Some "a")
    (Some (replicate 32 Byte.x41)) 32 small_created small_mounted.2.

Definition small_session : session := session_of small_filled.

Definition small_world : world := world_of small_filled.







(** A file that ends before the superblock does. *)
Definition truncated_disk : world :=
  {| files := {["short.img" := empty_file]}; fds := ∅;
     creatable := λ _, true |}.

(** Four files on the small geometry, so that every inode is in use,
    and the session after delete("d"). *)
Definition small_full : session :=
  (fs_create (G := small_geometry) (Some "d")
     (fs_create (G := small_geometry) (Some "c")
        (fs_create (G := small_geometry) (Some "b") small_created).2).2).2.

Definition small_after_delete : session :=
  match fs_delete (G := small_geometry) (Some "d") small_full with
  | Done (_, s) => s
  | Fault _ => small_full
  end.

(** An image of the small geometry that passes the checks of fs_mount:
    its superblock counts one free block, its bitmap has none. *)
Definition stale_image : file :=
  {| f_sb := Full {| total_blocks := 12; block_size := 16;
                     free_blocks := 1; total_inodes := 4;
                     free_inodes := 3 |};
     f_bitmap := Full (replicate 16 255);
     f_inodes :=
       Full ({| i_used := true; i_name := "a"; i_size := 0;
                i_blocks := [0; 0] |}
             :: replicate 3 (fresh_inode (G := small_geometry)));
     f_data := λ _, Byte.x00;
     f_len := 192 |}.

Definition stale_disk : world :=
  {| files := {["disk.img" := stale_image]}; fds := ∅;
     creatable := λ _, true |}.

Definition stale_mounted : Z * session * world :=
  fs_mount (G := small_geometry) "disk.img"
    (boot_session (G := small_geometry)) stale_disk.

Definition stale_session : session := stale_mounted.1.2.

Definition stale_world : world := stale_mounted.2.

(** * Proofs *)


Lemma wrap_small z : - 2 ^ 31 <= z < 2 ^ 31 → wrap z = z.
Proof.
  intros Hz. unfold wrap.
  rewrite Z.mod_small by lia. lia.
Qed.

Lemma str_take_length n s : (String.length (str_take n s) ≤ n)%nat.
Proof.
  revert s. induction n as [|n IH]; intros [|c s]; simpl; try lia.
  specialize (IH s). lia.
Qed.

Lemma str_take_all n s : (String.length s ≤ n)%nat → str_take n s = s.
Proof.
  revert s. induction n as [|n IH]; intros [|c s]; simpl; intros Hl; try done; try lia.
  f_equal. apply IH. lia.
Qed.

Lemma str_take_short n s :
  (String.length (str_take n s) < n)%nat → str_take n s = s.
Proof.
  revert s. induction n as [|n IH]; intros [|c s]; simpl; intros Hl; try done; try lia.
  f_equal. apply IH. lia.
Qed.

Lemma strncmp_eq0_valid a b n :
  Z.of_nat (String.length b) < n →
  strncmp_eq0 a b n = true ↔ a = b.
Proof.
  intros Hb. unfold strncmp_eq0. rewrite bool_decide_eq_true.
  rewrite (str_take_all _ b) by lia.
  split.
  - intros Ha. rewrite <- Ha. symmetry. apply str_take_short.
    rewrite Ha. lia.
  - intros ->. apply str_take_all. lia.
Qed.

Section Proofs.
Context {G : geometry}.


Lemma find_inode_from_none tbl fname i :
  (∀ ino, ino ∈ tbl →
     i_used ino && strncmp_eq0 (i_name ino) fname MAX_FILENAME = false) →
  find_inode_from i tbl fname = -1.
Proof.
  revert i. induction tbl as [|ino tbl IH]; intros i Hall; simpl; [done|].
  rewrite (Hall ino) by left. apply IH. intros x Hx. apply Hall. by right.
Qed.

Lemma find_inode_from_found tbl fname i :
  0 <= i →
  find_inode_from i tbl fname ≠ -1 →
  ∃ k ino, find_inode_from i tbl fname = i + Z.of_nat k ∧
     tbl !! k = Some ino ∧ i_used ino = true ∧
     strncmp_eq0 (i_name ino) fname MAX_FILENAME = true.
Proof.
  revert i. induction tbl as [|ino tbl IH]; intros i Hi; simpl; [done|].
  destruct (i_used ino && strncmp_eq0 (i_name ino) fname MAX_FILENAME) eqn:Ht.
  - intros _. exists 0%nat, ino. apply andb_true_iff in Ht as [? ?].
    split_and!; auto. lia.
  - intros Hne. destruct (IH (i + 1)) as (k & x & Hk & Hl & Hu & Hm); [lia|done|].
    exists (S k), x. split_and!; auto. lia.
Qed.

Lemma find_inode_from_miss tbl fname i :
  0 <= i →
  find_inode_from i tbl fname = -1 →
  ∀ ino, ino ∈ tbl →
    i_used ino && strncmp_eq0 (i_name ino) fname MAX_FILENAME = false.
Proof.
  revert i. induction tbl as [|ino tbl IH]; intros i Hi; simpl.
  - intros _ x Hx. by apply elem_of_nil in Hx.
  - destruct (i_used ino && strncmp_eq0 (i_name ino) fname MAX_FILENAME) eqn:Ht.
    + lia.
    + intros Hf x Hx. apply elem_of_cons in Hx as [-> | Hx]; [done|].
      eapply IH; [| exact Hf | exact Hx]. lia.
Qed.

Lemma find_inode_found tbl fname :
  find_inode tbl fname ≠ -1 →
  ∃ k ino, find_inode tbl fname = Z.of_nat k ∧
     tbl !! k = Some ino ∧ i_used ino = true ∧
     strncmp_eq0 (i_name ino) fname MAX_FILENAME = true.
Proof.
  intros H. destruct (find_inode_from_found tbl fname 0) as (k & ino & ? & ?);
    [lia | exact H |].
  exists k, ino. split; [|done]. unfold find_inode. lia.
Qed.

Lemma find_inode_absent tbl fname :
  valid_name fname →
  find_inode tbl fname = -1 ↔ ¬ name_in_use tbl fname.
Proof.
  intros Hv. split.
  - intros Hf (ino & Hin & Hu & Hn).
    pose proof (find_inode_from_miss tbl fname 0 ltac:(lia) Hf ino Hin) as Hm.
    rewrite Hu in Hm. simpl in Hm.
    assert (strncmp_eq0 (i_name ino) fname MAX_FILENAME = true)
      by (by apply strncmp_eq0_valid).
    congruence.
  - intros Hno. apply find_inode_from_none. intros ino Hin.
    destruct (i_used ino) eqn:Hu; [|done]. simpl.
    destruct (strncmp_eq0 (i_name ino) fname MAX_FILENAME) eqn:Hm; [|done].
    exfalso. apply Hno. exists ino. split_and!; auto.
    by apply strncmp_eq0_valid in Hm.
Qed.

Lemma find_inode_from_same tbl tbl' fname i :
  Forall2 (λ a b, i_used a = i_used b ∧ i_name a = i_name b) tbl tbl' →
  find_inode_from i tbl fname = find_inode_from i tbl' fname.
Proof.
  intros H. revert i. induction H as [|a b l l' [Hu Hn] _ IH]; intros i; simpl; [done|].
  rewrite Hu, Hn. by rewrite IH.
Qed.

Lemma find_free_inode_from_found tbl i :
  0 <= i →
  find_free_inode_from i tbl ≠ -1 →
  ∃ k ino, find_free_inode_from i tbl = i + Z.of_nat k ∧
     tbl !! k = Some ino ∧ i_used ino = false.
Proof.
  revert i. induction tbl as [|ino tbl IH]; intros i Hi; simpl; [done|].
  destruct (i_used ino) eqn:Hu; simpl.
  - intros Hne. destruct (IH (i + 1)) as (k & x & Hk & Hl & Hx); [lia|done|].
    exists (S k), x. split_and!; auto. lia.
  - intros _. exists 0%nat, ino. split_and!; auto. lia.
Qed.

Lemma find_free_inode_from_miss tbl i :
  0 <= i → find_free_inode_from i tbl = -1 →
  Forall (λ ino, i_used ino = true) tbl.
Proof.
  revert i. induction tbl as [|ino tbl IH]; intros i Hi; simpl; [constructor|].
  destruct (i_used ino) eqn:Hu; simpl; [|lia].
  intros Hf. constructor; [done|]. apply (IH (i + 1)); [lia|done].
Qed.

(** *** Bits *)

Lemma land_bit v j :
  0 <= j → (Z.land v (Z.shiftl 1 j) =? 0) = negb (Z.testbit v j).
Proof.
  intros Hj. rewrite Z.shiftl_1_l.
  destruct (Z.testbit v j) eqn:Hb; simpl.
  - apply Z.eqb_neq. intros H0.
    assert (Z.testbit (Z.land v (2 ^ j)) j = true) as Ht.
    { rewrite Z.land_spec, Hb, Z.pow2_bits_true by lia. done. }
    rewrite H0, Z.bits_0 in Ht. done.
  - apply Z.eqb_eq. apply Z.bits_inj'. intros n Hn.
    rewrite Z.land_spec, Z.bits_0, Z.pow2_bits_eqb by lia.
    destruct (Z.eqb_spec j n) as [->|]; [by rewrite Hb | by rewrite andb_false_r].
Qed.

Lemma bit_is_set_spec bm i :
  0 <= i →
  bit_is_set bm i = Z.testbit (default 0 (bm !! Z.to_nat (i / 8))) (i mod 8).
Proof.
  intros Hi. unfold bit_is_set.
  rewrite Z.quot_div_nonneg, Z.rem_mod_nonneg by lia.
  rewrite land_bit by (apply Z.mod_pos_bound; lia).
  by rewrite negb_involutive.
Qed.

Lemma update_bitmap_byte_Done b f bm bm' :
  update_bitmap_byte b f bm = Done bm' →
  0 <= b ∧ b / 8 < BLOCK_SIZE ∧
  ∃ v, bm !! Z.to_nat (b / 8) = Some v ∧
       bm' = <[Z.to_nat (b / 8) := Z.land (f v (2 ^ (b mod 8))) 255]> bm.
Proof.
  unfold update_bitmap_byte. intros H.
  destruct (Z.ltb_spec (Z.rem b 8) 0) as [|Hbit]; [done|].
  destruct (Z.ltb_spec (Z.quot b 8) 0) as [|Hq]; [done|].
  destruct (Z.leb_spec BLOCK_SIZE (Z.quot b 8)) as [|Hlt]; [done|]. simpl in H.
  assert (0 <= b) as Hb.
  { destruct (Z.le_gt_cases 0 b) as [|Hneg]; [done|].
    pose proof (Z.rem_nonpos b 8 ltac:(lia) ltac:(lia)).
    pose proof (Z.quot_rem' b 8).
    assert (Z.rem b 8 = 0) by lia.
    assert (Z.quot b 8 < 0) by lia. lia. }
  rewrite Z.quot_div_nonneg, Z.rem_mod_nonneg in * by lia.
  destruct (bm !! Z.to_nat (b / 8)) as [v|] eqn:Hl; [|done].
  inversion H; subst. rewrite Z.shiftl_1_l. eauto 10.
Qed.

Lemma update_bitmap_byte_succeeds b f bm :
  0 <= b → b / 8 < BLOCK_SIZE → (Z.to_nat (b / 8) < length bm)%nat →
  ∃ bm', update_bitmap_byte b f bm = Done bm'.
Proof.
  intros Hb Hlt Hlen. unfold update_bitmap_byte.
  rewrite Z.quot_div_nonneg, Z.rem_mod_nonneg by lia.
  pose proof (Z.mod_pos_bound b 8 ltac:(lia)).
  pose proof (Z.div_pos b 8 Hb ltac:(lia)).
  destruct (Z.ltb_spec (b mod 8) 0); [lia|].
  destruct (Z.ltb_spec (b / 8) 0); [lia|].
  destruct (Z.leb_spec BLOCK_SIZE (b / 8)); [lia|]. simpl.
  destruct (lookup_lt_is_Some_2 bm _ Hlen) as [v ->]. eauto.
Qed.

Lemma byte_mask n : 0 <= n < 8 → Z.testbit 255 n = true.
Proof.
  intros Hn. change 255 with (Z.ones 8). apply Z.ones_spec_low. lia.
Qed.

Lemma same_block i b : 0 <= i → 0 <= b → i / 8 = b / 8 → i mod 8 = b mod 8 → i = b.
Proof.
  intros Hi Hb Hq Hr.
  rewrite (Z.div_mod i 8), (Z.div_mod b 8) by lia. lia.
Qed.

Lemma bit_after_update b f bm bm' (g : bool → bool) :
  (∀ v n, 0 <= n < 8 →
     Z.testbit (f v (2 ^ (b mod 8))) n =
     if n =? b mod 8 then g (Z.testbit v n) else Z.testbit v n) →
  update_bitmap_byte b f bm = Done bm' →
  length bm' = length bm ∧
  ∀ i, 0 <= i →
    bit_is_set bm' i =
    if bool_decide (i = b) then g (bit_is_set bm i) else bit_is_set bm i.
Proof.
  intros Hf Hup.
  apply update_bitmap_byte_Done in Hup as (Hb & Hlt & v & Hv & ->).
  split; [by rewrite length_insert|].
  intros i Hi. rewrite !bit_is_set_spec by done.
  pose proof (Z.mod_pos_bound i 8 ltac:(lia)) as Hmi.
  destruct (decide (Z.to_nat (i / 8) = Z.to_nat (b / 8))) as [Heq|Hne].
  - assert (i / 8 = b / 8) as Hq.
    { pose proof (Z.div_pos i 8 Hi ltac:(lia)).
      pose proof (Z.div_pos b 8 Hb ltac:(lia)). lia. }
    rewrite Heq, list_lookup_insert_eq by (by eapply lookup_lt_Some).
    rewrite Hv. simpl.
    rewrite Z.land_spec, byte_mask, andb_true_r by done.
    rewrite Hf by done.
    destruct (Z.eqb_spec (i mod 8) (b mod 8)) as [Hr|Hr].
    + rewrite bool_decide_eq_true_2 by (by apply same_block). done.
    + rewrite bool_decide_eq_false_2 by (intros ->; done). done.
  - rewrite list_lookup_insert_ne by done.
    rewrite bool_decide_eq_false_2 by (intros ->; done). done.
Qed.

Lemma mark_block_used_Done b bm bm' :
  mark_block_used b bm = Done bm' →
  0 <= b ∧ b / 8 < BLOCK_SIZE ∧ length bm' = length bm ∧
  ∀ i, 0 <= i →
    bit_is_set bm' i = if bool_decide (i = b) then true else bit_is_set bm i.
Proof.
  intros H. pose proof (update_bitmap_byte_Done _ _ _ _ H) as (Hb & Hlt & _).
  split; [done|]. split; [done|].
  apply (bit_after_update b (λ v m, Z.lor v m) bm bm' (λ _, true)); [|exact H].
  intros v n Hn. pose proof (Z.mod_pos_bound b 8 ltac:(lia)).
  rewrite Z.lor_spec, Z.pow2_bits_eqb by lia.
  rewrite (Z.eqb_sym (b mod 8) n).
  destruct (n =? b mod 8); [by rewrite orb_true_r | by rewrite orb_false_r].
Qed.

Lemma mark_block_free_Done b bm bm' :
  mark_block_free b bm = Done bm' →
  0 <= b ∧ b / 8 < BLOCK_SIZE ∧ length bm' = length bm ∧
  ∀ i, 0 <= i →
    bit_is_set bm' i = if bool_decide (i = b) then false else bit_is_set bm i.
Proof.
  intros H. pose proof (update_bitmap_byte_Done _ _ _ _ H) as (Hb & Hlt & _).
  split; [done|]. split; [done|].
  apply (bit_after_update b (λ v m, Z.land v (Z.lnot m)) bm bm' (λ _, false)); [|exact H].
  intros v n Hn. pose proof (Z.mod_pos_bound b 8 ltac:(lia)).
  rewrite Z.land_spec, Z.lnot_spec, Z.pow2_bits_eqb by lia.
  rewrite (Z.eqb_sym (b mod 8) n).
  destruct (n =? b mod 8); [by rewrite andb_false_r | by rewrite andb_true_r].
Qed.

(** *** The bitmap as a set of blocks *)

Lemma elem_of_used_bits bm b :
  b ∈ used_bits bm ↔ 10 <= b < MAX_BLOCKS ∧ bit_is_set bm b = true.
Proof.
  unfold used_bits. rewrite list_elem_of_filter, elem_of_seqZ.
  rewrite Is_true_true. split; intros [? ?]; split; auto; lia.
Qed.

Lemma NoDup_used_bits bm : NoDup (used_bits bm).
Proof. apply NoDup_filter, NoDup_seqZ. Qed.

Lemma length_used_bits bm :
  Z.of_nat (length (used_bits bm)) <= Z.max 0 (MAX_BLOCKS - 10).
Proof.
  unfold used_bits.
  pose proof (length_filter (λ i, Is_true (bit_is_set bm i)) (seqZ 10 (MAX_BLOCKS - 10))) as H.
  rewrite length_seqZ in H. lia.
Qed.

Lemma used_bits_mark_used b bm bm' :
  mark_block_used b bm = Done bm' →
  10 <= b < MAX_BLOCKS → bit_is_set bm b = false →
  used_bits bm' ≡ₚ b :: used_bits bm.
Proof.
  intros Hm Hb Hclear.
  apply mark_block_used_Done in Hm as (_ & _ & _ & Hbits).
  apply NoDup_Permutation.
  - apply NoDup_used_bits.
  - constructor; [|apply NoDup_used_bits].
    rewrite elem_of_used_bits. intros [_ ?]. congruence.
  - intros x. rewrite elem_of_cons, !elem_of_used_bits.
    split.
    + intros [Hx Hs]. rewrite Hbits in Hs by lia.
      case_bool_decide; [by left | by right].
    + intros [-> | [Hx Hs]].
      * split; [done|]. rewrite Hbits by lia. by rewrite bool_decide_eq_true_2.
      * split; [done|]. rewrite Hbits by lia. by case_bool_decide.
Qed.

Lemma used_bits_mark_free b bm bm' :
  mark_block_free b bm = Done bm' →
  b ∈ used_bits bm →
  used_bits bm ≡ₚ b :: used_bits bm'.
Proof.
  intros Hm Hb.
  apply mark_block_free_Done in Hm as (_ & _ & _ & Hbits).
  apply elem_of_used_bits in Hb as [Hb Hset].
  apply NoDup_Permutation.
  - apply NoDup_used_bits.
  - constructor; [|apply NoDup_used_bits].
    rewrite elem_of_used_bits. intros [_ Hs].
    rewrite Hbits in Hs by lia. by rewrite bool_decide_eq_true_2 in Hs.
  - intros x. rewrite elem_of_cons, !elem_of_used_bits.
    split.
    + intros [Hx Hs]. destruct (decide (x = b)) as [->|Hne]; [by left|].
      right. split; [done|]. rewrite Hbits by lia.
      by rewrite bool_decide_eq_false_2.
    + intros [-> | [Hx Hs]]; [done|].
      split; [done|]. rewrite Hbits in Hs by lia.
      by case_bool_decide.
Qed.

Lemma find_free_block_from_spec n i bm :
  (find_free_block_from n i bm = -1 ∧
   ∀ j, i <= j < i + Z.of_nat n → bit_is_set bm j = true)
  ∨ (i <= find_free_block_from n i bm < i + Z.of_nat n ∧
     bit_is_set bm (find_free_block_from n i bm) = false).
Proof.
  revert i. induction n as [|n IH]; intros i; simpl.
  - left. split; [done|]. intros j Hj. lia.
  - destruct (bit_is_set bm i) eqn:Hs; simpl.
    + destruct (IH (i + 1)) as [[Hr Hall] | [Hr Hc]].
      * left. split; [done|]. intros j Hj.
        destruct (decide (j = i)) as [->|]; [done|]. apply Hall. lia.
      * right. split; [lia|done].
    + right. split; [lia|done].
Qed.

Lemma find_free_block_spec bm :
  (find_free_block bm = -1 ∧
   ∀ j, 10 <= j < MAX_BLOCKS → bit_is_set bm j = true)
  ∨ (10 <= find_free_block bm < MAX_BLOCKS ∧
     bit_is_set bm (find_free_block bm) = false).
Proof.
  unfold find_free_block.
  destruct (find_free_block_from_spec (Z.to_nat (MAX_BLOCKS - 10)) 10 bm)
    as [[Hr Hall] | [Hr Hc]].
  - left. split; [done|]. intros j Hj. apply Hall. lia.
  - right. split; [lia|done].
Qed.

Lemma filter_all {A} (P : A → Prop) `{∀ x, Decision (P x)} (l : list A) :
  (∀ x, x ∈ l → P x) → filter P l = l.
Proof.
  induction l as [|a l IH]; intros Hall; [done|].
  rewrite filter_cons_True by (apply Hall; left).
  f_equal. apply IH. intros x Hx. apply Hall. by right.
Qed.

Lemma find_free_block_full bm :
  find_free_block bm = -1 →
  Z.of_nat (length (used_bits bm)) = Z.max 0 (MAX_BLOCKS - 10).
Proof.
  intros Hf.
  destruct (find_free_block_spec bm) as [[_ Hall] | [Hr _]]; [|lia].
  unfold used_bits. rewrite filter_all.
  - rewrite length_seqZ. lia.
  - intros x Hx. apply elem_of_seqZ in Hx. apply Is_true_true, Hall. lia.
Qed.

Hypothesis HG : geometry_ok G.


(** *** Block pointers *)

Lemma all_ptrs_split tbl k ino :
  tbl !! k = Some ino →
  all_ptrs tbl ≡ₚ ino_ptrs ino ++ other_ptrs k tbl.
Proof.
  intros Hk. unfold other_ptrs, all_ptrs.
  rewrite <- (take_drop_middle tbl k ino Hk) at 1.
  rewrite bind_app, bind_cons.
  rewrite (assoc_L (++)), (Permutation_app_comm (take k tbl ≫= ino_ptrs)).
  by rewrite <- (assoc_L (++)).
Qed.

Lemma other_ptrs_insert tbl k ino' :
  other_ptrs k (<[k := ino']> tbl) = other_ptrs k tbl.
Proof.
  unfold other_ptrs.
  rewrite take_insert_ge by lia.
  rewrite drop_insert_lt by lia. done.
Qed.

Lemma all_ptrs_insert tbl k ino ino' :
  tbl !! k = Some ino →
  all_ptrs (<[k := ino']> tbl) ≡ₚ ino_ptrs ino' ++ other_ptrs k tbl.
Proof.
  intros Hk.
  rewrite (all_ptrs_split (<[k := ino']> tbl) k ino').
  - by rewrite other_ptrs_insert.
  - apply list_lookup_insert_eq. by eapply lookup_lt_Some.
Qed.

Lemma elem_of_all_ptrs tbl x :
  x ∈ all_ptrs tbl ↔
  ∃ ino, ino ∈ tbl ∧ i_used ino = true ∧ x ≠ 0 ∧ x ∈ i_blocks ino.
Proof.
  unfold all_ptrs. rewrite list_elem_of_bind. unfold ino_ptrs.
  split.
  - intros (ino & Hx & Hin). destruct (i_used ino) eqn:Hu.
    + apply list_elem_of_filter in Hx as [? ?]. eauto 10.
    + by apply elem_of_nil in Hx.
  - intros (ino & Hin & Hu & Hne & Hx). exists ino. rewrite Hu.
    split; [|done]. by apply list_elem_of_filter.
Qed.



(** *** Giving blocks back *)

Lemma release_blocks_Done blks bm fb blks' bm' fb' :
  release_blocks blks bm fb = Done (blks', bm', fb') →
  blks' = replicate (length blks) 0 ∧ length bm' = length bm ∧
  (∀ i, 0 <= i →
     bit_is_set bm' i =
     bit_is_set bm i && negb (bool_decide (i ∈ filter (λ b, b ≠ 0) blks))) ∧
  (- 2 ^ 31 <= fb →
   fb + Z.of_nat (length (filter (λ b, b ≠ 0) blks)) < 2 ^ 31 →
   fb' = fb + Z.of_nat (length (filter (λ b, b ≠ 0) blks))).
Proof.
  revert bm fb blks' bm' fb'.
  induction blks as [|b blks IH]; intros bm fb blks' bm' fb'; simpl.
  - intros [= <- <- <-]. split_and!; auto.
    + intros i _. simpl. by rewrite andb_true_r.
    + intros; lia.
  - destruct (Z.eqb_spec b 0) as [->|Hb]; simpl.
    + destruct (release_blocks blks bm fb) as [[[r1 r2] r3]|] eqn:Hr; [|done].
      simpl. intros [= <- <- <-].
      destruct (IH _ _ _ _ _ Hr) as (-> & Hlen & Hbits & Hfb).
      rewrite filter_cons_False by (intros ?; done).
      split_and!; auto.
    + destruct (mark_block_free b bm) as [bm1|] eqn:Hm; [|done]. simpl.
      destruct (release_blocks blks bm1 (wrap (fb + 1))) as [[[r1 r2] r3]|] eqn:Hr;
        [|done].
      simpl. intros [= <- <- <-].
      destruct (IH _ _ _ _ _ Hr) as (-> & Hlen & Hbits & Hfb).
      apply mark_block_free_Done in Hm as (Hb0 & _ & Hlen1 & Hbits1).
      rewrite filter_cons_True by done.
      split_and!; auto.
      * congruence.
      * intros i Hi. rewrite Hbits, Hbits1 by done.
        destruct (decide (i = b)) as [->|Hne].
        -- rewrite bool_decide_eq_true_2 by done. simpl.
           symmetry. apply andb_false_iff. right.
           apply negb_false_iff, bool_decide_eq_true_2. left.
        -- rewrite (bool_decide_eq_false_2 (i = b)) by done.
           f_equal. f_equal. apply bool_decide_ext.
           rewrite elem_of_cons. split; [by right | by intros [?|?]].
      * intros Hlo Hhi. simpl length in *.
        rewrite wrap_small in Hfb by lia. rewrite Hfb; lia.
Qed.

Lemma release_blocks_succeeds blks bm fb :
  length bm = Z.to_nat BLOCK_SIZE →
  (∀ b, b ∈ blks → b ≠ 0 → 0 <= b < 8 * BLOCK_SIZE) →
  ∃ r, release_blocks blks bm fb = Done r.
Proof.
  revert bm fb. induction blks as [|b blks IH]; intros bm fb Hlen Hr; simpl.
  - eauto.
  - destruct (Z.eqb_spec b 0) as [->|Hb]; simpl.
    + destruct (IH bm fb Hlen) as [[[r1 r2] r3] ->]; [|simpl; eauto].
      intros x Hx. apply Hr. by right.
    + destruct (Hr b ltac:(left) Hb) as [Hb0 Hb8].
      destruct (update_bitmap_byte_succeeds b (λ v m, Z.land v (Z.lnot m)) bm)
        as [bm1 Hm]; [lia | | |].
      { apply Z.div_lt_upper_bound; lia. }
      { rewrite Hlen. apply Z2Nat.inj_lt; [apply Z.div_pos; lia| |].
        - pose proof (gok_block_size G HG). lia.
        - apply Z.div_lt_upper_bound; lia. }
      unfold mark_block_free. rewrite Hm. simpl.
      apply (bit_after_update b _ bm bm1 (λ _, false)) in Hm as [Hlen1 _].
      2:{ intros v n Hn. pose proof (Z.mod_pos_bound b 8 ltac:(lia)).
          rewrite Z.land_spec, Z.lnot_spec, Z.pow2_bits_eqb by lia.
          rewrite (Z.eqb_sym (b mod 8) n).
          destruct (n =? b mod 8); [by rewrite andb_false_r | by rewrite andb_true_r]. }
      destruct (IH bm1 (wrap (fb + 1))) as [[[r1 r2] r3] ->]; [congruence| |simpl; eauto].
      intros x Hx. apply Hr. by right.
Qed.

Lemma used_bits_release blks bm fb blks' bm' fb' :
  release_blocks blks bm fb = Done (blks', bm', fb') →
  NoDup (filter (λ b, b ≠ 0) blks) →
  (∀ b, b ∈ blks → b ≠ 0 → b ∈ used_bits bm) →
  used_bits bm ≡ₚ filter (λ b, b ≠ 0) blks ++ used_bits bm'.
Proof.
  intros Hr Hnd Hin.
  apply release_blocks_Done in Hr as (_ & _ & Hbits & _).
  apply NoDup_Permutation.
  - apply NoDup_used_bits.
  - apply NoDup_app. split; [done|]. split; [|apply NoDup_used_bits].
    intros x Hx. rewrite elem_of_used_bits. intros [Hr Hs].
    rewrite Hbits in Hs by lia.
    rewrite (bool_decide_eq_true_2 _ Hx) in Hs. by rewrite andb_false_r in Hs.
  - intros x. rewrite elem_of_app, !elem_of_used_bits. split.
    + intros [Hx Hs].
      destruct (decide (x ∈ filter (λ b, b ≠ 0) blks)) as [|Hn]; [by left|].
      right. split; [done|]. rewrite Hbits by lia.
      rewrite (bool_decide_eq_false_2 _ Hn). by rewrite andb_true_r.
    + intros [Hx | [Hx Hs]].
      * apply list_elem_of_filter in Hx as [? ?].
        by apply elem_of_used_bits, Hin.
      * split; [done|]. rewrite Hbits in Hs by lia.
        by apply andb_true_iff in Hs as [? _].
Qed.

(** *** Writes through a descriptor *)

Lemma with_file_id fd w : with_file fd id w = w.
Proof.
  unfold with_file. destruct (fds w !! fd) as [path|]; [|done].
  destruct (files w !! path) as [f|] eqn:Hf; [|done].
  destruct w as [fs ds c]. simpl in *. f_equal. by apply insert_id.
Qed.

Lemma with_file_compose fd g1 g2 w :
  with_file fd g2 (with_file fd g1 w) = with_file fd (g2 ∘ g1) w.
Proof.
  unfold with_file. destruct (fds w !! fd) as [path|] eqn:Hfd.
  - destruct (files w !! path) as [f|] eqn:Hf; simpl.
    + rewrite Hfd. rewrite lookup_insert_eq. simpl. f_equal.
      apply insert_insert_eq.
    + by rewrite Hfd, Hf.
  - by rewrite Hfd.
Qed.

Lemma fd_file_with_file fd g w :
  fd_file fd (with_file fd g w) = g <$> fd_file fd w.
Proof.
  unfold fd_file, with_file. destruct (fds w !! fd) as [path|] eqn:Hfd; simpl.
  - destruct (files w !! path) as [f|] eqn:Hf; simpl.
    + rewrite Hfd. simpl. by rewrite lookup_insert_eq.
    + rewrite Hfd. simpl. by rewrite Hf.
  - by rewrite Hfd.
Qed.

Lemma fds_with_file fd g w : fds (with_file fd g w) = fds w.
Proof.
  unfold with_file. destruct (fds w !! fd) as [path|]; [|done].
  by destruct (files w !! path).
Qed.

(** *** Allocation *)

Lemma geometry_bounds :
  2 <= BLOCK_SIZE ∧ 10 <= MAX_BLOCKS ∧ MAX_BLOCKS <= 8 * BLOCK_SIZE ∧
  0 < MAX_FILES ∧ 0 < MAX_FILENAME ∧ 0 < MAX_DIRECT_BLOCKS ∧
  MAX_DIRECT_BLOCKS <= MAX_BLOCKS - 10 ∧
  MAX_BLOCKS * BLOCK_SIZE < 2147483648 ∧
  (MAX_FILES + 1) * BLOCK_SIZE < 2147483648 ∧
  MAX_BLOCKS < 2147483648 ∧ BLOCK_SIZE < 2147483648 ∧
  MAX_FILES + 1 < 2147483648 ∧
  MAX_DIRECT_BLOCKS * BLOCK_SIZE < 2147483648.
Proof.
  destruct HG as [H1 H2 H3 H4 H5 H6 H7 H7' H8 H9].
  change (2 ^ 31) with 2147483648 in *.
  split_and!; try done; nia.
Qed.

Lemma wrap_id z : - 2147483648 <= z < 2147483648 → wrap z = z.
Proof. apply wrap_small. Qed.

Lemma data_offset_ok b :
  10 <= b < MAX_BLOCKS → data_offset b = Done (b * BLOCK_SIZE).
Proof.
  intros Hb. unfold data_offset.
  destruct geometry_bounds as (H1 & H2 & H3 & H4 & H5 & H6 & H7 & H8 & H9 & ?).
  rewrite !wrap_id by (nia).
  destruct (Z.ltb_spec (b * BLOCK_SIZE) (BLOCK_SIZE * 10)); [nia|done].
Qed.

Lemma chunk_size_bounds needed size i :
  (needed - 1) * BLOCK_SIZE < size <= needed * BLOCK_SIZE →
  0 <= i < needed →
  0 < chunk_size needed size i <= BLOCK_SIZE.
Proof.
  intros Hs Hi. unfold chunk_size. pose proof (gok_block_size G HG).
  destruct (Z.eqb_spec i (needed - 1)) as [->|]; lia.
Qed.

Lemma alloc_blocks_Done n : ∀ i needed size data fd bm fb blks w bm' fb' blks' w',
  alloc_blocks n i needed size data fd bm fb blks w = Done (bm', fb', blks', w') →
  0 <= i → i + Z.of_nat n = needed → needed < 2147483648 →
  (needed - 1) * BLOCK_SIZE < size <= needed * BLOCK_SIZE →
  ∃ newb,
    length newb = n ∧ (n ≠ 0%nat → needed <= MAX_DIRECT_BLOCKS) ∧
    length bm' = length bm ∧
    (∀ j, blks' !! j =
          if decide (Z.to_nat i ≤ j < Z.to_nat i + n ∧ j < length blks)%nat
          then newb !! (j - Z.to_nat i)%nat else blks !! j) ∧
    length blks' = length blks ∧
    (∀ b, b ∈ newb → 10 <= b < MAX_BLOCKS ∧ bit_is_set bm b = false) ∧
    NoDup newb ∧
    (∀ j, 0 <= j → bit_is_set bm' j = bit_is_set bm j || bool_decide (j ∈ newb)) ∧
    (used_bits bm' ≡ₚ newb ++ used_bits bm) ∧
    (- 2 ^ 31 <= fb - Z.of_nat n → fb < 2 ^ 31 → fb' = fb - Z.of_nat n) ∧
    w' = with_file fd (store_blocks i needed size data newb) w.
Proof.
  induction n as [|n IH];
    intros i needed size data fd bm fb blks w bm' fb' blks' w' Hrun Hi Hn Hint Hsz.
  - simpl in Hrun. injection Hrun as <- <- <- <-. exists [].
    split_and!; auto.
    + done.
    + intros j. case_decide; [lia|done].
    + intros b Hb. by apply elem_of_nil in Hb.
    + constructor.
    + intros j _. rewrite bool_decide_eq_false_2; [by rewrite orb_false_r|].
      apply not_elem_of_nil.
    + intros; lia.
    + simpl. symmetry. apply with_file_id.
  - simpl in Hrun.
    destruct (mark_block_used (find_free_block bm) bm) as [bm1|] eqn:Hm; [|done].
    simpl in Hrun.
    destruct (Z.ltb_spec i 0) as [|_]; [lia|].
    destruct (Z.leb_spec MAX_DIRECT_BLOCKS i) as [|Hidx]; [done|].
    simpl in Hrun.
    pose proof (mark_block_used_Done _ _ _ Hm) as (Hb0 & _ & Hlen1 & Hbits1).
    destruct (find_free_block_spec bm) as [[Hnone _] | [Hrange Hclear]]; [lia|].
    set (b := find_free_block bm) in *.
    rewrite (data_offset_ok b Hrange) in Hrun. simpl in Hrun.
    destruct geometry_bounds
      as (H1 & H2 & H3 & H4 & H5 & H6 & H7 & H8 & H9 & H10 & H11 & H12 & H13).
    assert (wrap (i + 1) = i + 1) as Hw1 by (apply wrap_id; lia).
    assert (0 <= i * BLOCK_SIZE <= MAX_DIRECT_BLOCKS * BLOCK_SIZE) as Hib.
    { split; [apply Z.mul_nonneg_nonneg; lia
             | apply Z.mul_le_mono_nonneg_r; lia]. }
    assert (wrap (i * BLOCK_SIZE) = i * BLOCK_SIZE) as Hw3
      by (apply wrap_id; lia).
    pose proof (chunk_size_bounds needed size i Hsz ltac:(lia)) as Hcs.
    assert (wrap (needed - 1) = needed - 1) as Hw2 by (apply wrap_id; lia).
    rewrite Hw1, Hw2, Hw3 in Hrun.
    assert ((if i =? needed - 1 then wrap (size - i * BLOCK_SIZE) else BLOCK_SIZE)
            = chunk_size needed size i) as Htw.
    { unfold chunk_size in *.
      destruct (i =? needed - 1); [apply wrap_id; lia | done]. }
    rewrite Htw in Hrun.
    assert (wrap (BLOCK_SIZE - chunk_size needed size i)
            = BLOCK_SIZE - chunk_size needed size i) as Hw5.
    { apply wrap_id. lia. }
    rewrite Hw5 in Hrun.
    match type of Hrun with
    | alloc_blocks _ _ _ _ _ _ _ _ _ ?w1 = _ =>
        assert (w1 = with_file fd (store_chunk i needed size data b) w) as Hw
    end.
    { unfold store_chunk, sys_pwrite.
      destruct (chunk_size needed size i <? BLOCK_SIZE).
      - by rewrite with_file_compose.
      - done. }
    rewrite Hw in Hrun. clear Hw.
    apply IH in Hrun as (newb & Hlen & Hmax & Hlbm & Hblks & Hlblks & Hnew & Hnd
                         & Hbits & Hperm & Hfb & Hworld); [|lia|lia|done|done].
    exists (b :: newb).
    assert (∀ x, x ∈ newb → x ≠ b) as Hfresh.
    { intros x Hx ->. destruct (Hnew _ Hx) as [_ Hc].
      rewrite Hbits1 in Hc by lia. by rewrite bool_decide_eq_true_2 in Hc. }
    split_and!.
    + simpl. lia.
    + intros _. lia.
    + congruence.
    + intros j. rewrite Hblks. rewrite length_insert.
      destruct (decide (j = Z.to_nat i)) as [->|Hj].
      * rewrite decide_False by lia.
        destruct (decide (Z.to_nat i < length blks)%nat).
        -- rewrite decide_True by lia. rewrite Nat.sub_diag. simpl.
           by apply list_lookup_insert_eq.
        -- rewrite decide_False by lia. by rewrite list_insert_ge by lia.
      * rewrite list_lookup_insert_ne by done.
        repeat case_decide; try lia; try done.
        replace (j - Z.to_nat i)%nat with (S (j - Z.to_nat (i + 1)))%nat by lia.
        done.
    + by rewrite Hlblks, length_insert.
    + intros x Hx. apply elem_of_cons in Hx as [-> | Hx]; [done|].
      destruct (Hnew _ Hx) as [? Hc]. split; [done|].
      rewrite Hbits1 in Hc by lia. by case_bool_decide.
    + constructor; [|done]. intros Hb. by apply (Hfresh b).
    + intros j Hj. rewrite Hbits, Hbits1 by done.
      destruct (decide (j = b)) as [->|Hne].
      * rewrite (bool_decide_eq_true_2 (b = b)) by done.
        rewrite (bool_decide_eq_true_2 (b ∈ b :: newb)) by left.
        by rewrite orb_true_r.
      * rewrite (bool_decide_eq_false_2 (j = b)) by done. f_equal.
        apply bool_decide_ext. rewrite elem_of_cons.
        split; [by right | by intros [?|?]].
    + rewrite Hperm. rewrite (used_bits_mark_used b bm bm1 Hm Hrange Hclear).
      simpl. by rewrite Permutation_middle.
    + intros Hlo Hhi. change (2 ^ 31) with 2147483648 in *. rewrite Hfb.
      * rewrite wrap_id; lia.
      * rewrite wrap_id; lia.
      * rewrite wrap_id; lia.
    + rewrite Hworld. simpl. by rewrite with_file_compose.
Qed.

Lemma alloc_blocks_succeeds n : ∀ i needed size data fd bm fb blks w,
  length bm = Z.to_nat BLOCK_SIZE →
  0 <= i → i + Z.of_nat n <= MAX_DIRECT_BLOCKS →
  Z.of_nat (length (used_bits bm)) + Z.of_nat n <= MAX_BLOCKS - 10 →
  ∃ r, alloc_blocks n i needed size data fd bm fb blks w = Done r.
Proof.
  induction n as [|n IH]; intros i needed size data fd bm fb blks w Hlen Hi Hn Hfree.
  - simpl. eauto.
  - simpl.
    destruct geometry_bounds
      as (H1 & H2 & H3 & H4 & H5 & H6 & H7 & H8 & H9 & H10 & H11 & H12 & H13).
    destruct (find_free_block_spec bm) as [[Hnone _] | [Hrange Hclear]].
    { apply find_free_block_full in Hnone. lia. }
    set (b := find_free_block bm) in *.
    assert (b / 8 < BLOCK_SIZE) as Hbyte by (apply Z.div_lt_upper_bound; lia).
    destruct (update_bitmap_byte_succeeds b (λ v m, Z.lor v m) bm)
      as [bm1 Hm]; [lia | done | |].
    { rewrite Hlen. apply Z2Nat.inj_lt; [apply Z.div_pos; lia | lia | done]. }
    fold (mark_block_used b bm) in Hm. rewrite Hm. simpl.
    destruct (Z.ltb_spec i 0) as [|_]; [lia|].
    destruct (Z.leb_spec MAX_DIRECT_BLOCKS i) as [|_]; [lia|]. simpl.
    rewrite (data_offset_ok b Hrange). simpl.
    rewrite (wrap_id (i + 1)) by lia.
    apply IH; [|lia|lia|].
    + apply mark_block_used_Done in Hm as (_ & _ & -> & _). done.
    + rewrite (used_bits_mark_used b bm bm1 Hm Hrange Hclear). simpl length. lia.
Qed.

Lemma blocks_for_bounds size :
  (blocks_for size - 1) * BLOCK_SIZE < size <= blocks_for size * BLOCK_SIZE.
Proof.
  unfold blocks_for. pose proof (gok_block_size G HG) as Hbs.
  assert (BLOCK_SIZE ≠ 0) as Hnz by lia.
  assert (0 < BLOCK_SIZE) as Hpos by lia.
  pose proof (Z.div_mod (size + BLOCK_SIZE - 1) BLOCK_SIZE Hnz) as Hdm.
  pose proof (Z.mod_pos_bound (size + BLOCK_SIZE - 1) BLOCK_SIZE Hpos).
  nia.
Qed.

Lemma needed_blocks_eq size :
  0 < size <= MAX_FILES * BLOCK_SIZE →
  Z.quot (wrap (size + BLOCK_SIZE - 1)) BLOCK_SIZE = blocks_for size.
Proof.
  intros Hs.
  destruct geometry_bounds
    as (H1 & H2 & H3 & H4 & H5 & H6 & H7 & H8 & H9 & H10 & H11 & H12 & H13).
  rewrite wrap_id by lia.
  unfold blocks_for. apply Z.quot_div_nonneg; lia.
Qed.

Lemma blocks_for_pos size : 0 < size → 0 < blocks_for size.
Proof.
  intros Hs. pose proof (blocks_for_bounds size).
  pose proof (gok_block_size G HG). nia.
Qed.

Lemma blocks_for_le size k :
  0 <= k → size <= k * BLOCK_SIZE → blocks_for size <= k.
Proof.
  intros Hk Hs. pose proof (blocks_for_bounds size).
  pose proof (gok_block_size G HG). nia.
Qed.

(** *** Counting used inodes *)

Lemma used_count_insert tbl k old new :
  tbl !! k = Some old →
  used_count (<[k := new]> tbl)
  = used_count tbl - Z.b2z (i_used old) + Z.b2z (i_used new).
Proof.
  intros Hk. unfold used_count.
  rewrite insert_take_drop by (by eapply lookup_lt_Some).
  rewrite <- (take_drop_middle tbl k old Hk) at 3.
  rewrite !filter_app, !filter_cons, !length_app.
  destruct (i_used old), (i_used new); simpl;
    repeat case_decide; simpl; try done; lia.
Qed.

Lemma used_count_bounds tbl :
  0 <= used_count tbl <= Z.of_nat (length tbl).
Proof.
  unfold used_count.
  pose proof (length_filter (λ ino, Is_true (i_used ino)) tbl). lia.
Qed.


(** *** Consequences of the invariant *)

Lemma session_ok_NoDup s : session_ok s → NoDup (all_ptrs (inode_table s)).
Proof. intros Hok. rewrite <- (ok_bits s Hok). apply NoDup_used_bits. Qed.

Lemma session_ok_free_blocks s :
  session_ok s → 0 <= free_blocks (sb s) <= MAX_BLOCKS - 10.
Proof.
  intros Hok. pose proof (ok_free_blocks s Hok) as Hfb.
  pose proof (length_used_bits (block_bitmap s)) as Hlen.
  rewrite (Permutation_length (ok_bits s Hok)) in Hlen.
  pose proof (gok_blocks_lo G HG). lia.
Qed.

Lemma session_ok_ptr s b :
  session_ok s → b ∈ all_ptrs (inode_table s) →
  10 <= b < MAX_BLOCKS ∧ bit_is_set (block_bitmap s) b = true.
Proof.
  intros Hok Hb. rewrite <- (ok_bits s Hok) in Hb.
  by apply elem_of_used_bits.
Qed.


Lemma session_ok_free_inodes s :
  session_ok s → 0 <= free_inodes (sb s) <= MAX_FILES.
Proof.
  intros Hok. pose proof (ok_free_inodes s Hok).
  pose proof (used_count_bounds (inode_table s)) as Hb.
  rewrite (ok_table_len s Hok) in Hb.
  pose proof (gok_files G HG). lia.
Qed.

Lemma session_ok_blocks_len s k ino :
  session_ok s → inode_table s !! k = Some ino →
  length (i_blocks ino) = Z.to_nat MAX_DIRECT_BLOCKS.
Proof.
  intros Hok Hk. pose proof (ok_blocks_len s Hok) as Hall.
  rewrite Forall_lookup in Hall. by apply (Hall k).
Qed.

(** *** The release loop on a consistent session *)

Lemma session_ok_release_succeeds s k ino :
  session_ok s → inode_table s !! k = Some ino → i_used ino = true →
  ∃ r, release_blocks (i_blocks ino) (block_bitmap s) (free_blocks (sb s))
       = Done r.
Proof.
  intros Hok Hk Hu. apply release_blocks_succeeds; [by apply ok_bitmap_len |].
  intros b Hb Hne.
  destruct (session_ok_ptr s b Hok) as [Hr _].
  { apply elem_of_all_ptrs. exists ino. split_and!; auto.
    apply list_elem_of_lookup. eauto. }
  pose proof (gok_blocks_hi G HG). lia.
Qed.

Lemma session_ok_release s k ino blks1 bm1 fb1 :
  session_ok s → inode_table s !! k = Some ino → i_used ino = true →
  release_blocks (i_blocks ino) (block_bitmap s) (free_blocks (sb s))
    = Done (blks1, bm1, fb1) →
  blks1 = replicate (Z.to_nat MAX_DIRECT_BLOCKS) 0 ∧
  length bm1 = Z.to_nat BLOCK_SIZE ∧
  used_bits bm1 ≡ₚ other_ptrs k (inode_table s) ∧
  fb1 + Z.of_nat (length (other_ptrs k (inode_table s))) = MAX_BLOCKS - 10 ∧
  0 <= fb1 ∧ free_blocks (sb s) <= fb1.
Proof.
  intros Hok Hk Hu Hrel.
  pose proof (all_ptrs_split _ _ _ Hk) as Hsplit.
  assert (ino_ptrs ino = filter (λ b, b ≠ 0) (i_blocks ino)) as Hptrs
    by (unfold ino_ptrs; by rewrite Hu).
  rewrite Hptrs in Hsplit.
  pose proof (session_ok_NoDup s Hok) as Hnd. rewrite Hsplit in Hnd.
  apply NoDup_app in Hnd as (HndP & _ & _).
  assert (used_bits (block_bitmap s)
          ≡ₚ filter (λ b, b ≠ 0) (i_blocks ino) ++ used_bits bm1) as Hub.
  { eapply used_bits_release; [exact Hrel | exact HndP |].
    intros b Hb Hne. rewrite (ok_bits s Hok), Hsplit.
    apply elem_of_app. left. by apply list_elem_of_filter. }
  pose proof (release_blocks_Done _ _ _ _ _ _ Hrel) as (-> & Hlen & _ & Hfb).
  pose proof (session_ok_free_blocks s Hok) as Hfbr.
  pose proof (ok_free_blocks s Hok) as Hsum.
  rewrite (Permutation_length Hsplit), length_app in Hsum.
  destruct geometry_bounds
    as (H1 & H2 & H3 & H4 & H5 & H6 & H7 & H8 & H9 & H10 & H11 & H12 & H13).
  change (2 ^ 31) with 2147483648 in Hfb.
  assert (fb1 = free_blocks (sb s)
                + Z.of_nat (length (filter (λ b, b ≠ 0) (i_blocks ino)))) as ->
    by (apply Hfb; lia).
  split_and!.
  - f_equal. by eapply session_ok_blocks_len.
  - rewrite Hlen. by apply ok_bitmap_len.
  - rewrite (ok_bits s Hok), Hsplit in Hub.
    by apply Permutation_app_inv_l in Hub.
  - lia.
  - lia.
  - lia.
Qed.

(** *** Each operation keeps the invariant *)

Lemma filter_nonzero_replicate n :
  filter (λ b : Z, b ≠ 0) (replicate n 0) = [].
Proof.
  induction n as [|n IH]; [done|]. simpl.
  by rewrite filter_cons_False by (intros ?; done).
Qed.

Lemma fs_create_ok filename s :
  session_ok s → session_ok (fs_create filename s).2.
Proof.
  intros Hok. unfold fs_create.
  destruct (disk_fd s =? -1); [done|].
  destruct filename as [fname|]; [|done].
  destruct (MAX_FILENAME <=? Z.of_nat (String.length fname)); [done|].
  destruct (negb (find_inode (inode_table s) fname =? -1)); [done|].
  destruct (Z.eqb_spec (find_free_inode (inode_table s)) (-1)) as [|Hfree]; [done|].
  simpl.
  destruct (find_free_inode_from_found (inode_table s) 0 ltac:(lia) Hfree)
    as (k & old & Hidx & Hk & Hunused).
  unfold find_free_inode. rewrite Hidx.
  replace (Z.to_nat (0 + Z.of_nat k)) with k by lia.
  pose proof (all_ptrs_split _ _ _ Hk) as Hsplit.
  assert (ino_ptrs old = []) as Hold by (unfold ino_ptrs; by rewrite Hunused).
  rewrite Hold in Hsplit. simpl in Hsplit.
  set (new := {| i_used := true; i_name := strncpy_term fname; i_size := 0;
                 i_blocks := replicate (Z.to_nat MAX_DIRECT_BLOCKS) 0 |}).
  pose proof (all_ptrs_insert _ _ _ new Hk) as Hins.
  assert (ino_ptrs new = []) as Hnew.
  { unfold ino_ptrs. simpl. apply filter_nonzero_replicate. }
  rewrite Hnew in Hins. simpl in Hins.
  pose proof (session_ok_free_inodes s Hok) as Hfi.
  destruct geometry_bounds
    as (H1 & H2 & H3 & H4 & H5 & H6 & H7 & H8 & H9 & H10 & H11 & H12 & H13).
  constructor; simpl.
  - rewrite length_insert. by apply ok_table_len.
  - apply Forall_insert; [by apply ok_blocks_len|]. simpl.
    by rewrite length_replicate.
  - by apply ok_bitmap_len.
  - by apply ok_total_blocks.
  - by apply ok_block_size.
  - by apply ok_total_inodes.
  - rewrite Hins, <- Hsplit. by apply ok_bits.
  - rewrite (Permutation_length Hins), <- (Permutation_length Hsplit).
    by apply ok_free_blocks.
  - rewrite (used_count_insert _ _ old new Hk), Hunused. simpl.
    rewrite wrap_id by lia. pose proof (ok_free_inodes s Hok). lia.
Qed.

Lemma fs_delete_ok filename s r s' :
  session_ok s → fs_delete filename s = Done (r, s') → session_ok s'.
Proof.
  intros Hok. unfold fs_delete.
  destruct (disk_fd s =? -1); [by intros [= <- <-]|].
  destruct filename as [fname|]; [|by intros [= <- <-]].
  destruct (MAX_FILENAME <=? Z.of_nat (String.length fname));
    [by intros [= <- <-]|].
  destruct (Z.eqb_spec (find_inode (inode_table s) fname) (-1)) as [|Hfound];
    [by intros [= <- <-]|].
  destruct (find_inode_found _ _ Hfound) as (k & ino & Hidx & Hk & Hu & _).
  rewrite Hidx, Nat2Z.id, Hk.
  destruct (release_blocks (i_blocks ino) (block_bitmap s) (free_blocks (sb s)))
    as [[[blks1 bm1] fb1]|] eqn:Hrel; [|done].
  simpl. intros [= <- <-].
  destruct (session_ok_release s k ino _ _ _ Hok Hk Hu Hrel)
    as (-> & Hlen & Hbits & Hsum & Hfb0 & _).
  set (cleared := {| i_used := false; i_name := EmptyString; i_size := 0;
                     i_blocks := replicate (Z.to_nat MAX_DIRECT_BLOCKS) 0 |}).
  pose proof (all_ptrs_insert _ _ _ cleared Hk) as Hins.
  change (ino_ptrs cleared) with (@nil Z) in Hins. simpl in Hins.
  pose proof (session_ok_free_inodes s Hok) as Hfi.
  destruct geometry_bounds
    as (H1 & H2 & H3 & H4 & H5 & H6 & H7 & H8 & H9 & H10 & H11 & H12 & H13).
  constructor; simpl.
  - rewrite length_insert. by apply ok_table_len.
  - apply Forall_insert; [by apply ok_blocks_len|]. simpl.
    by rewrite length_replicate.
  - done.
  - by apply ok_total_blocks.
  - by apply ok_block_size.
  - by apply ok_total_inodes.
  - by rewrite Hins.
  - by rewrite (Permutation_length Hins).
  - rewrite (used_count_insert _ _ ino cleared Hk), Hu. simpl.
    rewrite wrap_id by lia. pose proof (ok_free_inodes s Hok). lia.
Qed.

(** *** fs_write, step by step *)

Lemma wrap_size_bound : wrap (MAX_FILES * BLOCK_SIZE) = MAX_FILES * BLOCK_SIZE.
Proof.
  destruct geometry_bounds
    as (H1 & H2 & H3 & H4 & H5 & H6 & H7 & H8 & H9 & H10 & H11 & H12 & H13).
  apply wrap_id. nia.
Qed.

Lemma fs_write_failed filename data size s w r s' w' :
  fs_write filename data size s w = Done (r, s', w') →
  r ≠ 0 → s' = s ∧ w' = w.
Proof.
  unfold fs_write. intros Hrun Hr.
  destruct filename as [fname|]; [|by injection Hrun as <- <- <-].
  destruct data as [bytes|]; [|by injection Hrun as <- <- <-].
  destruct ((disk_fd s =? -1) || (size <=? 0)); [by injection Hrun as <- <- <-|].
  destruct (MAX_FILENAME <=? Z.of_nat (String.length fname));
    [by injection Hrun as <- <- <-|].
  destruct (wrap (MAX_FILES * BLOCK_SIZE) <? size);
    [by injection Hrun as <- <- <-|].
  destruct (find_inode (inode_table s) fname =? -1);
    [by injection Hrun as <- <- <-|].
  destruct (inode_table s !! Z.to_nat (find_inode (inode_table s) fname));
    [|done].
  destruct (free_blocks (sb s) <? _); [by injection Hrun as <- <- <-|].
  destruct (release_blocks _ _ _) as [[[blks1 bm1] fb1]|]; [|done].
  simpl in Hrun.
  destruct (alloc_blocks _ _ _ _ _ _ _ _ _ _) as [[[[bm2 fb2] blks2] w2]|];
    [|done].
  simpl in Hrun. injection Hrun as <- _ _. done.
Qed.

Lemma fs_write_Done0 filename data size s w s' w' :
  fs_write filename data size s w = Done (0, s', w') →
  ∃ fname bytes k ino blks1 bm1 fb1 bm2 fb2 blks2,
    filename = Some fname ∧ data = Some bytes ∧
    disk_fd s ≠ -1 ∧ valid_name fname ∧
    0 < size <= MAX_FILES * BLOCK_SIZE ∧
    find_inode (inode_table s) fname = Z.of_nat k ∧
    inode_table s !! k = Some ino ∧ i_used ino = true ∧
    blocks_for size <= free_blocks (sb s) ∧
    release_blocks (i_blocks ino) (block_bitmap s) (free_blocks (sb s))
      = Done (blks1, bm1, fb1) ∧
    alloc_blocks (Z.to_nat (blocks_for size)) 0 (blocks_for size) size bytes
      (disk_fd s) bm1 fb1 blks1 w = Done (bm2, fb2, blks2, w') ∧
    s' = {| sb := set_free_blocks fb2 (sb s);
            inode_table :=
              <[k := {| i_used := i_used ino; i_name := i_name ino;
                        i_size := size;
                        i_blocks := zero_unused (blocks_for size) blks2 |}]>
                (inode_table s);
            block_bitmap := bm2;
            disk_fd := disk_fd s |}.
Proof.
  unfold fs_write. intros Hrun.
  destruct filename as [fname|]; [|done].
  destruct data as [bytes|]; [|done].
  destruct (Z.eqb_spec (disk_fd s) (-1)) as [|Hfd]; [done|].
  destruct (Z.leb_spec size 0) as [|Hpos]; [done|]. simpl in Hrun.
  destruct (Z.leb_spec MAX_FILENAME (Z.of_nat (String.length fname)))
    as [|Hname]; [done|].
  rewrite wrap_size_bound in Hrun.
  destruct (Z.ltb_spec (MAX_FILES * BLOCK_SIZE) size) as [|Hmax]; [done|].
  destruct (Z.eqb_spec (find_inode (inode_table s) fname) (-1)) as [|Hfound];
    [done|].
  destruct (find_inode_found _ _ Hfound) as (k & ino & Hidx & Hk & Hu & _).
  rewrite Hidx, Nat2Z.id, Hk in Hrun.
  rewrite needed_blocks_eq in Hrun by lia.
  destruct (Z.ltb_spec (free_blocks (sb s)) (blocks_for size)) as [|Hfree];
    [done|].
  destruct (release_blocks _ _ _) as [[[blks1 bm1] fb1]|] eqn:Hrel; [|done].
  simpl in Hrun.
  destruct (alloc_blocks _ _ _ _ _ _ _ _ _ _) as [[[[bm2 fb2] blks2] w2]|]
    eqn:Halloc; [|done].
  simpl in Hrun. injection Hrun as <- <-.
  exists fname, bytes, k, ino, blks1, bm1, fb1, bm2, fb2, blks2.
  split_and!; auto; lia.
Qed.

Lemma fs_write_run fname bytes size s w k ino :
  disk_fd s ≠ -1 → valid_name fname →
  0 < size <= MAX_FILES * BLOCK_SIZE →
  find_inode (inode_table s) fname = Z.of_nat k →
  inode_table s !! k = Some ino →
  blocks_for size <= free_blocks (sb s) →
  fs_write (Some fname) (Some bytes) size s w =
  '(blks1, bm1, fb1) ← release_blocks (i_blocks ino) (block_bitmap s)
                         (free_blocks (sb s));
  '(bm2, fb2, blks2, w') ←
    alloc_blocks (Z.to_nat (blocks_for size)) 0 (blocks_for size) size bytes
      (disk_fd s) bm1 fb1 blks1 w;
  Done (0, {| sb := set_free_blocks fb2 (sb s);
              inode_table :=
                <[k := {| i_used := i_used ino; i_name := i_name ino;
                          i_size := size;
                          i_blocks := zero_unused (blocks_for size) blks2 |}]>
                  (inode_table s);
              block_bitmap := bm2;
              disk_fd := disk_fd s |}, w').
Proof.
  intros Hfd Hname Hsize Hidx Hk Hfree. unfold fs_write, valid_name in *.
  destruct (Z.eqb_spec (disk_fd s) (-1)) as [|_]; [done|].
  destruct (Z.leb_spec size 0) as [|_]; [lia|]. simpl.
  destruct (Z.leb_spec MAX_FILENAME (Z.of_nat (String.length fname)))
    as [|_]; [lia|].
  rewrite wrap_size_bound.
  destruct (Z.ltb_spec (MAX_FILES * BLOCK_SIZE) size) as [|_]; [lia|].
  rewrite Hidx, Nat2Z.id, Hk.
  destruct (Z.eqb_spec (Z.of_nat k) (-1)) as [|_]; [lia|].
  rewrite needed_blocks_eq by lia.
  destruct (Z.ltb_spec (free_blocks (sb s)) (blocks_for size)) as [|_]; [lia|].
  done.
Qed.

(** The pointers of the written inode: the new blocks, then zeros. *)
Lemma zero_unused_new needed blks blks2 newb :
  length newb = Z.to_nat needed → needed <= MAX_DIRECT_BLOCKS →
  length blks = Z.to_nat MAX_DIRECT_BLOCKS →
  (∀ j, blks2 !! j =
        if decide (Z.to_nat 0 ≤ j < Z.to_nat 0 + Z.to_nat needed
                   ∧ j < length blks)%nat
        then newb !! (j - Z.to_nat 0)%nat else blks !! j) →
  zero_unused needed blks2
  = newb ++ replicate (Z.to_nat MAX_DIRECT_BLOCKS - Z.to_nat needed)%nat 0.
Proof.
  intros Hlen Hmax Hblks Hlook. unfold zero_unused. f_equal.
  apply list_eq. intros j.
  destruct (decide (j < Z.to_nat needed)%nat) as [Hj|Hj].
  - rewrite lookup_take_lt by done. rewrite Hlook.
    rewrite decide_True by (simpl; lia). f_equal. simpl. lia.
  - rewrite lookup_take_ge by lia. symmetry. apply lookup_ge_None. lia.
Qed.

Lemma filter_nonzero_new (newb : list Z) n :
  (∀ b, b ∈ newb → b ≠ 0) →
  filter (λ b : Z, b ≠ 0) (newb ++ replicate n 0) = newb.
Proof.
  intros Hnz. rewrite filter_app, filter_nonzero_replicate, app_nil_r.
  by apply filter_all.
Qed.

(** What a successful write leaves behind on a consistent session. *)
Lemma fs_write_effect filename data size s w s' w' :
  session_ok s →
  fs_write filename data size s w = Done (0, s', w') →
  ∃ fname bytes k ino newb,
    filename = Some fname ∧ data = Some bytes ∧
    disk_fd s ≠ -1 ∧ valid_name fname ∧
    0 < size <= MAX_FILES * BLOCK_SIZE ∧
    find_inode (inode_table s) fname = Z.of_nat k ∧
    inode_table s !! k = Some ino ∧ i_used ino = true ∧
    length newb = Z.to_nat (blocks_for size) ∧
    blocks_for size <= MAX_DIRECT_BLOCKS ∧
    NoDup newb ∧
    (∀ b, b ∈ newb → 10 <= b < MAX_BLOCKS ∧ b ∉ other_ptrs k (inode_table s)) ∧
    inode_table s' =
      <[k := {| i_used := true; i_name := i_name ino; i_size := size;
                i_blocks :=
                  newb ++ replicate (Z.to_nat MAX_DIRECT_BLOCKS
                                     - Z.to_nat (blocks_for size))%nat 0 |}]>
        (inode_table s) ∧
    disk_fd s' = disk_fd s ∧
    w' = with_file (disk_fd s)
           (store_blocks 0 (blocks_for size) size bytes newb) w ∧
    session_ok s'.
Proof.
  intros Hok Hrun.
  apply fs_write_Done0 in Hrun
    as (fname & bytes & k & ino & blks1 & bm1 & fb1 & bm2 & fb2 & blks2
        & -> & -> & Hfd & Hname & Hsize & Hidx & Hk & Hu & Hfree
        & Hrel & Halloc & ->).
  destruct (session_ok_release s k ino _ _ _ Hok Hk Hu Hrel)
    as (-> & Hlen1 & Hbits1 & Hsum1 & Hfb1 & _).
  destruct geometry_bounds
    as (H1 & H2 & H3 & H4 & H5 & H6 & H7 & H8 & H9 & H10 & H11 & H12 & H13).
  assert (0 < size) as Hpos by lia.
  pose proof (blocks_for_pos size Hpos) as Hnpos.
  pose proof (blocks_for_bounds size) as Hnb.
  pose proof (session_ok_free_blocks s Hok) as Hfbr.
  apply alloc_blocks_Done in Halloc
    as (newb & Hlen & Hmax & Hlbm & Hblks & Hlblks & Hnew & Hnd & _ & Hperm
        & Hfb & Hworld); [|lia|lia|lia|done].
  specialize (Hmax ltac:(lia)).
  change (2 ^ 31) with 2147483648 in Hfb.
  assert (fb2 = fb1 - Z.of_nat (Z.to_nat (blocks_for size))) as -> by
    (apply Hfb; lia).
  rewrite (zero_unused_new _ _ _ newb Hlen Hmax (length_replicate _ _) Hblks).
  rewrite Hu.
  set (written := {| i_used := true; i_name := i_name ino; i_size := size;
                     i_blocks := newb ++ replicate _ 0 |}).
  assert (ino_ptrs written = newb) as Hptrs.
  { unfold ino_ptrs. simpl. apply filter_nonzero_new.
    intros b Hb. destruct (Hnew b Hb). lia. }
  pose proof (all_ptrs_insert _ _ _ written Hk) as Hins.
  rewrite Hptrs in Hins.
  exists fname, bytes, k, ino, newb.
  split_and!; try done; try lia.
  - intros b Hb. destruct (Hnew b Hb) as [Hr Hc]. split; [done|].
    rewrite <- Hbits1, elem_of_used_bits. intros [_ ?]. congruence.
  - constructor; simpl.
    + rewrite length_insert. by apply ok_table_len.
    + apply Forall_insert; [by apply ok_blocks_len|]. simpl.
      rewrite length_app, length_replicate. lia.
    + rewrite Hlbm. done.
    + by apply ok_total_blocks.
    + by apply ok_block_size.
    + by apply ok_total_inodes.
    + by rewrite Hperm, Hins, Hbits1.
    + rewrite (Permutation_length Hins), length_app. lia.
    + rewrite (used_count_insert _ _ ino written Hk), Hu. simpl.
      pose proof (ok_free_inodes s Hok). lia.
Qed.

Lemma fs_write_ok filename data size s w r s' w' :
  session_ok s →
  fs_write filename data size s w = Done (r, s', w') →
  session_ok s'.
Proof.
  intros Hok Hrun. destruct (decide (r = 0)) as [->|Hr].
  - apply fs_write_effect in Hrun as (? & ? & ? & ? & ? & H); [|done].
    by decompose [and] H.
  - by apply fs_write_failed in Hrun as [-> _].
Qed.

(** A write that has the room it asks for goes through. *)
Lemma fs_write_succeeds fname bytes size s w :
  session_ok s → disk_fd s ≠ -1 → valid_name fname →
  find_inode (inode_table s) fname ≠ -1 →
  0 < size <= MAX_DIRECT_BLOCKS * BLOCK_SIZE →
  blocks_for size <= free_blocks (sb s) →
  ∃ s' w', fs_write (Some fname) (Some bytes) size s w = Done (0, s', w').
Proof.
  intros Hok Hfd Hname Hfound Hsize Hfree.
  destruct (find_inode_found _ _ Hfound) as (k & ino & Hidx & Hk & Hu & _).
  destruct geometry_bounds
    as (H1 & H2 & H3 & H4 & H5 & H6 & H7 & H8 & H9 & H10 & H11 & H12 & H13).
  pose proof (gok_direct_files G HG) as Hdf.
  assert (MAX_DIRECT_BLOCKS * BLOCK_SIZE <= MAX_FILES * BLOCK_SIZE)
    by (apply Z.mul_le_mono_nonneg_r; lia).
  rewrite (fs_write_run fname bytes size s w k ino) by (done || lia).
  destruct (session_ok_release_succeeds s k ino Hok Hk Hu)
    as [[[blks1 bm1] fb1] Hrel].
  rewrite Hrel. simpl.
  destruct (session_ok_release s k ino _ _ _ Hok Hk Hu Hrel)
    as (-> & Hlen1 & Hbits1 & Hsum1 & Hfb1 & Hfbge).
  assert (0 < size) as Hpos by lia.
  pose proof (blocks_for_pos size Hpos) as Hnpos.
  assert (blocks_for size <= MAX_DIRECT_BLOCKS)
    by (apply blocks_for_le; lia).
  destruct (alloc_blocks_succeeds (Z.to_nat (blocks_for size)) 0
              (blocks_for size) size bytes (disk_fd s) bm1 fb1
              (replicate (Z.to_nat MAX_DIRECT_BLOCKS) 0) w)
    as [[[[bm2 fb2] blks2] w2] Halloc]; [done|lia|lia| |].
  { rewrite (Permutation_length Hbits1). lia. }
  rewrite Halloc. simpl. eauto.
Qed.

(** *** Bytes in the image file *)

Lemma pwrite_file_in off bytes f o :
  off <= o < off + Z.of_nat (length bytes) →
  f_data (pwrite_file off bytes f) o
  = default Byte.x00 (bytes !! Z.to_nat (o - off)).
Proof.
  intros Ho. simpl.
  destruct (Z.leb_spec off o); [|lia].
  destruct (Z.ltb_spec o (off + Z.of_nat (length bytes))); [|lia]. done.
Qed.

Lemma pwrite_file_out off bytes f o :
  ¬ (off <= o < off + Z.of_nat (length bytes)) → o < f_len f →
  f_data (pwrite_file off bytes f) o = f_data f o.
Proof.
  intros Ho Hlen. simpl.
  destruct (Z.leb_spec off o); destruct (Z.ltb_spec o (off + Z.of_nat (length bytes)));
    simpl; try lia; destruct (Z.leb_spec (f_len f) o); try lia; done.
Qed.

Lemma chunk_length needed size i (data : list Byte.byte) :
  (needed - 1) * BLOCK_SIZE < size <= needed * BLOCK_SIZE →
  0 <= i < needed →
  Z.of_nat (length (take (Z.to_nat (chunk_size needed size i))
                         (drop (Z.to_nat (i * BLOCK_SIZE)) data)))
  <= chunk_size needed size i.
Proof.
  intros Hs Hi. pose proof (chunk_size_bounds needed size i Hs Hi).
  rewrite length_take. lia.
Qed.

Lemma chunk_end needed size i :
  (needed - 1) * BLOCK_SIZE < size <= needed * BLOCK_SIZE →
  0 <= i < needed →
  i * BLOCK_SIZE + chunk_size needed size i <= size.
Proof.
  intros Hs Hi. unfold chunk_size. pose proof (gok_block_size G HG).
  destruct (Z.eqb_spec i (needed - 1)) as [->|]; [lia|].
  assert (i + 1 <= needed - 1) by lia.
  assert ((i + 1) * BLOCK_SIZE <= (needed - 1) * BLOCK_SIZE)
    by (apply Z.mul_le_mono_nonneg_r; lia).
  lia.
Qed.

Lemma store_chunk_len needed size i data b f :
  f_len f <= f_len (store_chunk i needed size data b f).
Proof.
  unfold store_chunk. destruct (_ <? _); simpl; lia.
Qed.

Lemma store_chunk_frame needed size i data b f o :
  (needed - 1) * BLOCK_SIZE < size <= needed * BLOCK_SIZE →
  0 <= i < needed →
  ¬ (b * BLOCK_SIZE <= o < (b + 1) * BLOCK_SIZE) → o < f_len f →
  f_data (store_chunk i needed size data b f) o = f_data f o.
Proof.
  intros Hs Hi Ho Hlen.
  pose proof (chunk_size_bounds needed size i Hs Hi) as Hcs.
  pose proof (chunk_length needed size i data Hs Hi) as Hcl.
  unfold store_chunk.
  set (tw := chunk_size needed size i) in *.
  set (chunk := take (Z.to_nat tw) (drop (Z.to_nat (i * BLOCK_SIZE)) data)) in *.
  assert (f_data (pwrite_file (b * BLOCK_SIZE) chunk f) o = f_data f o) as H1.
  { apply pwrite_file_out; [lia|done]. }
  destruct (Z.ltb_spec tw BLOCK_SIZE); [|done].
  rewrite pwrite_file_out; [done| |simpl; lia].
  rewrite length_replicate. lia.
Qed.

Lemma store_chunk_data needed size i data b f k :
  (needed - 1) * BLOCK_SIZE < size <= needed * BLOCK_SIZE →
  0 <= i < needed → size <= Z.of_nat (length data) →
  0 <= k < chunk_size needed size i →
  data !! Z.to_nat (i * BLOCK_SIZE + k)
  = Some (f_data (store_chunk i needed size data b f) (b * BLOCK_SIZE + k)).
Proof.
  intros Hs Hi Hdata Hk.
  pose proof (chunk_size_bounds needed size i Hs Hi) as Hcs.
  pose proof (chunk_end needed size i Hs Hi) as Hce.
  assert (0 <= i * BLOCK_SIZE) by (apply Z.mul_nonneg_nonneg; lia).
  unfold store_chunk.
  set (tw := chunk_size needed size i) in *.
  set (chunk := take (Z.to_nat tw) (drop (Z.to_nat (i * BLOCK_SIZE)) data)) in *.
  assert (length chunk = Z.to_nat tw) as Hlen.
  { unfold chunk. rewrite length_take, length_drop. lia. }
  assert (f_data (pwrite_file (b * BLOCK_SIZE) chunk f) (b * BLOCK_SIZE + k)
          = default Byte.x00 (chunk !! Z.to_nat k)) as H1.
  { rewrite pwrite_file_in by lia. do 2 f_equal. lia. }
  assert (chunk !! Z.to_nat k = data !! Z.to_nat (i * BLOCK_SIZE + k)) as H2.
  { unfold chunk. rewrite lookup_take_lt by lia. rewrite lookup_drop.
    f_equal. lia. }
  assert (is_Some (data !! Z.to_nat (i * BLOCK_SIZE + k))) as [x Hx].
  { apply lookup_lt_is_Some. lia. }
  rewrite H2, Hx in H1. simpl in H1. rewrite Hx. f_equal.
  destruct (Z.ltb_spec tw BLOCK_SIZE); [|done].
  rewrite pwrite_file_out; [done| |simpl; lia].
  rewrite length_replicate. lia.
Qed.

Lemma store_chunk_end needed size i data b f :
  (needed - 1) * BLOCK_SIZE < size <= needed * BLOCK_SIZE →
  0 <= i < needed → size <= Z.of_nat (length data) →
  (b + 1) * BLOCK_SIZE <= f_len (store_chunk i needed size data b f).
Proof.
  intros Hs Hi Hdata.
  pose proof (chunk_size_bounds needed size i Hs Hi) as Hcs.
  pose proof (chunk_end needed size i Hs Hi) as Hce.
  assert (0 <= i * BLOCK_SIZE) by (apply Z.mul_nonneg_nonneg; lia).
  unfold store_chunk.
  set (tw := chunk_size needed size i) in *.
  destruct (Z.ltb_spec tw BLOCK_SIZE); simpl.
  - rewrite length_replicate. lia.
  - rewrite length_take, length_drop. lia.
Qed.

Lemma block_ranges_disjoint b b' k :
  b ≠ b' → 0 <= k < BLOCK_SIZE →
  ¬ (b' * BLOCK_SIZE <= b * BLOCK_SIZE + k < (b' + 1) * BLOCK_SIZE).
Proof.
  intros Hne Hk. pose proof (gok_block_size G HG).
  destruct (Z.lt_trichotomy b b') as [Hlt | [-> | Hgt]]; [|done|].
  - assert ((b + 1) * BLOCK_SIZE <= b' * BLOCK_SIZE)
      by (apply Z.mul_le_mono_nonneg_r; lia). lia.
  - assert ((b' + 1) * BLOCK_SIZE <= b * BLOCK_SIZE)
      by (apply Z.mul_le_mono_nonneg_r; lia). lia.
Qed.

Lemma store_blocks_frame needed size data newb : ∀ i f o,
  (needed - 1) * BLOCK_SIZE < size <= needed * BLOCK_SIZE →
  0 <= i → i + Z.of_nat (length newb) <= needed →
  (∀ b, b ∈ newb → ¬ (b * BLOCK_SIZE <= o < (b + 1) * BLOCK_SIZE)) →
  o < f_len f →
  f_len f <= f_len (store_blocks i needed size data newb f) ∧
  f_data (store_blocks i needed size data newb f) o = f_data f o.
Proof.
  induction newb as [|b newb IH]; intros i f o Hs Hi Hn Hout Hlen; simpl.
  - split; [lia|done].
  - simpl in Hn.
    pose proof (store_chunk_len needed size i data b f) as Hl1.
    destruct (IH (i + 1) (store_chunk i needed size data b f) o)
      as [Hl2 Hd2]; [done|lia|lia| |lia|].
    { intros x Hx. apply Hout. by right. }
    split; [lia|]. rewrite Hd2. apply store_chunk_frame; [done|lia| |done].
    apply Hout. left.
Qed.

Lemma store_blocks_len needed size data newb : ∀ i f,
  f_len f <= f_len (store_blocks i needed size data newb f).
Proof.
  induction newb as [|b newb IH]; intros i f; simpl; [lia|].
  pose proof (store_chunk_len needed size i data b f).
  pose proof (IH (i + 1) (store_chunk i needed size data b f)). lia.
Qed.

Lemma store_blocks_holds needed size data newb : ∀ i f j b k,
  (needed - 1) * BLOCK_SIZE < size <= needed * BLOCK_SIZE →
  0 <= i → i + Z.of_nat (length newb) <= needed →
  size <= Z.of_nat (length data) →
  NoDup newb →
  newb !! j = Some b →
  (b + 1) * BLOCK_SIZE <= f_len (store_blocks i needed size data newb f) ∧
  (0 <= k < BLOCK_SIZE → (i + Z.of_nat j) * BLOCK_SIZE + k < size →
   data !! Z.to_nat ((i + Z.of_nat j) * BLOCK_SIZE + k)
   = Some (f_data (store_blocks i needed size data newb f)
             (b * BLOCK_SIZE + k))).
Proof.
  induction newb as [|b0 newb IH]; intros i f j b k Hs Hi Hn Hdata Hnd Hj;
    [done|].
  simpl in Hn. apply NoDup_cons in Hnd as [Hfresh Hnd]. simpl.
  destruct j as [|j]; simpl in Hj.
  - injection Hj as ->.
    pose proof (store_chunk_end needed size i data b f Hs ltac:(lia) Hdata)
      as Hend.
    pose proof (store_blocks_len needed size data newb (i + 1)
                  (store_chunk i needed size data b f)) as Hmono.
    split; [lia|]. intros Hk Hlt.
    destruct (store_blocks_frame needed size data newb (i + 1)
                (store_chunk i needed size data b f) (b * BLOCK_SIZE + k))
      as [_ ->]; [done|lia|lia| |lia|].
    { intros x Hx. apply block_ranges_disjoint; [|done]. by intros ->. }
    replace (i + Z.of_nat 0) with i in * by lia.
    apply store_chunk_data; [done|lia|done|].
    unfold chunk_size. destruct (Z.eqb_spec i (needed - 1)); lia.
  - replace (i + Z.of_nat (S j)) with (i + 1 + Z.of_nat j) by lia.
    apply IH; [done|lia|lia|done|done|done].
Qed.

(** *** Reading back *)

Lemma take_extend (data : list Byte.byte) (m n : nat) (g : Z → Byte.byte) :
  (∀ k, (k < n)%nat → data !! (m + k)%nat = Some (g (Z.of_nat k))) →
  take m data ++ (g <$> seqZ 0 (Z.of_nat n)) = take (m + n) data.
Proof.
  intros Hg. apply list_eq. intros i.
  destruct (decide (n = 0)%nat) as [->|Hn0].
  { simpl. rewrite app_nil_r. f_equal. f_equal. lia. }
  assert (m + n ≤ length data)%nat as Hlen.
  { assert (is_Some (data !! (m + (n - 1))%nat)) as Hs
      by (rewrite Hg by lia; eauto).
    apply lookup_lt_is_Some in Hs. lia. }
  assert (length (take m data) = m) as Hlm by (rewrite length_take; lia).
  destruct (decide (i < m)%nat) as [Him|Him].
  - rewrite lookup_app_l by lia. rewrite !lookup_take_lt by lia. done.
  - rewrite lookup_app_r by lia. rewrite Hlm, list_lookup_fmap.
    destruct (decide (i < m + n)%nat) as [Hin|Hin].
    + rewrite lookup_seqZ_lt by lia. simpl.
      rewrite lookup_take_lt by lia.
      replace i with (m + (i - m))%nat at 2 by lia.
      rewrite Hg by lia. by rewrite Z.add_0_l.
    + rewrite lookup_seqZ_ge by lia. simpl.
      by rewrite lookup_take_ge by lia.
Qed.

Lemma sys_pread_full fd w f off count :
  fd_file fd w = Some f → 0 <= count → off + count <= f_len f →
  sys_pread fd off count w
  = (count, (λ k, f_data f (off + k)) <$> seqZ 0 count).
Proof.
  intros Hf Hc Hlen. unfold sys_pread. rewrite Hf.
  replace (Z.max 0 (Z.min count (f_len f - off))) with count by lia. done.
Qed.

Lemma read_blocks_holds f blks data size needed fd w zs :
  fd_file fd w = Some f →
  file_holds f blks data size →
  (needed - 1) * BLOCK_SIZE < size <= needed * BLOCK_SIZE →
  0 < size < 2147483648 →
  length blks = Z.to_nat needed →
  ∀ rest j,
    drop j blks = rest →
    read_blocks (rest ++ zs) (Z.min (Z.of_nat j * BLOCK_SIZE) size) size
      (take (Z.to_nat (Z.min (Z.of_nat j * BLOCK_SIZE) size)) data) fd w
    = Done (size, take (Z.to_nat size) data).
Proof.
  intros Hf Hholds Hs Hsz Hlen rest.
  pose proof (gok_block_size G HG) as Hbs.
  induction rest as [|b rest IH]; intros j Hdrop.
  - assert (length blks ≤ j)%nat as Hj.
    { destruct (decide (length blks ≤ j)%nat); [done|].
      assert (length (drop j blks) = 0%nat) as Hl by (by rewrite Hdrop).
      rewrite length_drop in Hl. lia. }
    assert (needed * BLOCK_SIZE <= Z.of_nat j * BLOCK_SIZE)
      by (apply Z.mul_le_mono_nonneg_r; lia).
    replace (Z.min (Z.of_nat j * BLOCK_SIZE) size) with size by lia.
    simpl. destruct zs as [|z zs]; simpl; [done|].
    by rewrite Z.ltb_irrefl.
  - assert (blks !! j = Some b) as Hb.
    { rewrite <- (Nat.add_0_r j), <- lookup_drop, Hdrop. done. }
    assert (drop (S j) blks = rest) as Hdrop'.
    { replace (S j) with (j + 1)%nat by lia.
      rewrite <- (drop_drop blks 1 j), Hdrop. done. }
    destruct (Hholds j b Hb) as (Hrange & Hend & Hdata).
    assert (j < Z.to_nat needed)%nat as Hj
      by (rewrite <- Hlen; by eapply lookup_lt_Some).
    assert (Z.of_nat j * BLOCK_SIZE <= (needed - 1) * BLOCK_SIZE)
      by (apply Z.mul_le_mono_nonneg_r; lia).
    assert (0 <= Z.of_nat j * BLOCK_SIZE) by (apply Z.mul_nonneg_nonneg; lia).
    replace (Z.min (Z.of_nat j * BLOCK_SIZE) size)
      with (Z.of_nat j * BLOCK_SIZE) by lia.
    set (br := Z.of_nat j * BLOCK_SIZE) in *.
    simpl.
    destruct (Z.ltb_spec br size) as [_|]; [|lia].
    destruct (Z.eqb_spec b 0) as [|_]; [lia|].
    rewrite (data_offset_ok b Hrange). simpl.
    rewrite (wrap_id (size - br)) by lia.
    set (chunk := if size - br <? BLOCK_SIZE then size - br else BLOCK_SIZE).
    assert (chunk = Z.min (size - br) BLOCK_SIZE) as Hchunk.
    { unfold chunk. destruct (Z.ltb_spec (size - br) BLOCK_SIZE); lia. }
    rewrite (sys_pread_full fd w f (b * BLOCK_SIZE) chunk Hf) by lia.
    destruct (Z.ltb_spec chunk 0) as [|_]; [lia|].
    rewrite (wrap_id (br + chunk)) by lia.
    specialize (IH (S j) Hdrop').
    replace (Z.min (Z.of_nat (S j) * BLOCK_SIZE) size) with (br + chunk) in IH
      by (unfold br; lia).
    rewrite <- IH. f_equal.
    replace chunk with (Z.of_nat (Z.to_nat chunk)) at 1 by lia.
    rewrite take_extend.
    + f_equal. lia.
    + intros k Hk.
      replace (Z.to_nat br + k)%nat with (Z.to_nat (br + Z.of_nat k)) by lia.
      apply Hdata; lia.
Qed.

(** *** Descriptors *)

Lemma lowest_unused_from_ge n fd tab : fd <= lowest_unused_from n fd tab.
Proof.
  revert fd. induction n as [|n IH]; intros fd; simpl; [lia|].
  destruct (tab !! fd); [|lia]. specialize (IH (fd + 1)). lia.
Qed.

Lemma lowest_unused_nonneg tab : 0 <= lowest_unused tab.
Proof. apply lowest_unused_from_ge. Qed.

Lemma lowest_unused_from_fresh n : ∀ fd (tab : gmap Z string) (X : gset Z),
  (∀ k, fd <= k → is_Some (tab !! k) → k ∈ X) →
  (size X ≤ n)%nat →
  tab !! lowest_unused_from n fd tab = None.
Proof.
  induction n as [|n IH]; intros fd tab X Hcover Hsize; simpl.
  - destruct (tab !! fd) eqn:Hfd; [|done].
    assert (fd ∈ X) as Hin by (apply Hcover; [lia | by rewrite Hfd]).
    assert (size X = 0%nat) as Hz by lia.
    apply size_empty_inv in Hz. apply leibniz_equiv in Hz. subst X.
    by apply not_elem_of_empty in Hin.
  - destruct (tab !! fd) eqn:Hfd; [|done].
    assert (fd ∈ X) as Hin by (apply Hcover; [lia | by rewrite Hfd]).
    apply (IH (fd + 1) tab (X ∖ {[fd]})).
    + intros k Hk Hsome. apply elem_of_difference. split.
      * apply Hcover; [lia|done].
      * rewrite elem_of_singleton. lia.
    + pose proof (size_difference X {[fd]}) as Hd.
      rewrite size_singleton in Hd.
      assert ({[fd]} ⊆ X) as Hsub by (by apply singleton_subseteq_l).
      specialize (Hd Hsub). lia.
Qed.

Lemma lowest_unused_fresh (tab : gmap Z string) : tab !! lowest_unused tab = None.
Proof.
  apply (lowest_unused_from_fresh _ _ _ (dom tab)).
  - intros k _ Hk. by apply elem_of_dom.
  - by rewrite size_dom.
Qed.

Lemma with_file_open fd path f g w :
  fds w !! fd = Some path → files w !! path = Some f →
  with_file fd g w
  = {| files := <[path := g f]> (files w); fds := fds w;
       creatable := creatable w |}.
Proof. intros Hfd Hf. unfold with_file. by rewrite Hfd, Hf. Qed.

Lemma fd_file_open fd path f w :
  fds w !! fd = Some path → files w !! path = Some f →
  fd_file fd w = Some f.
Proof. intros Hfd Hf. unfold fd_file. rewrite Hfd. done. Qed.

(** *** fs_format *)

Lemma bit_is_set_zeros n j : bit_is_set (replicate n 0) j = false.
Proof.
  unfold bit_is_set.
  destruct (replicate n 0 !! Z.to_nat (Z.quot j 8)) as [v|] eqn:Hv.
  - apply lookup_replicate in Hv as [-> _]. done.
  - done.
Qed.

Lemma mark_reserved_Done n : ∀ i bm bm',
  mark_reserved n i bm = Done bm' → 0 <= i →
  length bm' = length bm ∧
  ∀ j, 0 <= j →
    bit_is_set bm' j
    = bit_is_set bm j || bool_decide (i <= j < i + Z.of_nat n).
Proof.
  induction n as [|n IH]; intros i bm bm' Hrun Hi; simpl in Hrun.
  - injection Hrun as <-. split; [done|]. intros j Hj.
    rewrite bool_decide_eq_false_2 by lia. by rewrite orb_false_r.
  - destruct (mark_block_used i bm) as [bm1|] eqn:Hm; [|done]. simpl in Hrun.
    apply mark_block_used_Done in Hm as (_ & _ & Hlen1 & Hbits1).
    apply IH in Hrun as [Hlen Hbits]; [|lia].
    split; [congruence|]. intros j Hj. rewrite Hbits, Hbits1 by done.
    destruct (decide (j = i)) as [->|Hne].
    + rewrite (bool_decide_eq_true_2 (i = i)) by done.
      rewrite (bool_decide_eq_true_2 (i <= i < i + Z.of_nat (S n))) by lia.
      by rewrite orb_true_r.
    + rewrite (bool_decide_eq_false_2 (j = i)) by done. f_equal.
      apply bool_decide_ext. lia.
Qed.

Lemma mark_reserved_succeeds n : ∀ i bm,
  0 <= i → i + Z.of_nat n <= 8 * BLOCK_SIZE →
  length bm = Z.to_nat BLOCK_SIZE →
  ∃ bm', mark_reserved n i bm = Done bm'.
Proof.
  induction n as [|n IH]; intros i bm Hi Hn Hlen; simpl; [eauto|].
  pose proof (gok_block_size G HG).
  assert (i / 8 < BLOCK_SIZE) by (apply Z.div_lt_upper_bound; lia).
  destruct (update_bitmap_byte_succeeds i (λ v m, Z.lor v m) bm)
    as [bm1 Hm]; [lia | done | |].
  { rewrite Hlen. apply Z2Nat.inj_lt; [apply Z.div_pos; lia | lia | done]. }
  fold (mark_block_used i bm) in Hm. rewrite Hm. simpl.
  apply IH; [lia|lia|].
  apply mark_block_used_Done in Hm as (_ & _ & -> & _). done.
Qed.


Lemma fs_format_Done0 path s0 w0 s1 w1 :
  fs_format path s0 w0 = Done (0, s1, w1) →
  ∃ bm f,
    mark_reserved 10 0 (replicate (Z.to_nat BLOCK_SIZE) 0) = Done bm ∧
    s1 = {| sb := fresh_sb; inode_table := fresh_table; block_bitmap := bm;
            disk_fd := disk_fd s0 |} ∧
    files w1 !! path = Some f ∧
    f_sb f = Full fresh_sb ∧ f_bitmap f = Full bm ∧
    f_inodes f = Full fresh_table.
Proof.
  unfold fs_format, sys_open_trunc. intros Hrun.
  destruct (creatable w0 path); [|done].
  set (fd := lowest_unused (fds w0)) in *.
  destruct (Z.ltb_spec fd 0) as [|_]; [done|].
  destruct (mark_reserved 10 0 _) as [bm|] eqn:Hbm; [|done].
  simpl in Hrun. injection Hrun as <- <-.
  unfold sys_write_sb, sys_write_bitmap, sys_write_inodes, sys_pwrite_zeros.
  rewrite !with_file_compose.
  erewrite with_file_open;
    [| simpl; apply lookup_insert_eq | simpl; apply lookup_insert_eq].
  simpl. eexists bm, _. split_and!; [done|done| |..].
  - apply lookup_insert_eq.
  - done.
  - done.
  - done.
Qed.

Lemma fs_format_succeeds path s0 w0 :
  creatable w0 path = true →
  ∃ s1 w1, fs_format path s0 w0 = Done (0, s1, w1).
Proof.
  intros Hc. unfold fs_format, sys_open_trunc. rewrite Hc.
  pose proof (lowest_unused_nonneg (fds w0)).
  destruct (Z.ltb_spec (lowest_unused (fds w0)) 0) as [|_]; [lia|].
  destruct (mark_reserved_succeeds 10 0 (replicate (Z.to_nat BLOCK_SIZE) 0))
    as [bm ->]; [lia| |by rewrite length_replicate|].
  { pose proof (gok_block_size G HG). lia. }
  simpl. eauto.
Qed.

(** *** fs_mount *)

Lemma fs_mount_mounted path s w :
  fs_mount path s w
  = if negb (disk_fd s =? -1) then (-1, s, w)
    else
      match files w !! path with
      | None => (-1, set_disk_fd (-1) s, w)
      | Some f =>
          let fd := lowest_unused (fds w) in
          let w1 := {| files := files w; fds := <[fd := path]> (fds w);
                       creatable := creatable w |} in
          match f_sb f with
          | Short p =>
              mount_fail {| sb := p (sb s); inode_table := inode_table s;
                            block_bitmap := block_bitmap s; disk_fd := fd |} w1
          | Full sb' =>
              if negb (total_blocks sb' =? MAX_BLOCKS)
                 || negb (block_size sb' =? BLOCK_SIZE)
                 || negb (total_inodes sb' =? MAX_FILES)
              then mount_fail {| sb := sb'; inode_table := inode_table s;
                                 block_bitmap := block_bitmap s;
                                 disk_fd := fd |} w1
              else
                match f_bitmap f with
                | Short p =>
                    mount_fail {| sb := sb'; inode_table := inode_table s;
                                  block_bitmap := p (block_bitmap s);
                                  disk_fd := fd |} w1
                | Full bm =>
                    match f_inodes f with
                    | Short p =>
                        mount_fail {| sb := sb';
                                      inode_table := p (inode_table s);
                                      block_bitmap := bm; disk_fd := fd |} w1
                    | Full tbl =>
                        (0, {| sb := sb'; inode_table := tbl;
                               block_bitmap := bm; disk_fd := fd |}, w1)
                    end
                end
          end
      end.
Proof.
  unfold fs_mount, sys_open.
  destruct (negb (disk_fd s =? -1)); [done|].
  destruct (files w !! path) as [f|] eqn:Hf; simpl; [|done].
  pose proof (lowest_unused_nonneg (fds w)).
  destruct (Z.ltb_spec (lowest_unused (fds w)) 0) as [|_]; [lia|].
  unfold fd_file. simpl. rewrite lookup_insert_eq. simpl. rewrite Hf. simpl.
  destruct (f_sb f) as [sb'|p]; [|done].
  destruct (negb (total_blocks sb' =? MAX_BLOCKS)
            || negb (block_size sb' =? BLOCK_SIZE)
            || negb (total_inodes sb' =? MAX_FILES)); [done|].
  destruct (f_bitmap f) as [bm|p]; [|done].
  by destruct (f_inodes f) as [tbl|p].
Qed.

Lemma mount_fail_closed s w :
  ∃ s' w', mount_fail s w = (-1, s', w') ∧ disk_fd s' = -1 ∧
           w' = sys_close (disk_fd s) w.
Proof. unfold mount_fail. eauto. Qed.

Lemma close_after_open (w : world) path :
  sys_close (lowest_unused (fds w))
    {| files := files w; fds := <[lowest_unused (fds w) := path]> (fds w);
       creatable := creatable w |} = w.
Proof.
  unfold sys_close. simpl. rewrite delete_insert_eq.
  rewrite delete_id by apply lowest_unused_fresh. by destruct w.
Qed.

Lemma fs_mount_Done0 path s w s' w' :
  fs_mount path s w = (0, s', w') →
  disk_fd s = -1 ∧
  ∃ f sb' bm tbl,
    files w !! path = Some f ∧
    f_sb f = Full sb' ∧ f_bitmap f = Full bm ∧ f_inodes f = Full tbl ∧
    total_blocks sb' = MAX_BLOCKS ∧ block_size sb' = BLOCK_SIZE ∧
    total_inodes sb' = MAX_FILES ∧
    s' = {| sb := sb'; inode_table := tbl; block_bitmap := bm;
            disk_fd := lowest_unused (fds w) |} ∧
    w' = {| files := files w;
            fds := <[lowest_unused (fds w) := path]> (fds w);
            creatable := creatable w |}.
Proof.
  rewrite fs_mount_mounted.
  destruct (Z.eqb_spec (disk_fd s) (-1)) as [Hfd|]; simpl; [|done].
  destruct (files w !! path) as [f|]; [|done]. simpl.
  destruct (f_sb f) as [sb'|p] eqn:Hsb; [|done].
  destruct (Z.eqb_spec (total_blocks sb') MAX_BLOCKS); simpl; [|done].
  destruct (Z.eqb_spec (block_size sb') BLOCK_SIZE); simpl; [|done].
  destruct (Z.eqb_spec (total_inodes sb') MAX_FILES); simpl; [|done].
  destruct (f_bitmap f) as [bm|p] eqn:Hbm; [|done].
  destruct (f_inodes f) as [tbl|p] eqn:Htbl; [|done].
  intros [= <- <-]. split; [done|].
  exists f, sb', bm, tbl. split_and!; done.
Qed.

(** *** The freshly formatted session *)

Lemma filter_none {A} (P : A → Prop) `{∀ x, Decision (P x)} (l : list A) :
  (∀ x, x ∈ l → ¬ P x) → filter P l = [].
Proof.
  induction l as [|a l IH]; intros Hall; [done|].
  rewrite filter_cons_False by (apply Hall; left).
  apply IH. intros x Hx. apply Hall. by right.
Qed.

Lemma all_ptrs_fresh n : all_ptrs (replicate n fresh_inode) = [].
Proof.
  unfold all_ptrs. induction n as [|n IH]; [done|].
  change (replicate (S n) fresh_inode) with (fresh_inode :: replicate n fresh_inode).
  by rewrite bind_cons, IH.
Qed.

Lemma used_count_fresh n : used_count (replicate n fresh_inode) = 0.
Proof.
  unfold used_count. rewrite filter_none; [done|].
  intros x Hx. apply elem_of_replicate in Hx as [-> _]. simpl. tauto.
Qed.

Lemma fresh_session_ok bm fd :
  mark_reserved 10 0 (replicate (Z.to_nat BLOCK_SIZE) 0) = Done bm →
  session_ok {| sb := fresh_sb; inode_table := fresh_table;
                block_bitmap := bm; disk_fd := fd |}.
Proof.
  intros Hbm.
  apply mark_reserved_Done in Hbm as [Hlen Hbits]; [|lia].
  destruct geometry_bounds
    as (H1 & H2 & H3 & H4 & H5 & H6 & H7 & H8 & H9 & H10 & H11 & H12 & H13).
  assert (used_bits bm = []) as Hub.
  { unfold used_bits. apply filter_none. intros x Hx.
    apply elem_of_seqZ in Hx. rewrite Hbits by lia.
    rewrite bit_is_set_zeros, bool_decide_eq_false_2 by lia. simpl. tauto. }
  constructor; simpl.
  - unfold fresh_table. by rewrite length_replicate.
  - apply Forall_replicate. simpl. by rewrite length_replicate.
  - by rewrite Hlen, length_replicate.
  - done.
  - done.
  - done.
  - unfold fresh_table. by rewrite Hub, all_ptrs_fresh.
  - unfold fresh_table. rewrite all_ptrs_fresh. simpl.
    rewrite wrap_id; lia.
  - unfold fresh_table. rewrite used_count_fresh. lia.
Qed.

(** *** Reachable sessions are consistent *)

Lemma fs_create_fd filename s : disk_fd (fs_create filename s).2 = disk_fd s.
Proof.
  unfold fs_create.
  repeat (match goal with |- context [if ?c then _ else _] => destruct c end
          || destruct filename); done.
Qed.

Lemma fs_delete_fd filename s r s' :
  fs_delete filename s = Done (r, s') → disk_fd s' = disk_fd s.
Proof.
  unfold fs_delete. intros Hrun.
  destruct (disk_fd s =? -1); [by injection Hrun as <- <-|].
  destruct filename as [fname|]; [|by injection Hrun as <- <-].
  destruct (MAX_FILENAME <=? _); [by injection Hrun as <- <-|].
  destruct (_ =? -1); [by injection Hrun as <- <-|].
  destruct (inode_table s !! _); [|done].
  destruct (release_blocks _ _ _) as [[[blks bm] fb]|]; [|done].
  simpl in Hrun. by injection Hrun as <- <-.
Qed.

Lemma reachable_inv s w :
  reachable s w →
  session_ok s ∧ disk_fd s ≠ -1 ∧ is_Some (fd_file (disk_fd s) w).
Proof.
  induction 1 as [path s0 w0 s1 w1 s w Hfmt Hmnt
                 | o s w s' w' Hreach (Hok & Hfd & Hfile) Hrun].
  - apply fs_format_Done0 in Hfmt
      as (bm0 & f0 & Hbm0 & -> & Hf0 & Hsb0 & Hbits0 & Htbl0).
    apply fs_mount_Done0 in Hmnt
      as (_ & f & sb' & bm & tbl & Hf & Hsb & Hbits & Htbl & _ & _ & _ & -> & ->).
    rewrite Hf0 in Hf. injection Hf as <-.
    rewrite Hsb0 in Hsb. injection Hsb as <-.
    rewrite Hbits0 in Hbits. injection Hbits as <-.
    rewrite Htbl0 in Htbl. injection Htbl as <-.
    simpl. split_and!.
    + by apply fresh_session_ok.
    + pose proof (lowest_unused_nonneg (fds w1)). lia.
    + exists f0. eapply fd_file_open; [apply lookup_insert_eq | done].
  - destruct o as [n | n | n d sz | n d sz | b m]; simpl in Hrun.
    + injection Hrun as <- <-. split_and!.
      * by apply fs_create_ok.
      * by rewrite fs_create_fd.
      * by rewrite fs_create_fd.
    + destruct (fs_delete n s) as [[r s1]|] eqn:Hdel; [|done].
      simpl in Hrun. injection Hrun as <- <-.
      pose proof (fs_delete_fd _ _ _ _ Hdel) as Heq. split_and!.
      * by eapply fs_delete_ok.
      * by rewrite Heq.
      * by rewrite Heq.
    + destruct (fs_write n d sz s w) as [[[r s1] w1]|] eqn:Hwr; [|done].
      simpl in Hrun. injection Hrun as <- <-.
      destruct (decide (r = 0)) as [->|Hr].
      * apply fs_write_effect in Hwr
          as (? & ? & ? & ? & ? & _ & _ & _ & _ & _ & _ & _ & _ & _ & _ & _ & _
              & _ & Heq & -> & Hok'); [|done].
        split_and!; [done | by rewrite Heq |].
        rewrite Heq, fd_file_with_file. by apply fmap_is_Some.
      * by apply fs_write_failed in Hwr as [-> ->].
    + destruct (fs_read n d sz s w); [|done].
      simpl in Hrun. by injection Hrun as <- <-.
    + destruct (fs_list b m s); [|done].
      simpl in Hrun. by injection Hrun as <- <-.
Qed.



(** *** Mounting and unmounting, forwards *)

Lemma fs_mount_succeeds path s w f sb' bm tbl :
  disk_fd s = -1 → files w !! path = Some f →
  f_sb f = Full sb' → f_bitmap f = Full bm → f_inodes f = Full tbl →
  total_blocks sb' = MAX_BLOCKS → block_size sb' = BLOCK_SIZE →
  total_inodes sb' = MAX_FILES →
  fs_mount path s w
  = (0, {| sb := sb'; inode_table := tbl; block_bitmap := bm;
           disk_fd := lowest_unused (fds w) |},
        {| files := files w; fds := <[lowest_unused (fds w) := path]> (fds w);
           creatable := creatable w |}).
Proof.
  intros Hfd Hf Hsb Hbm Htbl Htb Hbs Hti.
  rewrite fs_mount_mounted, Hfd, Hf. simpl.
  rewrite Hsb, Htb, Hbs, Hti, !Z.eqb_refl. simpl.
  by rewrite Hbm, Htbl.
Qed.

Lemma fs_unmount_mounted s w path f :
  disk_fd s ≠ -1 → fds w !! disk_fd s = Some path →
  files w !! path = Some f →
  fs_unmount s w
  = (set_disk_fd (-1) s,
     {| files := <[path := {| f_sb := Full (sb s);
                              f_bitmap := Full (block_bitmap s);
                              f_inodes := Full (inode_table s);
                              f_data := f_data f; f_len := f_len f |}]>
                   (files w);
        fds := delete (disk_fd s) (fds w);
        creatable := creatable w |}).
Proof.
  intros Hfd Hpath Hf. unfold fs_unmount.
  destruct (Z.eqb_spec (disk_fd s) (-1)) as [|_]; [done|].
  unfold sys_write_sb, sys_write_bitmap, sys_write_inodes.
  rewrite !with_file_compose.
  rewrite (with_file_open _ path f) by done.
  done.
Qed.

(** *** Creating a file *)

Lemma find_inode_insert_same tbl k ino x fname :
  tbl !! k = Some ino → i_used x = i_used ino → i_name x = i_name ino →
  find_inode (<[k := x]> tbl) fname = find_inode tbl fname.
Proof.
  intros Hk Hu Hn. unfold find_inode. apply find_inode_from_same.
  apply Forall2_same_length_lookup_2; [by rewrite length_insert|].
  intros i a b Ha Hb.
  destruct (decide (i = k)) as [->|Hne].
  - rewrite list_lookup_insert_eq in Ha by (by eapply lookup_lt_Some).
    injection Ha as <-. rewrite Hk in Hb. by injection Hb as <-.
  - rewrite list_lookup_insert_ne in Ha by done.
    rewrite Ha in Hb. by injection Hb as <-.
Qed.

Lemma strncpy_term_valid fname : valid_name fname → strncpy_term fname = fname.
Proof.
  unfold valid_name, strncpy_term. intros Hv. apply str_take_all. lia.
Qed.

Lemma name_in_use_found tbl fname :
  valid_name fname → name_in_use tbl fname → find_inode tbl fname ≠ -1.
Proof.
  intros Hv Huse Hf. by apply (find_inode_absent tbl fname Hv) in Hf.
Qed.

Lemma fs_create_succeeds fname s :
  disk_fd s ≠ -1 → valid_name fname →
  ¬ name_in_use (inode_table s) fname →
  find_free_inode (inode_table s) ≠ -1 →
  ∃ s', fs_create (Some fname) s = (0, s') ∧
        name_in_use (inode_table s') fname ∧
        free_blocks (sb s') = free_blocks (sb s).
Proof.
  intros Hfd Hv Hnew Hfree. unfold fs_create, valid_name in *.
  destruct (Z.eqb_spec (disk_fd s) (-1)) as [|_]; [done|].
  destruct (Z.leb_spec MAX_FILENAME (Z.of_nat (String.length fname)))
    as [|_]; [lia|].
  apply (find_inode_absent _ _ Hv) in Hnew. rewrite Hnew. simpl.
  destruct (Z.eqb_spec (find_free_inode (inode_table s)) (-1)) as [|_]; [done|].
  eexists. split; [done|]. simpl. split; [|done].
  destruct (find_free_inode_from_found (inode_table s) 0 ltac:(lia) Hfree)
    as (k & old & Hidx & Hk & _).
  unfold find_free_inode. rewrite Hidx.
  replace (Z.to_nat (0 + Z.of_nat k)) with k by lia.
  eexists. split_and!.
  - apply list_elem_of_lookup. exists k.
    apply list_lookup_insert_eq. by eapply lookup_lt_Some.
  - done.
  - simpl. by apply strncpy_term_valid.
Qed.

Lemma fresh_table_unused fname :
  ¬ name_in_use fresh_table fname ∧ find_free_inode fresh_table ≠ -1.
Proof.
  split.
  - intros (ino & Hin & Hu & _).
    apply elem_of_replicate in Hin as [-> _]. done.
  - unfold fresh_table, find_free_inode.
    pose proof (gok_files G HG).
    destruct (Z.to_nat MAX_FILES) as [|n] eqn:Hn; [lia|]. simpl. lia.
Qed.

(** *** Reading what the blocks hold *)

Lemma fs_read_holds fname buf size s w k ino newb zs f bytes :
  disk_fd s ≠ -1 → valid_name fname →
  find_inode (inode_table s) fname = Z.of_nat k →
  inode_table s !! k = Some ino →
  i_size ino = size → i_blocks ino = newb ++ zs →
  fd_file (disk_fd s) w = Some f →
  file_holds f newb bytes size →
  0 < size <= MAX_DIRECT_BLOCKS * BLOCK_SIZE →
  length newb = Z.to_nat (blocks_for size) →
  fs_read (Some fname) (Some buf) size s w
  = Done (size, take (Z.to_nat size) bytes).
Proof.
  intros Hfd Hv Hidx Hk Hsz Hblks Hf Hholds Hsize Hlen.
  unfold fs_read, valid_name in *.
  destruct (Z.eqb_spec (disk_fd s) (-1)) as [|_]; [done|].
  destruct (Z.leb_spec size 0) as [|_]; [lia|]. simpl.
  destruct (Z.leb_spec MAX_FILENAME (Z.of_nat (String.length fname)))
    as [|_]; [lia|].
  rewrite Hidx, Nat2Z.id, Hk.
  destruct (Z.eqb_spec (Z.of_nat k) (-1)) as [|_]; [lia|].
  rewrite Hsz, Z.ltb_irrefl, Hblks.
  destruct geometry_bounds
    as (H1 & H2 & H3 & H4 & H5 & H6 & H7 & H8 & H9 & H10 & H11 & H12 & H13).
  pose proof (read_blocks_holds f newb bytes size (blocks_for size)
                (disk_fd s) w zs Hf Hholds (blocks_for_bounds size)
                ltac:(lia) Hlen newb 0%nat eq_refl) as Hread.
  change (Z.of_nat 0 * BLOCK_SIZE) with 0 in Hread.
  replace (Z.min 0 size) with 0 in Hread by lia.
  exact Hread.
Qed.

Lemma file_holds_after_write needed size bytes newb f :
  (needed - 1) * BLOCK_SIZE < size <= needed * BLOCK_SIZE →
  Z.of_nat (length newb) <= needed →
  size <= Z.of_nat (length bytes) →
  NoDup newb → (∀ b, b ∈ newb → 10 <= b < MAX_BLOCKS) →
  file_holds (store_blocks 0 needed size bytes newb f) newb bytes size.
Proof.
  intros Hs Hlen Hdata Hnd Hrange j b Hj.
  split; [apply Hrange; apply list_elem_of_lookup; eauto|].
  pose proof (store_blocks_holds needed size bytes newb 0 f j b) as Hh.
  split.
  - apply (Hh 0); (done || lia).
  - intros k Hk Hlt.
    destruct (Hh k) as [_ Hd]; [done|lia|lia|done|done|done|].
    rewrite Z.add_0_l in Hd. by apply Hd.
Qed.

Lemma file_holds_same_data f f' blks bytes size :
  f_data f' = f_data f → f_len f' = f_len f →
  file_holds f blks bytes size → file_holds f' blks bytes size.
Proof.
  intros Hd Hl Hh j b Hj. rewrite Hd, Hl. by apply Hh.
Qed.

(** The read after a successful write, on a consistent session. *)
Lemma write_then_read fname bytes buf size s w :
  session_ok s → disk_fd s ≠ -1 → is_Some (fd_file (disk_fd s) w) →
  valid_name fname → name_in_use (inode_table s) fname →
  0 < size <= MAX_DIRECT_BLOCKS * BLOCK_SIZE →
  size <= Z.of_nat (length bytes) →
  blocks_for size <= free_blocks (sb s) →
  ∃ s' w',
    fs_write (Some fname) (Some bytes) size s w = Done (0, s', w') ∧
    fs_read (Some fname) (Some buf) size s' w'
    = Done (size, take (Z.to_nat size) bytes).
Proof.
  intros Hok Hfd [f Hf] Hv Huse Hsize Hdata Hfree.
  pose proof (name_in_use_found _ _ Hv Huse) as Hfound.
  destruct (fs_write_succeeds fname bytes size s w Hok Hfd Hv Hfound Hsize Hfree)
    as (s' & w' & Hwrite).
  exists s', w'. split; [done|].
  apply fs_write_effect in Hwrite
    as (fname' & bytes' & k & ino & newb & Hn & Hb & _ & _ & _ & Hidx & Hk & Hu
        & Hlen & Hmax & Hnd & Hnew & Htbl & Hfd' & -> & Hok'); [|done].
  injection Hn as <-. injection Hb as <-.
  assert (0 < size) as Hpos by lia.
  pose proof (blocks_for_pos size Hpos) as Hnpos.
  eapply (fs_read_holds fname buf size s' _ k _ newb).
  - by rewrite Hfd'.
  - done.
  - rewrite Htbl. rewrite (find_inode_insert_same _ _ ino); done.
  - rewrite Htbl. apply list_lookup_insert_eq. by eapply lookup_lt_Some.
  - done.
  - done.
  - rewrite Hfd', fd_file_with_file, Hf. done.
  - apply file_holds_after_write;
      [apply blocks_for_bounds | lia | done | done |].
    intros b Hb. by apply Hnew.
  - done.
  - done.
Qed.

(** C1 (amended).  On a session reachable from a freshly formatted and
    mounted image, for a valid name that is in use, a size [0 < size <=
    MAX_DIRECT_BLOCKS * BLOCK_SIZE], data of at least [size] bytes and
    [ceil(size / BLOCK_SIZE)] free blocks, fs_write returns 0 and the
    fs_read of [size] bytes that follows returns [size] and the first
    [size] bytes of the data. *)
Theorem write_read_roundtrip s w fname bytes buf size :
  reachable s w →
  valid_name fname → name_in_use (inode_table s) fname →
  0 < size <= MAX_DIRECT_BLOCKS * BLOCK_SIZE →
  size <= Z.of_nat (length bytes) →
  blocks_for size <= free_blocks (sb s) →
  ∃ s' w',
    fs_write (Some fname) (Some bytes) size s w = Done (0, s', w') ∧
    fs_read (Some fname) (Some buf) size s' w'
    = Done (size, take (Z.to_nat size) bytes).
Proof.
  intros Hreach. apply reachable_inv in Hreach as (Hok & Hfd & Hfile).
  by apply write_then_read.
Qed.

(** C6.  From an unmounted session, at a path where the image file can
    be created, for a valid name and data of a valid size: format, mount,
    create, write, unmount, mount again and read all succeed, and the
    read returns the data unchanged. *)
Theorem persistence_roundtrip path fname bytes buf s0 w0 :
  disk_fd s0 = -1 → creatable w0 path = true → valid_name fname →
  0 < Z.of_nat (length bytes) <= MAX_DIRECT_BLOCKS * BLOCK_SIZE →
  ∃ s1 w1 s2 w2 s3 s4 w4 s5 w5 s6 w6,
    fs_format path s0 w0 = Done (0, s1, w1) ∧
    fs_mount path s1 w1 = (0, s2, w2) ∧
    fs_create (Some fname) s2 = (0, s3) ∧
    fs_write (Some fname) (Some bytes) (Z.of_nat (length bytes)) s3 w2
      = Done (0, s4, w4) ∧
    fs_unmount s4 w4 = (s5, w5) ∧
    fs_mount path s5 w5 = (0, s6, w6) ∧
    fs_read (Some fname) (Some buf) (Z.of_nat (length bytes)) s6 w6
      = Done (Z.of_nat (length bytes), bytes).
Proof.
  intros Hfd0 Hcreat Hv Hsize. set (size := Z.of_nat (length bytes)) in *.
  destruct geometry_bounds
    as (H1 & H2 & H3 & H4 & H5 & H6 & H7 & H8 & H9 & H10 & H11 & H12 & H13).
  (* format *)
  destruct (fs_format_succeeds path s0 w0 Hcreat) as (s1 & w1 & Hfmt).
  pose proof (fs_format_Done0 _ _ _ _ _ Hfmt)
    as (bm0 & f1 & Hbm0 & Hs1 & Hf1 & Hsb1 & Hbits1 & Htbl1).
  (* mount *)
  assert (disk_fd s1 = -1) as Hfd1 by (by rewrite Hs1).
  pose proof (fs_mount_succeeds path s1 w1 f1 fresh_sb bm0 fresh_table
                Hfd1 Hf1 Hsb1 Hbits1 Htbl1 eq_refl eq_refl eq_refl) as Hmnt.
  set (fd2 := lowest_unused (fds w1)) in *.
  set (s2 := {| sb := fresh_sb; inode_table := fresh_table;
                block_bitmap := bm0; disk_fd := fd2 |}) in *.
  set (w2 := {| files := files w1; fds := <[fd2 := path]> (fds w1);
                creatable := creatable w1 |}) in *.
  assert (reachable s2 w2) as Hreach2 by (by eapply reach_start).
  pose proof (reachable_inv _ _ Hreach2) as (Hok2 & Hfd2 & _).
  (* create *)
  destruct (fresh_table_unused fname) as [Hunused Hslot].
  destruct (fs_create_succeeds fname s2 Hfd2 Hv Hunused Hslot)
    as (s3 & Hcreate & Huse3 & Hfb3).
  assert (reachable s3 w2) as Hreach3.
  { apply (reach_step (OpCreate (Some fname)) s2 w2); [done|].
    simpl. by rewrite Hcreate. }
  pose proof (reachable_inv _ _ Hreach3) as (Hok3 & Hfd3 & _).
  assert (disk_fd s3 = fd2) as Hfd32.
  { pose proof (fs_create_fd (Some fname) s2) as Hc.
    by rewrite Hcreate in Hc. }
  (* write *)
  assert (blocks_for size <= MAX_DIRECT_BLOCKS) as Hneed
    by (apply blocks_for_le; lia).
  assert (blocks_for size <= free_blocks (sb s3)) as Hfree.
  { rewrite Hfb3. simpl. rewrite wrap_id; lia. }
  pose proof (name_in_use_found _ _ Hv Huse3) as Hfound3.
  destruct (fs_write_succeeds fname bytes size s3 w2 Hok3 Hfd3 Hv Hfound3
              Hsize Hfree) as (s4 & w4 & Hwrite).
  pose proof (fs_write_effect _ _ _ _ _ _ _ Hok3 Hwrite)
    as (fname' & bytes' & k & ino & newb & Hn & Hb & _ & _ & _ & Hidx & Hk
        & Hu & Hlen & _ & Hnd & Hnew & Htbl4 & Hfd4 & Hw4 & Hok4).
  injection Hn as <-. injection Hb as <-.
  set (g := store_blocks 0 (blocks_for size) size bytes newb) in *.
  assert (fds w2 !! fd2 = Some path) as Hopen2 by apply lookup_insert_eq.
  rewrite Hfd32 in Hw4, Hfd4.
  rewrite (with_file_open fd2 path f1 g w2 Hopen2 Hf1) in Hw4.
  (* unmount *)
  assert (disk_fd s4 ≠ -1) as Hfd4' by (rewrite Hfd4; by rewrite <- Hfd32).
  assert (fds w4 !! disk_fd s4 = Some path) as Hopen4
    by (by rewrite Hfd4, Hw4).
  assert (files w4 !! path = Some (g f1)) as Hf4
    by (rewrite Hw4; apply lookup_insert_eq).
  pose proof (fs_unmount_mounted s4 w4 path (g f1) Hfd4' Hopen4 Hf4) as Humnt.
  set (f5 := {| f_sb := Full (sb s4); f_bitmap := Full (block_bitmap s4);
                f_inodes := Full (inode_table s4);
                f_data := f_data (g f1); f_len := f_len (g f1) |}) in *.
  set (w5 := {| files := <[path := f5]> (files w4);
                fds := delete (disk_fd s4) (fds w4);
                creatable := creatable w4 |}) in *.
  (* mount again *)
  assert (files w5 !! path = Some f5) as Hf5 by apply lookup_insert_eq.
  pose proof (fs_mount_succeeds path (set_disk_fd (-1) s4) w5 f5 (sb s4)
                (block_bitmap s4) (inode_table s4) eq_refl Hf5 eq_refl eq_refl
                eq_refl (ok_total_blocks _ Hok4) (ok_block_size _ Hok4)
                (ok_total_inodes _ Hok4)) as Hmnt6.
  set (fd6 := lowest_unused (fds w5)) in *.
  set (s6 := {| sb := sb s4; inode_table := inode_table s4;
                block_bitmap := block_bitmap s4; disk_fd := fd6 |}) in *.
  set (w6 := {| files := files w5; fds := <[fd6 := path]> (fds w5);
                creatable := creatable w5 |}) in *.
  exists s1, w1, s2, w2, s3, s4, w4, (set_disk_fd (-1) s4), w5, s6, w6.
  split_and!; try done.
  (* read *)
  assert (0 < size) as Hpos by lia.
  pose proof (blocks_for_pos size Hpos) as Hnpos.
  assert (take (Z.to_nat size) bytes = bytes) as Htake
    by (apply take_ge; unfold size; lia).
  match goal with
  | |- _ = Done (?n, _) =>
      transitivity (Done (n, take (Z.to_nat size) bytes) : outcome (Z * list Byte.byte));
        [|by rewrite Htake]
  end.
  eapply (fs_read_holds fname buf size s6 w6 k _ newb _ f5).
  - simpl. pose proof (lowest_unused_nonneg (fds w5)). unfold fd6. lia.
  - done.
  - simpl. rewrite Htbl4. rewrite (find_inode_insert_same _ _ ino); done.
  - simpl. rewrite Htbl4. apply list_lookup_insert_eq. by eapply lookup_lt_Some.
  - done.
  - done.
  - eapply fd_file_open; [apply lookup_insert_eq | exact Hf5].
  - apply (file_holds_same_data (g f1)); [done|done|].
    apply file_holds_after_write;
      [apply blocks_for_bounds | lia | unfold size; lia | done |].
    intros b Hb. by apply Hnew.
  - done.
  - done.
Qed.

(** C4 (amended).  On a mounted session, for a valid name in use and
    arguments that pass the earlier checks of fs_write (data not null,
    [0 < size <= MAX_FILES * BLOCK_SIZE]): if [free_blocks] is less than
    [ceil(size / BLOCK_SIZE)], fs_write returns -2 and the session and
    the world, image file included, are what they were. *)
Theorem write_without_space fname bytes size s w :
  disk_fd s ≠ -1 →
  valid_name fname → name_in_use (inode_table s) fname →
  0 < size <= MAX_FILES * BLOCK_SIZE →
  free_blocks (sb s) < blocks_for size →
  fs_write (Some fname) (Some bytes) size s w = Done (-2, s, w).
Proof.
  intros Hfd Hv Huse Hsize Hfree.
  pose proof (name_in_use_found _ _ Hv Huse) as Hfound.
  destruct (find_inode_found _ _ Hfound) as (k & ino & Hidx & Hk & _).
  unfold fs_write, valid_name in *.
  destruct (Z.eqb_spec (disk_fd s) (-1)) as [|_]; [done|].
  destruct (Z.leb_spec size 0) as [|_]; [lia|]. simpl.
  destruct (Z.leb_spec MAX_FILENAME (Z.of_nat (String.length fname)))
    as [|_]; [lia|].
  rewrite wrap_size_bound.
  destruct (Z.ltb_spec (MAX_FILES * BLOCK_SIZE) size) as [|_]; [lia|].
  rewrite Hidx, Nat2Z.id, Hk.
  destruct (Z.eqb_spec (Z.of_nat k) (-1)) as [|_]; [lia|].
  rewrite needed_blocks_eq by lia.
  destruct (Z.ltb_spec (free_blocks (sb s)) (blocks_for size)) as [_|]; [done|lia].
Qed.

(** A size above the bound of fs_write is an invalid argument, whatever
    the free space. *)
Lemma fs_write_too_large fname bytes size s w :
  MAX_FILES * BLOCK_SIZE < size →
  fs_write (Some fname) (Some bytes) size s w = Done (-3, s, w).
Proof.
  intros Hsize. unfold fs_write.
  destruct ((disk_fd s =? -1) || (size <=? 0)); [done|].
  destruct (MAX_FILENAME <=? Z.of_nat (String.length fname)); [done|].
  rewrite wrap_size_bound.
  destruct (Z.ltb_spec (MAX_FILES * BLOCK_SIZE) size) as [_|]; [done|lia].
Qed.

(** C7.  fs_mount fails when the session is mounted already, changing
    nothing.  On an unmounted session, an image whose superblock read
    falls short or disagrees with the compiled constants, or whose bitmap
    or inode table read falls short, makes it return -1 with the session
    unmounted and the descriptor closed: the world is what it was.  When
    it returns 0, the superblock, [free_blocks] and [free_inodes]
    included, the bitmap and the inode table of the session are the
    stored ones. *)
Theorem mount_fails_closed path s w :
  (disk_fd s ≠ -1 → fs_mount path s w = (-1, s, w)) ∧
  (disk_fd s = -1 →
   ∀ f, files w !! path = Some f → image_rejected f →
     ∃ s', fs_mount path s w = (-1, s', w) ∧ disk_fd s' = -1) ∧
  (∀ s' w', fs_mount path s w = (0, s', w') →
     ∃ f sb' bm tbl,
       files w !! path = Some f ∧
       f_sb f = Full sb' ∧ f_bitmap f = Full bm ∧ f_inodes f = Full tbl ∧
       sb s' = sb' ∧ block_bitmap s' = bm ∧ inode_table s' = tbl ∧
       disk_fd s' ≠ -1).
Proof.
  split_and!.
  - intros Hfd. rewrite fs_mount_mounted.
    by destruct (Z.eqb_spec (disk_fd s) (-1)).
  - intros Hfd f Hf Hrej. rewrite fs_mount_mounted, Hfd, Hf. simpl.
    unfold mount_fail. simpl. rewrite close_after_open.
    unfold image_rejected in Hrej.
    destruct (f_sb f) as [sb'|p]; [|eauto].
    destruct (Z.eqb_spec (total_blocks sb') MAX_BLOCKS); simpl; [|eauto].
    destruct (Z.eqb_spec (block_size sb') BLOCK_SIZE); simpl; [|eauto].
    destruct (Z.eqb_spec (total_inodes sb') MAX_FILES); simpl; [|eauto].
    destruct Hrej as [?|[?|[?|[[p Hp]|[p Hp]]]]]; try done.
    + rewrite Hp. eauto.
    + rewrite Hp. destruct (f_bitmap f); eauto.
  - intros s' w' Hrun.
    apply fs_mount_Done0 in Hrun
      as (_ & f & sb' & bm & tbl & Hf & Hsb & Hbm & Htbl & _ & _ & _ & -> & ->).
    exists f, sb', bm, tbl. split_and!; try done.
    simpl. pose proof (lowest_unused_nonneg (fds w)). lia.
Qed.

(** C8.  fs_delete returns -2 when the session is not mounted; else -3
    when the name is null or as long as MAX_FILENAME or longer; else -1
    when no used inode bears the name; else 0.  Whenever it returns
    another value than 0 the session is unchanged, and on a consistent
    session the last case does return. *)
Theorem delete_status filename s :
  (disk_fd s = -1 → fs_delete filename s = Done (-2, s)) ∧
  (disk_fd s ≠ -1 →
   (filename = None
    ∨ ∃ n, filename = Some n ∧ MAX_FILENAME <= Z.of_nat (String.length n)) →
   fs_delete filename s = Done (-3, s)) ∧
  (∀ n, disk_fd s ≠ -1 → filename = Some n → valid_name n →
        ¬ name_in_use (inode_table s) n →
        fs_delete filename s = Done (-1, s)) ∧
  (∀ n, disk_fd s ≠ -1 → filename = Some n → valid_name n →
        name_in_use (inode_table s) n →
        (∀ r s', fs_delete filename s = Done (r, s') → r = 0) ∧
        (session_ok s → ∃ s', fs_delete filename s = Done (0, s'))) ∧
  (∀ r s', fs_delete filename s = Done (r, s') → r ≠ 0 → s' = s).
Proof.
  split_and!.
  - intros Hfd. unfold fs_delete. by rewrite Hfd.
  - intros Hfd Hbad. unfold fs_delete.
    destruct (Z.eqb_spec (disk_fd s) (-1)) as [|_]; [done|].
    destruct Hbad as [-> | (n & -> & Hlen)]; [done|].
    by destruct (Z.leb_spec MAX_FILENAME (Z.of_nat (String.length n))); [|lia].
  - intros n Hfd -> Hv Hnone. unfold fs_delete, valid_name in *.
    destruct (Z.eqb_spec (disk_fd s) (-1)) as [|_]; [done|].
    destruct (Z.leb_spec MAX_FILENAME (Z.of_nat (String.length n)))
      as [|_]; [lia|].
    apply (find_inode_absent _ _ Hv) in Hnone. by rewrite Hnone.
  - intros n Hfd -> Hv Huse.
    pose proof (name_in_use_found _ _ Hv Huse) as Hfound.
    destruct (find_inode_found _ _ Hfound) as (k & ino & Hidx & Hk & Hu & _).
    assert (fs_delete (Some n) s
            = '(blks, bm, fb) ← release_blocks (i_blocks ino) (block_bitmap s)
                                  (free_blocks (sb s));
              Done (0, {| sb := set_free_inodes (wrap (free_inodes (sb s) + 1))
                                  (set_free_blocks fb (sb s));
                          inode_table :=
                            <[k := {| i_used := false; i_name := EmptyString;
                                      i_size := 0; i_blocks := blks |}]>
                              (inode_table s);
                          block_bitmap := bm;
                          disk_fd := disk_fd s |})) as Hrun.
    { unfold fs_delete, valid_name in *.
      destruct (Z.eqb_spec (disk_fd s) (-1)) as [|_]; [done|].
      destruct (Z.leb_spec MAX_FILENAME (Z.of_nat (String.length n)))
        as [|_]; [lia|].
      rewrite Hidx, Nat2Z.id, Hk.
      by destruct (Z.eqb_spec (Z.of_nat k) (-1)) as [|_]; [lia|]. }
    rewrite Hrun. split.
    + intros r s'.
      destruct (release_blocks _ _ _) as [[[blks bm] fb]|]; [|done].
      simpl. by intros [= <- _].
    + intros Hok.
      destruct (session_ok_release_succeeds s k ino Hok Hk Hu)
        as [[[blks bm] fb] ->].
      simpl. eauto.
  - intros r s'. unfold fs_delete.
    destruct (disk_fd s =? -1); [by intros [= <- <-]|].
    destruct filename as [n|]; [|by intros [= <- <-]].
    destruct (MAX_FILENAME <=? Z.of_nat (String.length n));
      [by intros [= <- <-]|].
    destruct (find_inode (inode_table s) n =? -1); [by intros [= <- <-]|].
    destruct (inode_table s !! _); [|done].
    destruct (release_blocks _ _ _) as [[[blks bm] fb]|]; [|done].
    simpl. by intros [= <- _] ?.
Qed.

(** *** fs_list *)

Lemma list_loop_spec max_files tbl : ∀ count rows,
  0 <= count <= max_files → max_files < 2147483648 →
  max_files <= Z.of_nat (length rows) →
  let new := listed_names tbl (max_files - count) in
  list_loop tbl count max_files rows
  = Done (count + Z.of_nat (length new),
          take (Z.to_nat count) rows ++ new
          ++ drop (Z.to_nat count + length new) rows).
Proof.
  unfold listed_names.
  induction tbl as [|ino tbl IH]; intros count rows Hc Hmax Hrows; simpl.
  - rewrite take_nil. simpl. rewrite Nat.add_0_r, take_drop.
    f_equal. f_equal. lia.
  - destruct (Z.ltb_spec count max_files) as [Hlt|Hge].
    + rewrite filter_cons. destruct (i_used ino) eqn:Hu; simpl.
      * destruct (Nat.ltb_spec (Z.to_nat count) (length rows)) as [_|]; [|lia].
        rewrite wrap_id by lia.
        rewrite IH by (rewrite ?length_insert; lia).
        replace (Z.to_nat (max_files - count))
          with (S (Z.to_nat (max_files - (count + 1)))) by lia.
        simpl.
        set (new := take _ _).
        f_equal. f_equal; [lia|].
        replace (Z.to_nat (count + 1)) with (S (Z.to_nat count)) by lia.
        rewrite (take_S_r _ _ (strncpy_term (i_name ino)))
          by (apply list_lookup_insert_eq; lia).
        rewrite take_insert_ge by lia.
        rewrite drop_insert_lt by lia.
        rewrite <- (assoc_L (++)). simpl. do 4 f_equal. lia.
      * by apply IH.
    + replace (Z.to_nat (max_files - count)) with 0%nat by lia.
      simpl. rewrite Nat.add_0_r, take_drop. f_equal. f_equal. lia.
Qed.

(** C9 (amended).  On a mounted session, with rows for [max_files]
    names and [0 < max_files <= MAX_FILES], fs_list stores the names of
    the used inodes in slot order, [max_files] of them at most, in the
    first rows, leaves the other rows alone and returns the number of
    names stored.  With a null buffer, or [max_files] outside
    [(0, MAX_FILES]], it returns -1 and stores nothing. *)
Theorem list_contract s max_files :
  disk_fd s ≠ -1 →
  (∀ rows,
     0 < max_files <= MAX_FILES → max_files <= Z.of_nat (length rows) →
     let names := listed_names (inode_table s) max_files in
     fs_list (Some rows) max_files s
     = Done (Z.of_nat (length names),
             Some (names ++ drop (length names) rows))) ∧
  fs_list None max_files s = Done (-1, None) ∧
  (∀ rows,
     max_files <= 0 ∨ MAX_FILES < max_files →
     fs_list (Some rows) max_files s = Done (-1, Some rows)).
Proof.
  intros Hfd. split_and!.
  - intros rows Hmax Hrows. unfold fs_list.
    destruct (Z.eqb_spec (disk_fd s) (-1)) as [|_]; [done|].
    destruct (Z.leb_spec max_files 0) as [|_]; [lia|].
    destruct (Z.ltb_spec MAX_FILES max_files) as [|_]; [lia|]. simpl.
    destruct geometry_bounds
      as (H1 & H2 & H3 & H4 & H5 & H6 & H7 & H8 & H9 & H10 & H11 & H12 & H13).
    rewrite list_loop_spec by lia.
    rewrite Z.sub_0_r. simpl. done.
  - done.
  - intros rows Hbad. unfold fs_list.
    destruct (disk_fd s =? -1); [done|]. simpl.
    destruct (Z.leb_spec max_files 0); [done|].
    destruct (Z.ltb_spec MAX_FILES max_files); [done|lia].
Qed.


(** *** Calls complete on a consistent session

    On a consistent session the model faults in two cases only: a write
    of more than MAX_DIRECT_BLOCKS blocks (the store past the end of
    [blocks]), and a list into fewer rows than [max_files]. *)

Lemma read_blocks_completes blks : ∀ bytes_read bytes_to_read buf fd w,
  (∀ b, b ∈ blks → b ≠ 0 → 10 <= b < MAX_BLOCKS) →
  ∃ r, read_blocks blks bytes_read bytes_to_read buf fd w = Done r.
Proof.
  induction blks as [|b blks IH]; intros br btr buf fd w Hrange; simpl;
    [eauto|].
  destruct (br <? btr); [|eauto].
  destruct (Z.eqb_spec b 0) as [|Hb]; [eauto|].
  rewrite data_offset_ok by (apply Hrange; [left|done]). simpl.
  destruct (sys_pread _ _ _ _) as [n got].
  destruct (n <? 0); [eauto|].
  apply IH. intros x Hx. apply Hrange. by right.
Qed.

Lemma fs_read_completes filename data size s w :
  session_ok s → ∃ r, fs_read filename data size s w = Done r.
Proof.
  intros Hok. unfold fs_read.
  destruct filename as [fname|]; [|eauto].
  destruct data as [buf|]; [|eauto].
  destruct ((disk_fd s =? -1) || (size <=? 0)); [eauto|].
  destruct (MAX_FILENAME <=? Z.of_nat (String.length fname)); [eauto|].
  destruct (Z.eqb_spec (find_inode (inode_table s) fname) (-1)) as [|Hfound];
    [eauto|].
  destruct (find_inode_found _ _ Hfound) as (k & ino & Hidx & Hk & Hu & _).
  rewrite Hidx, Nat2Z.id, Hk.
  apply read_blocks_completes. intros b Hb Hne.
  apply (session_ok_ptr s b Hok), elem_of_all_ptrs.
  exists ino. split_and!; auto. apply list_elem_of_lookup. eauto.
Qed.

Lemma fs_delete_completes filename s :
  session_ok s → ∃ r, fs_delete filename s = Done r.
Proof.
  intros Hok. unfold fs_delete.
  destruct (disk_fd s =? -1); [eauto|].
  destruct filename as [fname|]; [|eauto].
  destruct (MAX_FILENAME <=? Z.of_nat (String.length fname)); [eauto|].
  destruct (Z.eqb_spec (find_inode (inode_table s) fname) (-1)) as [|Hfound];
    [eauto|].
  destruct (find_inode_found _ _ Hfound) as (k & ino & Hidx & Hk & Hu & _).
  rewrite Hidx, Nat2Z.id, Hk.
  destruct (session_ok_release_succeeds s k ino Hok Hk Hu)
    as [[[blks bm] fb] ->].
  simpl. eauto.
Qed.

Lemma fs_write_completes filename data size s w :
  session_ok s → size <= MAX_DIRECT_BLOCKS * BLOCK_SIZE →
  ∃ r, fs_write filename data size s w = Done r.
Proof.
  intros Hok Hsize.
  destruct filename as [fname|]; [|simpl; eauto].
  destruct data as [bytes|]; [|simpl; eauto].
  destruct (decide (disk_fd s = -1)) as [Hfd|Hfd].
  { unfold fs_write. rewrite Hfd. simpl. eauto. }
  destruct (decide (size <= 0)) as [Hneg|Hpos].
  { unfold fs_write. destruct (Z.leb_spec size 0); [|lia].
    rewrite orb_true_r. eauto. }
  destruct (decide (Z.of_nat (String.length fname) < MAX_FILENAME))
    as [Hv|Hv].
  2:{ unfold fs_write, valid_name in *.
      destruct (Z.eqb_spec (disk_fd s) (-1)); [done|].
      destruct (Z.leb_spec size 0); [lia|]. simpl.
      destruct (Z.leb_spec MAX_FILENAME (Z.of_nat (String.length fname)));
        [eauto|lia]. }
  destruct (decide (find_inode (inode_table s) fname = -1)) as [Hnone|Hfound].
  { unfold fs_write, valid_name in *.
    destruct (Z.eqb_spec (disk_fd s) (-1)); [done|].
    destruct (Z.leb_spec size 0); [lia|]. simpl.
    destruct (Z.leb_spec MAX_FILENAME (Z.of_nat (String.length fname)));
      [lia|].
    destruct (_ <? size); [eauto|]. rewrite Hnone. simpl. eauto. }
  destruct (decide (blocks_for size <= free_blocks (sb s))) as [Hfree|Hfull].
  - destruct (fs_write_succeeds fname bytes size s w Hok Hfd Hv Hfound)
      as (s' & w' & ->); [lia|done|eauto].
  - destruct (find_inode_found _ _ Hfound) as (k & ino & Hidx & Hk & _).
    destruct geometry_bounds
      as (H1 & H2 & H3 & H4 & H5 & H6 & H7 & H8 & H9 & H10 & H11 & H12 & H13).
    pose proof (gok_direct_files G HG) as Hdf.
    assert (MAX_DIRECT_BLOCKS * BLOCK_SIZE <= MAX_FILES * BLOCK_SIZE)
      by (apply Z.mul_le_mono_nonneg_r; lia).
    unfold fs_write, valid_name in *.
    destruct (Z.eqb_spec (disk_fd s) (-1)); [done|].
    destruct (Z.leb_spec size 0); [lia|]. simpl.
    destruct (Z.leb_spec MAX_FILENAME (Z.of_nat (String.length fname)));
      [lia|].
    rewrite wrap_size_bound.
    destruct (Z.ltb_spec (MAX_FILES * BLOCK_SIZE) size); [lia|].
    rewrite Hidx, Nat2Z.id, Hk.
    destruct (Z.eqb_spec (Z.of_nat k) (-1)); [lia|].
    rewrite needed_blocks_eq by lia.
    destruct (Z.ltb_spec (free_blocks (sb s)) (blocks_for size)); [eauto|lia].
Qed.

Lemma fs_list_completes filenames max_files s :
  (∀ rows, filenames = Some rows → max_files <= Z.of_nat (length rows)) →
  ∃ r, fs_list filenames max_files s = Done r.
Proof.
  intros Hrows. unfold fs_list.
  destruct filenames as [rows|]; [|eauto].
  destruct (disk_fd s =? -1); [simpl; eauto|].
  destruct (Z.leb_spec max_files 0); [simpl; eauto|].
  destruct (Z.ltb_spec MAX_FILES max_files); [simpl; eauto|]. simpl.
  destruct geometry_bounds
    as (H1 & H2 & H3 & H4 & H5 & H6 & H7 & H8 & H9 & H10 & H11 & H12 & H13).
  rewrite list_loop_spec by (try apply Hrows; done || lia).
  simpl. eauto.
Qed.

(** In a state reachable from a freshly formatted and mounted image no
    call runs into an access outside an array, a shift by a negative
    amount or an offset outside the data area, as long as a write stays
    within [MAX_DIRECT_BLOCKS * BLOCK_SIZE] bytes and a list is given a
    row for each name it may store: every such call completes. *)
Lemma reachable_op_completes o s w :
  reachable s w → op_in_bounds o →
  ∃ s' w', run_op o s w = Done (s', w').
Proof.
  intros Hreach Hin. apply reachable_inv in Hreach as (Hok & _ & _).
  destruct o as [n | n | n d sz | n d sz | b m]; simpl in *.
  - eauto.
  - destruct (fs_delete_completes n s Hok) as [[r s'] ->]. simpl. eauto.
  - destruct (fs_write_completes n d sz s w Hok Hin) as [[[r s'] w'] ->].
    simpl. eauto.
  - destruct (fs_read_completes n d sz s w Hok) as [r ->]. simpl. eauto.
  - destruct (fs_list_completes b m s) as [r ->]; [|simpl; eauto].
    intros rows ->. exact Hin.
Qed.

(** *** One block too many *)

Lemma alloc_blocks_overrun n : ∀ i needed size data fd bm fb blks w,
  length bm = Z.to_nat BLOCK_SIZE →
  0 <= i <= MAX_DIRECT_BLOCKS → MAX_DIRECT_BLOCKS < i + Z.of_nat n →
  Z.of_nat (length (used_bits bm)) + (MAX_DIRECT_BLOCKS - i + 1)
    <= MAX_BLOCKS - 10 →
  alloc_blocks n i needed size data fd bm fb blks w = Fault OutOfBounds.
Proof.
  induction n as [|n IH]; intros i needed size data fd bm fb blks w
    Hlen Hi Hn Hfree; [lia|].
  simpl.
  destruct geometry_bounds
    as (H1 & H2 & H3 & H4 & H5 & H6 & H7 & H8 & H9 & H10 & H11 & H12 & H13).
  destruct (find_free_block_spec bm) as [[Hnone _] | [Hrange Hclear]].
  { apply find_free_block_full in Hnone. lia. }
  set (b := find_free_block bm) in *.
  assert (b / 8 < BLOCK_SIZE) as Hbyte by (apply Z.div_lt_upper_bound; lia).
  destruct (update_bitmap_byte_succeeds b (λ v m, Z.lor v m) bm)
    as [bm1 Hm]; [lia | done | |].
  { rewrite Hlen. apply Z2Nat.inj_lt; [apply Z.div_pos; lia | lia | done]. }
  fold (mark_block_used b bm) in Hm. rewrite Hm. simpl.
  destruct (Z.ltb_spec i 0) as [|_]; [lia|].
  destruct (Z.leb_spec MAX_DIRECT_BLOCKS i) as [|Hlt]; [done|]. simpl.
  rewrite (data_offset_ok b Hrange). simpl.
  rewrite (wrap_id (i + 1)) by lia.
  apply IH; [|lia|lia|].
  - apply mark_block_used_Done in Hm as (_ & _ & -> & _). done.
  - rewrite (used_bits_mark_used b bm bm1 Hm Hrange Hclear). simpl length. lia.
Qed.

(** C5.  The claim does not hold of the code.  When MAX_FILES exceeds
    MAX_DIRECT_BLOCKS, a size of MAX_DIRECT_BLOCKS * BLOCK_SIZE + 1 passes
    the size check of fs_write and needs MAX_DIRECT_BLOCKS + 1 blocks; on
    a consistent mounted session with that many free blocks, the last
    iteration of the allocation loop stores into
    [blocks[MAX_DIRECT_BLOCKS]], outside the array. *)
Theorem write_past_block_array fname bytes s w :
  MAX_DIRECT_BLOCKS < MAX_FILES →
  session_ok s → disk_fd s ≠ -1 →
  valid_name fname → name_in_use (inode_table s) fname →
  MAX_DIRECT_BLOCKS + 1 <= free_blocks (sb s) →
  let size := MAX_DIRECT_BLOCKS * BLOCK_SIZE + 1 in
  0 < size <= MAX_FILES * BLOCK_SIZE
  ∧ blocks_for size = MAX_DIRECT_BLOCKS + 1
  ∧ fs_write (Some fname) (Some bytes) size s w = Fault OutOfBounds.
Proof.
  intros Hmore Hok Hfd Hv Huse Hfree size.
  destruct geometry_bounds
    as (H1 & H2 & H3 & H4 & H5 & H6 & H7 & H8 & H9 & H10 & H11 & H12 & H13).
  assert ((MAX_DIRECT_BLOCKS + 1) * BLOCK_SIZE <= MAX_FILES * BLOCK_SIZE)
    as Hfit by (apply Z.mul_le_mono_nonneg_r; lia).
  assert (0 <= MAX_DIRECT_BLOCKS * BLOCK_SIZE)
    by (apply Z.mul_nonneg_nonneg; lia).
  assert (0 < size <= MAX_FILES * BLOCK_SIZE) as Hsize by (unfold size; lia).
  assert (blocks_for size = MAX_DIRECT_BLOCKS + 1) as Hneed.
  { pose proof (blocks_for_bounds size) as Hb. unfold size in *.
    assert (blocks_for (MAX_DIRECT_BLOCKS * BLOCK_SIZE + 1)
            <= MAX_DIRECT_BLOCKS + 1) by (apply blocks_for_le; lia).
    destruct (Z.le_gt_cases (blocks_for (MAX_DIRECT_BLOCKS * BLOCK_SIZE + 1))
                MAX_DIRECT_BLOCKS) as [Hle|]; [|lia].
    assert (blocks_for (MAX_DIRECT_BLOCKS * BLOCK_SIZE + 1) * BLOCK_SIZE
            <= MAX_DIRECT_BLOCKS * BLOCK_SIZE)
      by (apply Z.mul_le_mono_nonneg_r; lia).
    lia. }
  split; [done|]. split; [done|].
  pose proof (name_in_use_found _ _ Hv Huse) as Hfound.
  destruct (find_inode_found _ _ Hfound) as (k & ino & Hidx & Hk & Hu & _).
  rewrite (fs_write_run fname bytes size s w k ino) by (done || lia).
  destruct (session_ok_release_succeeds s k ino Hok Hk Hu)
    as [[[blks1 bm1] fb1] Hrel].
  rewrite Hrel. simpl.
  destruct (session_ok_release s k ino _ _ _ Hok Hk Hu Hrel)
    as (-> & Hlen1 & Hbits1 & Hsum1 & Hfb1 & Hfbge).
  rewrite alloc_blocks_overrun; [done|done|lia|lia|].
  rewrite (Permutation_length Hbits1). lia.
Qed.

(** ** Properties of the single functions *)

(** *** The helpers *)

(** For a name shorter than MAX_FILENAME, find_inode returns the lowest
    slot whose inode is in use under exactly that name, and -1 when no
    used inode bears it. *)
Theorem find_inode_first_match tbl fname :
  valid_name fname →
  (find_inode tbl fname = -1 ∧ ¬ name_in_use tbl fname)
  ∨ ∃ k ino,
      find_inode tbl fname = Z.of_nat k ∧ tbl !! k = Some ino ∧
      i_used ino = true ∧ i_name ino = fname ∧
      ∀ j x, (j < k)%nat → tbl !! j = Some x →
        ¬ (i_used x = true ∧ i_name x = fname).
Proof.
  intros Hv.
  assert (∀ a, i_used a && strncmp_eq0 (i_name a) fname MAX_FILENAME = false →
               ¬ (i_used a = true ∧ i_name a = fname)) as Hnot.
  { intros a Ht [Hu Hn]. rewrite Hu in Ht. simpl in Ht.
    assert (strncmp_eq0 (i_name a) fname MAX_FILENAME = true)
      by (by apply strncmp_eq0_valid).
    congruence. }
  assert (∀ l i,
    (find_inode_from i l fname = -1 ∧
     ∀ x, x ∈ l → ¬ (i_used x = true ∧ i_name x = fname))
    ∨ ∃ k ino,
        find_inode_from i l fname = i + Z.of_nat k ∧ l !! k = Some ino ∧
        i_used ino = true ∧ i_name ino = fname ∧
        ∀ j x, (j < k)%nat → l !! j = Some x →
          ¬ (i_used x = true ∧ i_name x = fname)) as Hgen.
  { induction l as [|a l IH]; intros i; simpl.
    - left. split; [done|]. intros x Hx. by apply elem_of_nil in Hx.
    - destruct (i_used a && strncmp_eq0 (i_name a) fname MAX_FILENAME) eqn:Ht.
      + right. exists 0%nat, a. apply andb_true_iff in Ht as [Hu Hm].
        apply (strncmp_eq0_valid _ _ _ Hv) in Hm.
        split_and!; auto; [lia|]. intros j x Hj. lia.
      + destruct (IH (i + 1))
          as [[Hr Hall] | (k & ino & Hr & Hk & Hu & Hn & Hlow)].
        * left. split; [done|]. intros x Hx.
          apply elem_of_cons in Hx as [-> | Hx]; [by apply Hnot | by apply Hall].
        * right. exists (S k), ino. split_and!; auto; [lia|].
          intros [|j] x Hj Hx; simpl in Hx.
          -- injection Hx as <-. by apply Hnot.
          -- apply (Hlow j x); [lia|done]. }
  destruct (Hgen tbl 0) as [[Hr Hall] | (k & ino & Hr & Hk & Hu & Hn & Hlow)].
  - left. split; [done|]. intros (x & Hx & Hu & Hn). by apply (Hall x Hx).
  - right. exists k, ino. split_and!; auto; unfold find_inode; lia.
Qed.

(** find_free_inode returns the lowest slot that is not in use, and -1
    when every slot is in use. *)
Theorem find_free_inode_lowest tbl :
  (find_free_inode tbl = -1 ∧ ∀ ino, ino ∈ tbl → i_used ino = true)
  ∨ ∃ k ino,
      find_free_inode tbl = Z.of_nat k ∧ tbl !! k = Some ino ∧
      i_used ino = false ∧
      ∀ j x, (j < k)%nat → tbl !! j = Some x → i_used x = true.
Proof.
  assert (∀ l i,
    (find_free_inode_from i l = -1 ∧ ∀ x, x ∈ l → i_used x = true)
    ∨ ∃ k ino,
        find_free_inode_from i l = i + Z.of_nat k ∧ l !! k = Some ino ∧
        i_used ino = false ∧
        ∀ j x, (j < k)%nat → l !! j = Some x → i_used x = true) as Hgen.
  { induction l as [|a l IH]; intros i; simpl.
    - left. split; [done|]. intros x Hx. by apply elem_of_nil in Hx.
    - destruct (i_used a) eqn:Hu; simpl.
      + destruct (IH (i + 1)) as [[Hr Hall] | (k & ino & Hr & Hk & Hf & Hlow)].
        * left. split; [done|]. intros x Hx.
          apply elem_of_cons in Hx as [-> | Hx]; [done | by apply Hall].
        * right. exists (S k), ino. split_and!; auto; [lia|].
          intros [|j] x Hj Hx; simpl in Hx.
          -- by injection Hx as <-.
          -- apply (Hlow j x); [lia|done].
      + right. exists 0%nat, a. split_and!; auto; [lia|]. intros j x Hj. lia. }
  destruct (Hgen tbl 0) as [[Hr Hall] | (k & ino & Hr & Hk & Hf & Hlow)].
  - by left.
  - right. exists k, ino. split_and!; auto; unfold find_free_inode; lia.
Qed.

(** find_free_block never returns a metadata block: its result is the
    lowest block from 10 up whose bit is clear, and -1 when the bit of
    every data block is set. *)
Theorem find_free_block_lowest bm :
  (find_free_block bm = -1 ∧
   ∀ j, 10 <= j < MAX_BLOCKS → bit_is_set bm j = true)
  ∨ (10 <= find_free_block bm < MAX_BLOCKS ∧
     bit_is_set bm (find_free_block bm) = false ∧
     ∀ j, 10 <= j < find_free_block bm → bit_is_set bm j = true).
Proof.
  assert (∀ n i,
    (find_free_block_from n i bm = -1 ∧
     ∀ j, i <= j < i + Z.of_nat n → bit_is_set bm j = true)
    ∨ (i <= find_free_block_from n i bm < i + Z.of_nat n ∧
       bit_is_set bm (find_free_block_from n i bm) = false ∧
       ∀ j, i <= j < find_free_block_from n i bm → bit_is_set bm j = true))
    as Hgen.
  { induction n as [|n IH]; intros i; simpl.
    - left. split; [done|]. intros j Hj. lia.
    - destruct (bit_is_set bm i) eqn:Hs; simpl.
      + destruct (IH (i + 1)) as [[Hr Hall] | (Hr & Hc & Hlow)].
        * left. split; [done|]. intros j Hj.
          destruct (decide (j = i)) as [->|]; [done|]. apply Hall. lia.
        * right. split_and!; [lia|lia|done|]. intros j Hj.
          destruct (decide (j = i)) as [->|]; [done|]. apply Hlow. lia.
      + right. split_and!; [lia|lia|done|]. intros j Hj. lia. }
  unfold find_free_block.
  destruct (Hgen (Z.to_nat (MAX_BLOCKS - 10)) 10) as [[Hr Hall] | (Hr & Hc & Hlow)].
  - left. split; [done|]. intros j Hj. apply Hall. lia.
  - right. split_and!; [lia|lia|done|done].
Qed.

Lemma land_255 v : 0 <= v < 256 → Z.land v 255 = v.
Proof.
  intros Hv. change 255 with (Z.ones 8). rewrite Z.land_ones by lia.
  apply Z.mod_small. change (2 ^ 8) with 256. lia.
Qed.

Lemma land_255_range v : 0 <= Z.land v 255 < 256.
Proof.
  change 255 with (Z.ones 8). rewrite Z.land_ones by lia.
  change (2 ^ 8) with 256. apply Z.mod_pos_bound. lia.
Qed.

(** On a bitmap of BLOCK_SIZE bytes and a block index that has a bit in
    it, mark_block_used sets the bit of that block and no other,
    mark_block_free clears it again and no other, and the two together
    give back the bitmap they started from when the bit was clear. *)
Theorem mark_block_roundtrip b bm :
  length bm = Z.to_nat BLOCK_SIZE → bitmap_bytes bm →
  0 <= b < 8 * BLOCK_SIZE →
  ∃ bm1 bm2,
    mark_block_used b bm = Done bm1 ∧ mark_block_free b bm1 = Done bm2 ∧
    bitmap_bytes bm1 ∧ bitmap_bytes bm2 ∧
    bit_is_set bm1 b = true ∧ bit_is_set bm2 b = false ∧
    (∀ i, 0 <= i → i ≠ b →
       bit_is_set bm1 i = bit_is_set bm i ∧
       bit_is_set bm2 i = bit_is_set bm i) ∧
    (bit_is_set bm b = false → bm2 = bm).
Proof.
  intros Hlen Hbytes Hb.
  assert (b / 8 < BLOCK_SIZE) as Hq by (apply Z.div_lt_upper_bound; lia).
  assert (0 <= b / 8) as Hq0 by (apply Z.div_pos; lia).
  assert (Z.to_nat (b / 8) < length bm)%nat as Hidx by lia.
  destruct (update_bitmap_byte_succeeds b (λ v m, Z.lor v m) bm)
    as [bm1 Hu1]; [lia|done|done|].
  assert (mark_block_used b bm = Done bm1) as Hm1 by exact Hu1.
  pose proof (mark_block_used_Done _ _ _ Hm1) as (_ & _ & Hlen1 & Hbits1).
  destruct (update_bitmap_byte_succeeds b (λ v m, Z.land v (Z.lnot m)) bm1)
    as [bm2 Hu2]; [lia|done|lia|].
  assert (mark_block_free b bm1 = Done bm2) as Hm2 by exact Hu2.
  pose proof (mark_block_free_Done _ _ _ Hm2) as (_ & _ & Hlen2 & Hbits2).
  apply update_bitmap_byte_Done in Hu1 as (_ & _ & v & Hv & Hbm1).
  apply update_bitmap_byte_Done in Hu2 as (_ & _ & v1 & Hv1 & Hbm2).
  exists bm1, bm2.
  assert (bitmap_bytes bm1) as Hbytes1.
  { rewrite Hbm1. apply Forall_insert; [done|]. apply land_255_range. }
  split_and!; try done.
  - rewrite Hbm2. apply Forall_insert; [done|]. apply land_255_range.
  - rewrite Hbits1 by lia. by rewrite bool_decide_eq_true_2.
  - rewrite Hbits2 by lia. by rewrite bool_decide_eq_true_2.
  - intros i Hi Hne. rewrite Hbits2, Hbits1 by done.
    by rewrite bool_decide_eq_false_2.
  - intros Hclear. rewrite bit_is_set_spec, Hv in Hclear by lia.
    simpl in Hclear.
    assert (0 <= v < 256) as Hvr.
    { unfold bitmap_bytes in Hbytes. rewrite Forall_lookup in Hbytes.
      by apply (Hbytes _ _ Hv). }
    rewrite Hbm1, list_lookup_insert_eq in Hv1 by done.
    injection Hv1 as <-.
    rewrite Hbm2, Hbm1, list_insert_insert_eq.
    apply list_insert_id. rewrite Hv. f_equal. symmetry.
    pose proof (Z.mod_pos_bound b 8 ltac:(lia)) as Hr.
    apply Z.bits_inj'. intros n Hn.
    transitivity (Z.testbit (Z.land v 255) n); [|by rewrite land_255].
    rewrite !Z.land_spec, Z.lor_spec, Z.lnot_spec, Z.pow2_bits_eqb by lia.
    destruct (Z.eqb_spec (b mod 8) n) as [<-|_].
    + rewrite Hclear. simpl. by rewrite andb_false_r.
    + simpl. rewrite orb_false_r, andb_true_r.
      by destruct (Z.testbit v n), (Z.testbit 255 n).
Qed.

(** *** Formatting and mounting *)

(** fs_format returns -1 and changes nothing when the image file cannot
    be created.  Otherwise it returns 0, keeps [disk_fd] and the open
    descriptors as they were, and leaves in the globals and in the image
    a superblock with [MAX_BLOCKS - 10] free blocks and MAX_FILES free
    inodes, a bitmap of BLOCK_SIZE bytes in which exactly the blocks 0 to
    9 are marked, and an inode table without a used slot; the file is
    [MAX_BLOCKS * BLOCK_SIZE] bytes long and its data reads as zero. *)
Theorem format_layout path s w :
  (creatable w path = false → fs_format path s w = Done (-1, s, w)) ∧
  (creatable w path = true →
   ∃ bm f s' w',
     fs_format path s w = Done (0, s', w') ∧
     s' = {| sb := fresh_sb; inode_table := fresh_table;
             block_bitmap := bm; disk_fd := disk_fd s |} ∧
     files w' = <[path := f]> (files w) ∧ fds w' = fds w ∧
     f_sb f = Full fresh_sb ∧ f_bitmap f = Full bm ∧
     f_inodes f = Full fresh_table ∧
     free_blocks fresh_sb = MAX_BLOCKS - 10 ∧
     length bm = Z.to_nat BLOCK_SIZE ∧
     (∀ j, 0 <= j → bit_is_set bm j = bool_decide (j < 10)) ∧
     (∀ ino, ino ∈ fresh_table → i_used ino = false) ∧
     f_len f = MAX_BLOCKS * BLOCK_SIZE ∧ (∀ o, f_data f o = Byte.x00)).
Proof.
  split.
  - intros Hc. unfold fs_format, sys_open_trunc. by rewrite Hc.
  - intros Hc. unfold fs_format, sys_open_trunc. rewrite Hc.
    pose proof (lowest_unused_nonneg (fds w)) as Hfd.
    pose proof (lowest_unused_fresh (fds w)) as Hfresh.
    set (fd := lowest_unused (fds w)) in *.
    destruct (Z.ltb_spec fd 0) as [|_]; [lia|].
    destruct geometry_bounds
      as (H1 & H2 & H3 & H4 & H5 & H6 & H7 & H8 & H9 & H10 & H11 & H12 & H13).
    destruct (mark_reserved_succeeds 10 0 (replicate (Z.to_nat BLOCK_SIZE) 0))
      as [bm Hbm]; [lia|lia|by rewrite length_replicate|].
    rewrite Hbm. simpl.
    apply mark_reserved_Done in Hbm as [Hlen Hbits]; [|lia].
    unfold sys_write_sb, sys_write_bitmap, sys_write_inodes, sys_pwrite_zeros.
    rewrite !with_file_compose.
    erewrite with_file_open;
      [| simpl; apply lookup_insert_eq | simpl; apply lookup_insert_eq].
    unfold sys_close. simpl.
    eexists bm, _, _, _. split; [reflexivity|]. simpl.
    split_and!.
    + done.
    + apply insert_insert_eq.
    + rewrite delete_insert_eq. by apply delete_id.
    + done.
    + done.
    + done.
    + apply wrap_id. lia.
    + by rewrite Hlen, length_replicate.
    + intros j Hj. rewrite Hbits, bit_is_set_zeros by done. simpl.
      apply bool_decide_ext. lia.
    + intros ino Hin. by apply elem_of_replicate in Hin as [-> _].
    + simpl. rewrite !wrap_id by lia. lia.
    + intros o. simpl. destruct (_ && _); [done|]. by destruct (_ <=? _).
Qed.

(** fs_mount has two results only, 0 and -1.  When it fails, the files
    and the open descriptors are what they were, a session that was not
    mounted is still not mounted, and a session that was mounted, or an
    image file that does not exist, leaves the globals untouched. *)
Theorem mount_failure_clean path s w r s' w' :
  fs_mount path s w = (r, s', w') → r ≠ 0 →
  r = -1 ∧ w' = w ∧
  (disk_fd s = -1 → disk_fd s' = -1) ∧
  (disk_fd s ≠ -1 ∨ files w !! path = None → s' = s).
Proof.
  rewrite fs_mount_mounted.
  destruct (Z.eqb_spec (disk_fd s) (-1)) as [Hfd|Hfd]; simpl.
  2:{ intros [= <- <- <-] _. split_and!; try done. }
  assert (set_disk_fd (-1) s = s) as Hsame.
  { destruct s as [b t m d]. simpl in Hfd. by subst d. }
  destruct (files w !! path) as [f|] eqn:Hf.
  2:{ intros [= <- <- <-] _. rewrite Hsame. split_and!; try done. }
  assert (∀ x, mount_fail x
                 {| files := files w;
                    fds := <[lowest_unused (fds w) := path]> (fds w);
                    creatable := creatable w |} = (r, s', w') →
               disk_fd x = lowest_unused (fds w) →
               r = -1 ∧ w' = w ∧ (disk_fd s = -1 → disk_fd s' = -1)
               ∧ (disk_fd s ≠ -1 ∨ Some f = None → s' = s)) as Hfail.
  { intros x Hx Hxfd. unfold mount_fail in Hx. rewrite Hxfd in Hx.
    rewrite close_after_open in Hx. injection Hx as <- <- <-.
    split_and!; try done. by intros [?|?]. }
  simpl.
  destruct (f_sb f) as [sb'|p]; [|by intros Hx _; apply (Hfail _ Hx)].
  destruct (negb (total_blocks sb' =? MAX_BLOCKS)
            || negb (block_size sb' =? BLOCK_SIZE)
            || negb (total_inodes sb' =? MAX_FILES));
    [by intros Hx _; apply (Hfail _ Hx)|].
  destruct (f_bitmap f) as [bm|p]; [|by intros Hx _; apply (Hfail _ Hx)].
  destruct (f_inodes f) as [tbl|p]; [|by intros Hx _; apply (Hfail _ Hx)].
  by intros [= <- <- <-] ?.
Qed.




(** A freshly formatted image mounts, and the mounted session is
    consistent and empty: all data blocks and all inodes are free, no
    name is in use, and fs_list finds nothing. *)
Theorem format_then_mount path s w :
  disk_fd s = -1 → creatable w path = true →
  ∃ s1 w1 s2 w2,
    fs_format path s w = Done (0, s1, w1) ∧
    fs_mount path s1 w1 = (0, s2, w2) ∧
    session_ok s2 ∧ disk_fd s2 ≠ -1 ∧
    free_blocks (sb s2) = MAX_BLOCKS - 10 ∧ free_inodes (sb s2) = MAX_FILES ∧
    (∀ fname, ¬ name_in_use (inode_table s2) fname) ∧
    ∀ rows, MAX_FILES <= Z.of_nat (length rows) →
      fs_list (Some rows) MAX_FILES s2 = Done (0, Some rows).
Proof.
  intros Hfd Hc.
  destruct (fs_format_succeeds path s w Hc) as (s1 & w1 & Hfmt).
  pose proof (fs_format_Done0 _ _ _ _ _ Hfmt)
    as (bm & f & Hbm & Hs1 & Hf & Hsb & Hbits & Htbl).
  assert (disk_fd s1 = -1) as Hfd1 by (by rewrite Hs1).
  pose proof (fs_mount_succeeds path s1 w1 f fresh_sb bm fresh_table
                Hfd1 Hf Hsb Hbits Htbl eq_refl eq_refl eq_refl) as Hmnt.
  pose proof (fresh_session_ok bm (lowest_unused (fds w1)) Hbm) as Hok.
  destruct geometry_bounds
    as (H1 & H2 & H3 & H4 & H5 & H6 & H7 & H8 & H9 & H10 & H11 & H12 & H13).
  eexists s1, w1, _, _. split; [done|]. split; [exact Hmnt|].
  split; [exact Hok|]. simpl.
  pose proof (lowest_unused_nonneg (fds w1)).
  split_and!.
  - lia.
  - apply wrap_id. lia.
  - done.
  - intros fname. apply fresh_table_unused.
  - intros rows Hrows. unfold fs_list. simpl.
    destruct (Z.eqb_spec (lowest_unused (fds w1)) (-1)) as [|_]; [lia|].
    destruct (Z.leb_spec MAX_FILES 0) as [|_]; [lia|].
    rewrite Z.ltb_irrefl. simpl.
    rewrite list_loop_spec by lia. simpl.
    unfold listed_names, fresh_table.
    rewrite filter_none.
    2:{ intros x Hx. apply elem_of_replicate in Hx as [-> _]. simpl. tauto. }
    simpl. rewrite take_nil. simpl. by rewrite drop_0.
Qed.

(** fs_format does not look at the mount state: called on a mounted
    session it keeps [disk_fd] but replaces the superblock, the bitmap
    and the inode table in memory by fresh ones, so that every file of
    the mounted session is gone from it. *)
Theorem format_while_mounted path s w :
  disk_fd s ≠ -1 → creatable w path = true →
  ∃ s' w',
    fs_format path s w = Done (0, s', w') ∧
    disk_fd s' = disk_fd s ∧
    sb s' = fresh_sb ∧ inode_table s' = fresh_table ∧
    (∀ fname, ¬ name_in_use (inode_table s') fname) ∧
    ∀ fname buf size, valid_name fname → 0 < size →
      fs_read (Some fname) (Some buf) size s' w' = Done (-1, []).
Proof.
  intros Hfd Hc.
  destruct (fs_format_succeeds path s w Hc) as (s' & w' & Hfmt).
  pose proof (fs_format_Done0 _ _ _ _ _ Hfmt)
    as (bm & f & Hbm & Hs' & _).
  exists s', w'. split; [done|]. rewrite Hs'. simpl.
  split_and!; try done.
  - intros fname. apply fresh_table_unused.
  - intros fname buf size Hv Hsize. unfold fs_read, valid_name in *. simpl.
    destruct (Z.eqb_spec (disk_fd s) (-1)) as [|_]; [done|].
    destruct (Z.leb_spec size 0) as [|_]; [lia|]. simpl.
    destruct (Z.leb_spec MAX_FILENAME (Z.of_nat (String.length fname)))
      as [|_]; [lia|].
    assert (find_inode fresh_table fname = -1) as ->; [|done].
    apply find_inode_absent; [done|]. apply fresh_table_unused.
Qed.

(** *** Creating and deleting *)

Lemma fs_create_Done0 filename s s' :
  fs_create filename s = (0, s') →
  ∃ fname k old,
    filename = Some fname ∧ disk_fd s ≠ -1 ∧ valid_name fname ∧
    find_inode (inode_table s) fname = -1 ∧
    find_free_inode (inode_table s) = Z.of_nat k ∧
    inode_table s !! k = Some old ∧ i_used old = false ∧
    s' = {| sb := set_free_inodes (wrap (free_inodes (sb s) - 1)) (sb s);
            inode_table :=
              <[k := {| i_used := true; i_name := fname; i_size := 0;
                        i_blocks := replicate (Z.to_nat MAX_DIRECT_BLOCKS) 0 |}]>
                (inode_table s);
            block_bitmap := block_bitmap s;
            disk_fd := disk_fd s |}.
Proof.
  unfold fs_create. intros Hrun.
  destruct (Z.eqb_spec (disk_fd s) (-1)) as [|Hfd]; [done|].
  destruct filename as [fname|]; [|done].
  destruct (Z.leb_spec MAX_FILENAME (Z.of_nat (String.length fname)))
    as [|Hv]; [done|].
  destruct (Z.eqb_spec (find_inode (inode_table s) fname) (-1)) as [Hnone|];
    [|done].
  simpl in Hrun.
  destruct (Z.eqb_spec (find_free_inode (inode_table s)) (-1)) as [|Hfree];
    [done|].
  destruct (find_free_inode_from_found (inode_table s) 0 ltac:(lia) Hfree)
    as (k & old & Hidx & Hk & Hunused).
  unfold find_free_inode in *. rewrite Hidx in Hrun.
  replace (Z.to_nat (0 + Z.of_nat k)) with k in Hrun by lia.
  rewrite (strncpy_term_valid fname Hv) in Hrun.
  injection Hrun as <-.
  exists fname, k, old. split_and!; auto; lia.
Qed.

Lemma fs_create_failed filename s r s' :
  fs_create filename s = (r, s') → r ≠ 0 → s' = s.
Proof.
  unfold fs_create.
  destruct (disk_fd s =? -1); [by intros [= <- <-]|].
  destruct filename as [fname|]; [|by intros [= <- <-]].
  destruct (MAX_FILENAME <=? Z.of_nat (String.length fname));
    [by intros [= <- <-]|].
  destruct (negb (find_inode (inode_table s) fname =? -1));
    [by intros [= <- <-]|].
  destruct (find_free_inode (inode_table s) =? -1); [by intros [= <- <-]|].
  by intros [= <- _] ?.
Qed.

Lemma fs_delete_Done0 filename s s' :
  fs_delete filename s = Done (0, s') →
  ∃ fname k ino blks bm fb,
    filename = Some fname ∧ disk_fd s ≠ -1 ∧ valid_name fname ∧
    find_inode (inode_table s) fname = Z.of_nat k ∧
    inode_table s !! k = Some ino ∧ i_used ino = true ∧
    i_name ino = fname ∧
    release_blocks (i_blocks ino) (block_bitmap s) (free_blocks (sb s))
      = Done (blks, bm, fb) ∧
    s' = {| sb := set_free_inodes (wrap (free_inodes (sb s) + 1))
                    (set_free_blocks fb (sb s));
            inode_table :=
              <[k := {| i_used := false; i_name := EmptyString; i_size := 0;
                        i_blocks := blks |}]> (inode_table s);
            block_bitmap := bm;
            disk_fd := disk_fd s |}.
Proof.
  unfold fs_delete. intros Hrun.
  destruct (Z.eqb_spec (disk_fd s) (-1)) as [|Hfd]; [done|].
  destruct filename as [fname|]; [|done].
  destruct (Z.leb_spec MAX_FILENAME (Z.of_nat (String.length fname)))
    as [|Hv]; [done|].
  destruct (Z.eqb_spec (find_inode (inode_table s) fname) (-1)) as [|Hfound];
    [done|].
  destruct (find_inode_found _ _ Hfound) as (k & ino & Hidx & Hk & Hu & Hm).
  apply (strncmp_eq0_valid _ _ _ Hv) in Hm.
  rewrite Hidx, Nat2Z.id, Hk in Hrun.
  destruct (release_blocks _ _ _) as [[[blks bm] fb]|] eqn:Hrel; [|done].
  simpl in Hrun. injection Hrun as <-.
  exists fname, k, ino, blks, bm, fb. split_and!; auto.
Qed.

Lemma fs_delete_failed filename s r s' :
  fs_delete filename s = Done (r, s') → r ≠ 0 → s' = s.
Proof.
  unfold fs_delete.
  destruct (disk_fd s =? -1); [by intros [= <- <-]|].
  destruct filename as [n|]; [|by intros [= <- <-]].
  destruct (MAX_FILENAME <=? Z.of_nat (String.length n));
    [by intros [= <- <-]|].
  destruct (find_inode (inode_table s) n =? -1); [by intros [= <- <-]|].
  destruct (inode_table s !! _); [|done].
  destruct (release_blocks _ _ _) as [[[blks bm] fb]|]; [|done].
  simpl. by intros [= <- _] ?.
Qed.

Lemma find_inode_insert_new tbl k new fname :
  find_inode tbl fname = -1 → (k < length tbl)%nat →
  i_used new = true → strncmp_eq0 (i_name new) fname MAX_FILENAME = true →
  find_inode (<[k := new]> tbl) fname = Z.of_nat k.
Proof.
  intros Hnone Hk Hu Hm.
  assert (∀ l i j, 0 <= i → find_inode_from i l fname = -1 →
            (j < length l)%nat →
            find_inode_from i (<[j := new]> l) fname = i + Z.of_nat j) as Hgen.
  { induction l as [|a l IH]; intros i j Hi Hf Hj; simpl in *; [lia|].
    destruct (i_used a && strncmp_eq0 (i_name a) fname MAX_FILENAME) eqn:Ht;
      [lia|].
    destruct j as [|j]; simpl.
    - rewrite Hu, Hm. simpl. lia.
    - rewrite Ht. rewrite IH by (done || lia). lia. }
  unfold find_inode in *. rewrite Hgen by (done || lia). lia.
Qed.

Lemma used_count_all tbl :
  (∀ ino, ino ∈ tbl → i_used ino = true) →
  used_count tbl = Z.of_nat (length tbl).
Proof.
  intros Hall. unfold used_count. rewrite filter_all; [done|].
  intros x Hx. apply Is_true_true. by apply Hall.
Qed.

Lemma used_count_lt tbl k ino :
  tbl !! k = Some ino → i_used ino = false →
  used_count tbl < Z.of_nat (length tbl).
Proof.
  intros Hk Hu.
  pose proof (used_count_insert tbl k ino
                {| i_used := true; i_name := EmptyString; i_size := 0;
                   i_blocks := [] |} Hk) as Hins.
  rewrite Hu in Hins. simpl in Hins.
  pose proof (used_count_bounds
                (<[k := {| i_used := true; i_name := EmptyString; i_size := 0;
                           i_blocks := [] |}]> tbl)) as Hb.
  rewrite length_insert in Hb. lia.
Qed.

(** *** Names *)

Lemma names_unique_insert tbl k new :
  names_unique tbl →
  (i_used new = true →
   valid_name (i_name new) ∧
   ∀ j x, j ≠ k → tbl !! j = Some x → i_used x = true →
          i_name x ≠ i_name new) →
  names_unique (<[k := new]> tbl).
Proof.
  intros [Hvalid Huniq] Hnew. split.
  - intros ino Hin Hu. apply list_elem_of_lookup in Hin as [j Hj].
    apply list_lookup_insert_Some in Hj as [(-> & -> & _) | [Hne Hj]].
    + by apply Hnew.
    + apply Hvalid; [|done]. apply list_elem_of_lookup. eauto.
  - intros i j a b Hi Hj Hua Hub Hn.
    apply list_lookup_insert_Some in Hi as [(-> & -> & _) | [Hnei Hi]];
      apply list_lookup_insert_Some in Hj as [(-> & -> & _) | [Hnej Hj]].
    + done.
    + destruct (Hnew Hua) as [_ Hother].
      exfalso. by apply (Hother j b).
    + destruct (Hnew Hub) as [_ Hother].
      exfalso. by apply (Hother i a).
    + by apply (Huniq i j a b).
Qed.

Lemma names_unique_fresh : names_unique fresh_table.
Proof.
  split.
  - intros ino Hin Hu. by apply elem_of_replicate in Hin as [-> _].
  - intros i j a b Hi _ Hu. by apply lookup_replicate in Hi as [-> _].
Qed.

Lemma reachable_names s w : reachable s w → names_unique (inode_table s).
Proof.
  induction 1 as [path s0 w0 s1 w1 s w Hfmt Hmnt
                 | o s w s' w' Hreach IH Hrun].
  - apply fs_format_Done0 in Hfmt
      as (bm0 & f0 & Hbm0 & -> & Hf0 & Hsb0 & Hbits0 & Htbl0).
    apply fs_mount_Done0 in Hmnt
      as (_ & f & sb' & bm & tbl & Hf & Hsb & Hbits & Htbl & _ & _ & _ & -> & ->).
    rewrite Hf0 in Hf. injection Hf as <-.
    rewrite Htbl0 in Htbl. injection Htbl as <-.
    simpl. apply names_unique_fresh.
  - destruct o as [n | n | n d sz | n d sz | b m]; simpl in Hrun.
    + injection Hrun as <- <-.
      destruct (fs_create n s) as [r s1] eqn:Hcr. simpl.
      destruct (decide (r = 0)) as [->|Hr].
      * apply fs_create_Done0 in Hcr
          as (fname & k & old & -> & _ & Hv & Hnone & _ & Hk & _ & ->).
        simpl. apply names_unique_insert; [done|]. simpl. intros _.
        split; [done|]. intros j x _ Hj Hu Hn.
        apply (find_inode_absent _ _ Hv) in Hnone. apply Hnone.
        exists x. split_and!; auto. apply list_elem_of_lookup. eauto.
      * by rewrite (fs_create_failed _ _ _ _ Hcr Hr).
    + destruct (fs_delete n s) as [[r s1]|] eqn:Hdel; [|done].
      simpl in Hrun. injection Hrun as <- <-.
      destruct (decide (r = 0)) as [->|Hr].
      * apply fs_delete_Done0 in Hdel
          as (fname & k & ino & blks & bm & fb & _ & _ & _ & _ & _ & _ & _ & _ & ->).
        simpl. by apply names_unique_insert.
      * by rewrite (fs_delete_failed _ _ _ _ Hdel Hr).
    + destruct (fs_write n d sz s w) as [[[r s1] w1]|] eqn:Hwr; [|done].
      simpl in Hrun. injection Hrun as <- <-.
      destruct (decide (r = 0)) as [->|Hr].
      * apply fs_write_Done0 in Hwr
          as (fname & bytes & k & ino & blks1 & bm1 & fb1 & bm2 & fb2 & blks2
              & _ & _ & _ & _ & _ & _ & Hk & Hu & _ & _ & _ & ->).
        simpl. destruct IH as [Hvalid Huniq].
        apply names_unique_insert; [done|]. simpl. intros _. split.
        -- apply Hvalid; [|done]. apply list_elem_of_lookup. eauto.
        -- intros j x Hne Hj Hux Hn. apply Hne.
           by apply (Huniq j k x ino).
      * by apply fs_write_failed in Hwr as [-> _].
    + destruct (fs_read n d sz s w); [|done].
      simpl in Hrun. by injection Hrun as <- <-.
    + destruct (fs_list b m s); [|done].
      simpl in Hrun. by injection Hrun as <- <-.
Qed.

(** In every state reachable from a freshly formatted and mounted image
    the used inodes bear names shorter than MAX_FILENAME, no two of them
    bear the same name, and find_inode finds each used inode under its
    own name: no file is hidden behind another one. *)
Theorem names_unique_invariant s w :
  reachable s w →
  names_unique (inode_table s) ∧
  ∀ k ino, inode_table s !! k = Some ino → i_used ino = true →
    find_inode (inode_table s) (i_name ino) = Z.of_nat k.
Proof.
  intros Hreach. pose proof (reachable_names s w Hreach) as Hnames.
  split; [done|]. destruct Hnames as [Hvalid Huniq].
  intros k ino Hk Hu.
  assert (ino ∈ inode_table s) as Hin by (apply list_elem_of_lookup; eauto).
  pose proof (Hvalid ino Hin Hu) as Hv.
  assert (name_in_use (inode_table s) (i_name ino)) as Huse
    by (exists ino; done).
  pose proof (name_in_use_found _ _ Hv Huse) as Hfound.
  destruct (find_inode_found _ _ Hfound) as (k' & ino' & -> & Hk' & Hu' & Hm).
  apply (strncmp_eq0_valid _ _ _ Hv) in Hm.
  f_equal. by apply (Huniq k' k ino' ino).
Qed.

(** fs_create returns -3 when the session is not mounted, the name is
    null or the name is as long as MAX_FILENAME or longer; else -1 when
    a used inode bears the name; else -2 when every inode is in use.
    Whenever the result is not 0 the session is unchanged. *)
Theorem create_status filename s :
  (disk_fd s = -1 → fs_create filename s = (-3, s)) ∧
  (filename = None
   ∨ (∃ n, filename = Some n ∧ MAX_FILENAME <= Z.of_nat (String.length n)) →
   fs_create filename s = (-3, s)) ∧
  (∀ n, disk_fd s ≠ -1 → filename = Some n → valid_name n →
        name_in_use (inode_table s) n →
        fs_create filename s = (-1, s)) ∧
  (∀ n, disk_fd s ≠ -1 → filename = Some n → valid_name n →
        ¬ name_in_use (inode_table s) n →
        (∀ ino, ino ∈ inode_table s → i_used ino = true) →
        fs_create filename s = (-2, s)) ∧
  (∀ r s', fs_create filename s = (r, s') → r ≠ 0 → s' = s).
Proof.
  split_and!.
  - intros Hfd. unfold fs_create. by rewrite Hfd.
  - intros Hbad. unfold fs_create.
    destruct (disk_fd s =? -1); [done|].
    destruct Hbad as [-> | (n & -> & Hlen)]; [done|].
    by destruct (Z.leb_spec MAX_FILENAME (Z.of_nat (String.length n))); [|lia].
  - intros n Hfd -> Hv Huse. unfold fs_create, valid_name in *.
    destruct (Z.eqb_spec (disk_fd s) (-1)) as [|_]; [done|].
    destruct (Z.leb_spec MAX_FILENAME (Z.of_nat (String.length n)))
      as [|_]; [lia|].
    pose proof (name_in_use_found _ _ Hv Huse) as Hfound.
    by destruct (Z.eqb_spec (find_inode (inode_table s) n) (-1)).
  - intros n Hfd -> Hv Hnew Hfull. unfold fs_create, valid_name in *.
    destruct (Z.eqb_spec (disk_fd s) (-1)) as [|_]; [done|].
    destruct (Z.leb_spec MAX_FILENAME (Z.of_nat (String.length n)))
      as [|_]; [lia|].
    apply (find_inode_absent _ _ Hv) in Hnew. rewrite Hnew. simpl.
    destruct (Z.eqb_spec (find_free_inode (inode_table s)) (-1)) as [|Hfree];
      [done|].
    destruct (find_free_inode_from_found (inode_table s) 0 ltac:(lia) Hfree)
      as (k & old & _ & Hk & Hunused).
    rewrite Hfull in Hunused; [done|]. apply list_elem_of_lookup. eauto.
  - apply fs_create_failed.
Qed.

(** On a consistent mounted session the free-inode counter decides
    whether a new file can be created: a valid name that is not in use
    is created, taking one inode, as long as the counter is positive, and
    is turned down with -2 when the counter is 0. *)
Theorem create_capacity fname s :
  session_ok s → disk_fd s ≠ -1 → valid_name fname →
  ¬ name_in_use (inode_table s) fname →
  (0 < free_inodes (sb s) →
   ∃ s', fs_create (Some fname) s = (0, s') ∧
         free_inodes (sb s') = free_inodes (sb s) - 1 ∧
         name_in_use (inode_table s') fname) ∧
  (free_inodes (sb s) <= 0 → fs_create (Some fname) s = (-2, s)).
Proof.
  intros Hok Hfd Hv Hnew.
  pose proof (ok_free_inodes s Hok) as Hsum.
  pose proof (ok_table_len s Hok) as Hlen.
  pose proof (session_ok_free_inodes s Hok) as Hfi.
  destruct geometry_bounds
    as (H1 & H2 & H3 & H4 & H5 & H6 & H7 & H8 & H9 & H10 & H11 & H12 & H13).
  split.
  - intros Hpos.
    assert (find_free_inode (inode_table s) ≠ -1) as Hfree.
    { intros Hnone.
      apply (find_free_inode_from_miss _ 0 ltac:(lia)) in Hnone.
      rewrite Forall_forall in Hnone.
      pose proof (used_count_all _ Hnone). lia. }
    destruct (fs_create_succeeds fname s Hfd Hv Hnew Hfree)
      as (s' & Hrun & Huse & _).
    exists s'. split; [done|]. split; [|done].
    apply fs_create_Done0 in Hrun as (? & ? & ? & _ & _ & _ & _ & _ & _ & _ & ->).
    simpl. apply wrap_id. lia.
  - intros Hzero. unfold fs_create, valid_name in *.
    destruct (Z.eqb_spec (disk_fd s) (-1)) as [|_]; [done|].
    destruct (Z.leb_spec MAX_FILENAME (Z.of_nat (String.length fname)))
      as [|_]; [lia|].
    apply (find_inode_absent _ _ Hv) in Hnew. rewrite Hnew. simpl.
    destruct (Z.eqb_spec (find_free_inode (inode_table s)) (-1)) as [|Hfree];
      [done|].
    destruct (find_free_inode_from_found (inode_table s) 0 ltac:(lia) Hfree)
      as (k & old & _ & Hk & Hunused).
    pose proof (used_count_lt _ _ _ Hk Hunused). lia.
Qed.

(** A file that fs_create has made is there and is empty: its name is in
    use, creating it a second time fails with -1 and changes nothing,
    and reading it returns 0 bytes, which is not an error.  No data
    block is taken: the bitmap and the free-block counter are what they
    were. *)
Theorem created_file_is_empty fname s s' :
  fs_create (Some fname) s = (0, s') →
  name_in_use (inode_table s') fname ∧
  fs_create (Some fname) s' = (-1, s') ∧
  (∀ buf size w, 0 < size →
     fs_read (Some fname) (Some buf) size s' w = Done (0, [])) ∧
  block_bitmap s' = block_bitmap s ∧
  free_blocks (sb s') = free_blocks (sb s).
Proof.
  intros Hrun.
  apply fs_create_Done0 in Hrun
    as (n & k & old & Hn & Hfd & Hv & Hnone & _ & Hk & _ & ->).
  injection Hn as <-.
  set (new := {| i_used := true; i_name := fname; i_size := 0;
                 i_blocks := replicate (Z.to_nat MAX_DIRECT_BLOCKS) 0 |}).
  assert (k < length (inode_table s))%nat as Hlt by (by eapply lookup_lt_Some).
  assert (find_inode (<[k := new]> (inode_table s)) fname = Z.of_nat k) as Hidx.
  { apply find_inode_insert_new; try done. by apply strncmp_eq0_valid. }
  assert (<[k := new]> (inode_table s) !! k = Some new) as Hnew
    by (by apply list_lookup_insert_eq).
  simpl. split_and!; try done.
  - exists new. split_and!; try done. apply list_elem_of_lookup. eauto.
  - unfold fs_create, valid_name in *. simpl.
    destruct (Z.eqb_spec (disk_fd s) (-1)) as [|_]; [done|].
    destruct (Z.leb_spec MAX_FILENAME (Z.of_nat (String.length fname)))
      as [|_]; [lia|].
    fold new. rewrite Hidx.
    by destruct (Z.eqb_spec (Z.of_nat k) (-1)) as [|_]; [lia|].
  - intros buf size w Hsize. unfold fs_read, valid_name in *. simpl.
    destruct (Z.eqb_spec (disk_fd s) (-1)) as [|_]; [done|].
    destruct (Z.leb_spec size 0) as [|_]; [lia|]. simpl.
    destruct (Z.leb_spec MAX_FILENAME (Z.of_nat (String.length fname)))
      as [|_]; [lia|].
    fold new. rewrite Hidx, Nat2Z.id, Hnew.
    destruct (Z.eqb_spec (Z.of_nat k) (-1)) as [|_]; [lia|]. simpl.
    destruct (Z.ltb_spec 0 size) as [_|]; [|lia].
    by destruct (replicate (Z.to_nat MAX_DIRECT_BLOCKS) 0).
Qed.

(** After fs_delete has succeeded on a session whose names are unique,
    the name is not in use any more: deleting it again, reading it and
    writing it all fail with -1 and change nothing, and the name can be
    created again. *)
Theorem delete_then_not_found fname s s' :
  names_unique (inode_table s) →
  fs_delete (Some fname) s = Done (0, s') →
  ¬ name_in_use (inode_table s') fname ∧
  fs_delete (Some fname) s' = Done (-1, s') ∧
  (∀ buf size w, 0 < size →
     fs_read (Some fname) (Some buf) size s' w = Done (-1, [])) ∧
  (∀ bytes size w, 0 < size <= MAX_FILES * BLOCK_SIZE →
     fs_write (Some fname) (Some bytes) size s' w = Done (-1, s', w)) ∧
  ∃ s'', fs_create (Some fname) s' = (0, s'').
Proof.
  intros [_ Huniq] Hrun.
  apply fs_delete_Done0 in Hrun
    as (n & k & ino & blks & bm & fb & Hn & Hfd & Hv & _ & Hk & Hu & Hname
        & _ & ->).
  injection Hn as <-.
  set (cleared := {| i_used := false; i_name := EmptyString; i_size := 0;
                     i_blocks := blks |}).
  assert (k < length (inode_table s))%nat as Hlt by (by eapply lookup_lt_Some).
  assert (¬ name_in_use (<[k := cleared]> (inode_table s)) fname) as Hgone.
  { intros (x & Hx & Hux & Hnx).
    apply list_elem_of_lookup in Hx as [j Hj].
    apply list_lookup_insert_Some in Hj as [(-> & <- & _) | [Hne Hj]]; [done|].
    apply Hne. apply (Huniq k j ino x); congruence. }
  pose proof (proj2 (find_inode_absent _ _ Hv) Hgone) as Hnone.
  simpl. split_and!.
  - done.
  - unfold fs_delete, valid_name in *. simpl.
    destruct (Z.eqb_spec (disk_fd s) (-1)) as [|_]; [done|].
    destruct (Z.leb_spec MAX_FILENAME (Z.of_nat (String.length fname)))
      as [|_]; [lia|].
    fold cleared. by rewrite Hnone.
  - intros buf size w Hsize. unfold fs_read, valid_name in *. simpl.
    destruct (Z.eqb_spec (disk_fd s) (-1)) as [|_]; [done|].
    destruct (Z.leb_spec size 0) as [|_]; [lia|]. simpl.
    destruct (Z.leb_spec MAX_FILENAME (Z.of_nat (String.length fname)))
      as [|_]; [lia|].
    fold cleared. by rewrite Hnone.
  - intros bytes size w Hsize. unfold fs_write, valid_name in *. simpl.
    destruct (Z.eqb_spec (disk_fd s) (-1)) as [|_]; [done|].
    destruct (Z.leb_spec size 0) as [|_]; [lia|]. simpl.
    destruct (Z.leb_spec MAX_FILENAME (Z.of_nat (String.length fname)))
      as [|_]; [lia|].
    rewrite wrap_size_bound.
    destruct (Z.ltb_spec (MAX_FILES * BLOCK_SIZE) size) as [|_]; [lia|].
    fold cleared. by rewrite Hnone.
  - match goal with |- ∃ s'', fs_create _ ?s1 = _ =>
      destruct (fs_create_succeeds fname s1) as (s'' & Hcr & _)
    end; simpl; try done; [|eauto].
    fold cleared. intros Hfull.
    apply (find_free_inode_from_miss _ 0 ltac:(lia)) in Hfull.
    rewrite Forall_lookup in Hfull.
    specialize (Hfull k cleared (list_lookup_insert_eq _ _ _ Hlt)). done.
Qed.


(** *** Writing *)

Ltac write_err Hrun :=
  injection Hrun as <- <- <-; right; split_and!; auto.

(** fs_write returns -3 for a null name or data, an unmounted session, a
    size that is not positive or exceeds [MAX_FILES * BLOCK_SIZE], or a
    name as long as MAX_FILENAME or longer; with valid arguments it
    returns -1 when no used inode bears the name.  Its results are 0, -1,
    -2 and -3 only, and whenever the result is not 0 neither the session
    nor the image file has changed. *)
Theorem write_status filename data size s w :
  (filename = None ∨ data = None ∨ disk_fd s = -1 ∨ size <= 0
   ∨ MAX_FILES * BLOCK_SIZE < size
   ∨ (∃ n, filename = Some n ∧ MAX_FILENAME <= Z.of_nat (String.length n)) →
   fs_write filename data size s w = Done (-3, s, w)) ∧
  (∀ n bytes,
     filename = Some n → data = Some bytes → disk_fd s ≠ -1 →
     valid_name n → 0 < size <= MAX_FILES * BLOCK_SIZE →
     ¬ name_in_use (inode_table s) n →
     fs_write filename data size s w = Done (-1, s, w)) ∧
  (∀ r s' w',
     fs_write filename data size s w = Done (r, s', w') →
     r = 0 ∨ (s' = s ∧ w' = w ∧ (r = -1 ∨ r = -2 ∨ r = -3))).
Proof.
  split_and!.
  - intros Hbad. unfold fs_write.
    destruct filename as [fname|]; [|done].
    destruct data as [bytes|]; [|done].
    destruct (Z.eqb_spec (disk_fd s) (-1)) as [|Hfd]; [done|].
    destruct (Z.leb_spec size 0) as [|Hpos]; [done|]. simpl.
    destruct (Z.leb_spec MAX_FILENAME (Z.of_nat (String.length fname)))
      as [|Hv]; [done|].
    rewrite wrap_size_bound.
    destruct (Z.ltb_spec (MAX_FILES * BLOCK_SIZE) size) as [|Hmax]; [done|].
    destruct Hbad as [?|[?|[?|[?|[?|(n & [= <-] & ?)]]]]]; done || lia.
  - intros n bytes -> -> Hfd Hv Hsize Hnone. unfold fs_write, valid_name in *.
    destruct (Z.eqb_spec (disk_fd s) (-1)) as [|_]; [done|].
    destruct (Z.leb_spec size 0) as [|_]; [lia|]. simpl.
    destruct (Z.leb_spec MAX_FILENAME (Z.of_nat (String.length n)))
      as [|_]; [lia|].
    rewrite wrap_size_bound.
    destruct (Z.ltb_spec (MAX_FILES * BLOCK_SIZE) size) as [|_]; [lia|].
    apply (find_inode_absent _ _ Hv) in Hnone. by rewrite Hnone.
  - intros r s' w' Hrun. unfold fs_write in Hrun.
    destruct filename as [fname|]; [|write_err Hrun].
    destruct data as [bytes|]; [|write_err Hrun].
    destruct ((disk_fd s =? -1) || (size <=? 0)); [write_err Hrun|].
    destruct (MAX_FILENAME <=? Z.of_nat (String.length fname));
      [write_err Hrun|].
    destruct (wrap (MAX_FILES * BLOCK_SIZE) <? size); [write_err Hrun|].
    destruct (find_inode (inode_table s) fname =? -1); [write_err Hrun|].
    destruct (inode_table s !! Z.to_nat (find_inode (inode_table s) fname));
      [|done].
    destruct (free_blocks (sb s) <? _); [write_err Hrun|].
    destruct (release_blocks _ _ _) as [[[blks1 bm1] fb1]|]; [|done].
    simpl in Hrun.
    destruct (alloc_blocks _ _ _ _ _ _ _ _ _ _) as [[[[bm2 fb2] blks2] w2]|];
      [|done].
    simpl in Hrun. injection Hrun as <- _ _. by left.
Qed.


Lemma store_chunk_pad needed size i data b f k :
  (needed - 1) * BLOCK_SIZE < size <= needed * BLOCK_SIZE →
  0 <= i < needed → size <= Z.of_nat (length data) →
  chunk_size needed size i <= k < BLOCK_SIZE →
  f_data (store_chunk i needed size data b f) (b * BLOCK_SIZE + k) = Byte.x00.
Proof.
  intros Hs Hi Hdata Hk.
  pose proof (chunk_size_bounds needed size i Hs Hi) as Hcs.
  unfold store_chunk.
  set (tw := chunk_size needed size i) in *.
  destruct (Z.ltb_spec tw BLOCK_SIZE) as [_|]; [|lia].
  rewrite pwrite_file_in by (rewrite length_replicate; lia).
  rewrite lookup_replicate_2 by lia. done.
Qed.

Lemma store_blocks_pad needed size data newb : ∀ i f j b k,
  (needed - 1) * BLOCK_SIZE < size <= needed * BLOCK_SIZE →
  0 <= i → i + Z.of_nat (length newb) <= needed →
  size <= Z.of_nat (length data) →
  NoDup newb →
  newb !! j = Some b →
  0 <= k < BLOCK_SIZE → size <= (i + Z.of_nat j) * BLOCK_SIZE + k →
  f_data (store_blocks i needed size data newb f) (b * BLOCK_SIZE + k)
  = Byte.x00.
Proof.
  induction newb as [|b0 newb IH]; intros i f j b k Hs Hi Hn Hdata Hnd Hj Hk Hge;
    [done|].
  simpl in Hn. apply NoDup_cons in Hnd as [Hfresh Hnd]. simpl.
  destruct j as [|j]; simpl in Hj.
  - injection Hj as ->.
    pose proof (store_chunk_end needed size i data b f Hs ltac:(lia) Hdata)
      as Hend.
    destruct (store_blocks_frame needed size data newb (i + 1)
                (store_chunk i needed size data b f) (b * BLOCK_SIZE + k))
      as [_ ->]; [done|lia|lia| |lia|].
    { intros x Hx. apply block_ranges_disjoint; [|done]. by intros ->. }
    replace (i + Z.of_nat 0) with i in * by lia.
    apply store_chunk_pad; [done|lia|done|].
    unfold chunk_size. destruct (Z.eqb_spec i (needed - 1)) as [->|Hne]; [lia|].
    assert ((i + 1) * BLOCK_SIZE <= (needed - 1) * BLOCK_SIZE)
      by (apply Z.mul_le_mono_nonneg_r; lia).
    lia.
  - replace (i + Z.of_nat (S j)) with (i + 1 + Z.of_nat j) in Hge by lia.
    by apply (IH (i + 1) _ j b k); [done|lia|lia|done|done|done|done|].
Qed.

(** What a successful fs_write leaves in the image file: the [j]-th
    block of the file is a data block inside the file, it holds the bytes
    [j * BLOCK_SIZE ...] of the data, and the part of the last block
    behind the [size]-th byte is zero. *)
Theorem write_stores_data fname bytes size s w s' w' f :
  session_ok s → fd_file (disk_fd s) w = Some f →
  size <= Z.of_nat (length bytes) →
  fs_write (Some fname) (Some bytes) size s w = Done (0, s', w') →
  ∃ k new f',
    find_inode (inode_table s) fname = Z.of_nat k ∧
    inode_table s' !! k = Some new ∧
    fd_file (disk_fd s') w' = Some f' ∧
    ∀ j b o,
      i_blocks new !! j = Some b → b ≠ 0 → 0 <= o < BLOCK_SIZE →
      10 <= b < MAX_BLOCKS ∧ (b + 1) * BLOCK_SIZE <= f_len f' ∧
      f_data f' (b * BLOCK_SIZE + o)
      = if Z.of_nat j * BLOCK_SIZE + o <? size
        then default Byte.x00 (bytes !! Z.to_nat (Z.of_nat j * BLOCK_SIZE + o))
        else Byte.x00.
Proof.
  intros Hok Hf Hdata Hrun.
  pose proof (fs_write_effect _ _ _ _ _ _ _ Hok Hrun)
    as (fname' & bytes' & k & ino & newb & Hn & Hb & Hfd & Hv & Hsize & Hidx
        & Hk & Hu & Hlen & Hmax & Hnd & Hnew & Htbl & Hfd' & Hw & Hok').
  injection Hn as <-. injection Hb as <-.
  assert (0 < size) as Hpos by lia.
  pose proof (blocks_for_pos size Hpos) as Hnpos.
  pose proof (blocks_for_bounds size) as Hnb.
  eexists k, _, _. split; [done|]. split.
  { rewrite Htbl. apply list_lookup_insert_eq. by eapply lookup_lt_Some. }
  split.
  { rewrite Hfd', Hw, fd_file_with_file, Hf. done. }
  simpl. intros j b o Hj Hb0 Ho.
  assert (newb !! j = Some b) as Hjb.
  { destruct (decide (j < length newb)%nat) as [Hlt|Hge].
    - by rewrite lookup_app_l in Hj by done.
    - rewrite lookup_app_r in Hj by lia.
      apply lookup_replicate_1 in Hj as [-> _]. done. }
  destruct (Hnew b) as [Hrange _]; [apply list_elem_of_lookup; eauto|].
  split; [done|].
  pose proof (store_blocks_holds (blocks_for size) size bytes newb 0 f j b o
                Hnb ltac:(lia) ltac:(lia) Hdata Hnd Hjb) as [Hend Hdat].
  split; [done|].
  rewrite Z.add_0_l in Hdat.
  destruct (Z.ltb_spec (Z.of_nat j * BLOCK_SIZE + o) size) as [Hin|Hout].
  - by rewrite (Hdat Ho Hin).
  - apply (store_blocks_pad (blocks_for size) size bytes newb 0 f j b o);
      try done; lia.
Qed.

(** *** Reading *)

Lemma file_holds_prefix f blks data size m n :
  file_holds f blks data size → m <= size →
  file_holds f (take n blks) data m.
Proof.
  intros Hh Hm j b Hj. apply lookup_take_Some in Hj as [Hj _].
  destruct (Hh j b Hj) as (Hr & He & Hd).
  split; [done|]. split; [done|].
  intros k Hk Hlt. apply Hd; [done|lia].
Qed.

(** The read of any positive number of bytes after a successful write:
    fs_read returns the smaller of the number asked for and the size
    written, and that many bytes from the start of the data. *)
Theorem read_back_any_size fname bytes buf size m s w :
  reachable s w →
  valid_name fname → name_in_use (inode_table s) fname →
  0 < size <= MAX_DIRECT_BLOCKS * BLOCK_SIZE →
  size <= Z.of_nat (length bytes) →
  blocks_for size <= free_blocks (sb s) →
  0 < m →
  ∃ s' w',
    fs_write (Some fname) (Some bytes) size s w = Done (0, s', w') ∧
    fs_read (Some fname) (Some buf) m s' w'
    = Done (Z.min m size, take (Z.to_nat (Z.min m size)) bytes).
Proof.
  intros Hreach Hv Huse Hsize Hdata Hfree Hm.
  apply reachable_inv in Hreach as (Hok & Hfd & [f Hf]).
  pose proof (name_in_use_found _ _ Hv Huse) as Hfound.
  destruct (fs_write_succeeds fname bytes size s w Hok Hfd Hv Hfound Hsize Hfree)
    as (s' & w' & Hwrite).
  exists s', w'. split; [done|].
  apply fs_write_effect in Hwrite
    as (fname' & bytes' & k & ino & newb & Hn & Hb & _ & _ & _ & Hidx & Hk & Hu
        & Hlen & Hmax & Hnd & Hnew & Htbl & Hfd' & -> & Hok'); [|done].
  injection Hn as <-. injection Hb as <-.
  assert (0 < size) as Hpos by lia.
  pose proof (blocks_for_pos size Hpos) as Hnpos.
  destruct geometry_bounds
    as (H1 & H2 & H3 & H4 & H5 & H6 & H7 & H8 & H9 & H10 & H11 & H12 & H13).
  set (r := Z.min m size).
  assert (0 < r <= size) as Hr by (unfold r; lia).
  pose proof (blocks_for_pos r ltac:(lia)) as Hrpos.
  assert (blocks_for r <= blocks_for size) as Hmono.
  { apply blocks_for_le; [lia|]. pose proof (blocks_for_bounds size). lia. }
  set (f' := store_blocks 0 (blocks_for size) size bytes newb f).
  assert (file_holds f' newb bytes size) as Hholds.
  { apply file_holds_after_write;
      [apply blocks_for_bounds | lia | done | done |].
    intros b Hin. by apply Hnew. }
  unfold fs_read, valid_name in *.
  rewrite Hfd'.
  destruct (Z.eqb_spec (disk_fd s) (-1)) as [|_]; [done|].
  destruct (Z.leb_spec m 0) as [|_]; [lia|]. simpl.
  destruct (Z.leb_spec MAX_FILENAME (Z.of_nat (String.length fname)))
    as [|_]; [lia|].
  rewrite Htbl, (find_inode_insert_same _ _ ino) by done.
  rewrite Hidx, Nat2Z.id.
  rewrite list_lookup_insert_eq by (by eapply lookup_lt_Some).
  destruct (Z.eqb_spec (Z.of_nat k) (-1)) as [|_]; [lia|]. simpl.
  assert ((if size <? m then size else m) = r) as ->.
  { unfold r. destruct (Z.ltb_spec size m); lia. }
  set (n := Z.to_nat (blocks_for r)).
  assert (∀ zs : list Z, newb ++ zs = take n newb ++ (drop n newb ++ zs))
    as -> by (intros zs; by rewrite (assoc_L (++)), take_drop).
  pose proof (read_blocks_holds f' (take n newb) bytes r (blocks_for r)
                (disk_fd s)
                (with_file (disk_fd s)
                   (store_blocks 0 (blocks_for size) size bytes newb) w)
                (drop n newb ++
                 replicate (Z.to_nat MAX_DIRECT_BLOCKS
                            - Z.to_nat (blocks_for size))%nat 0)) as Hread.
  assert (fd_file (disk_fd s)
            (with_file (disk_fd s)
               (store_blocks 0 (blocks_for size) size bytes newb) w)
          = Some f') as Hf' by (by rewrite fd_file_with_file, Hf).
  assert (file_holds f' (take n newb) bytes r) as Hprefix
    by (apply (file_holds_prefix _ _ _ size); [done|lia]).
  assert (0 < r < 2147483648) as Hrint by lia.
  assert (length (take n newb) = Z.to_nat (blocks_for r)) as Hlenr
    by (rewrite length_take; lia).
  specialize (Hread Hf' Hprefix (blocks_for_bounds r) Hrint Hlenr
                (take n newb) 0%nat eq_refl).
  change (Z.of_nat 0 * BLOCK_SIZE) with 0 in Hread.
  replace (Z.min 0 r) with 0 in Hread by lia.
  exact Hread.
Qed.

Lemma read_blocks_bound blks : ∀ br btr buf fd w r got,
  read_blocks blks br btr buf fd w = Done (r, got) →
  0 <= br → br = Z.of_nat (length buf) → br <= Z.max 0 btr →
  btr < 2147483648 →
  Z.of_nat (length got) <= Z.max 0 btr ∧
  (r = -3 ∨ (r = Z.of_nat (length got) ∧ r <= Z.max 0 btr)).
Proof.
  induction blks as [|b blks IH]; intros br btr buf fd w r got Hrun Hbr Hlen Hle Hint;
    simpl in Hrun.
  { injection Hrun as <- <-. split; [lia|]. right. lia. }
  destruct (Z.ltb_spec br btr) as [Hlt|Hge].
  2:{ injection Hrun as <- <-. split; [lia|]. right. lia. }
  destruct (Z.eqb_spec b 0) as [|Hb].
  { injection Hrun as <- <-. split; [lia|]. right. lia. }
  destruct (data_offset b) as [off|]; [|done]. simpl in Hrun.
  rewrite (wrap_id (btr - br)) in Hrun by lia.
  set (chunk := if btr - br <? BLOCK_SIZE then btr - br else BLOCK_SIZE) in *.
  assert (chunk <= btr - br) as Hchunk.
  { unfold chunk. destruct (Z.ltb_spec (btr - br) BLOCK_SIZE); lia. }
  destruct (sys_pread fd off chunk w) as [n got1] eqn:Hpread.
  assert ((n = -1 ∧ got1 = []) ∨
          (0 <= n <= Z.max 0 chunk ∧ Z.of_nat (length got1) = n)) as Hn.
  { unfold sys_pread in Hpread. destruct (fd_file fd w) as [f|].
    - injection Hpread as <- <-. right.
      rewrite length_fmap, length_seqZ. lia.
    - injection Hpread as <- <-. by left. }
  destruct (Z.ltb_spec n 0) as [Hneg|Hpos].
  { injection Hrun as <- <-. split; [lia|]. by left. }
  destruct Hn as [[-> _]|[Hn Hgot]]; [lia|].
  rewrite (wrap_id (br + n)) in Hrun by lia.
  apply IH in Hrun; [done|lia| |lia|done].
  rewrite length_app. lia.
Qed.

(** fs_read returns -3 for a null name or buffer, an unmounted session,
    a size that is not positive, or a name as long as MAX_FILENAME or
    longer, and -1 when no used inode bears the name.  It never stores
    more than [size] bytes in the buffer, and a result that is not an
    error is the number of bytes stored, at most [size] and at most the
    recorded size of the file. *)
Theorem read_within_buffer filename data size s w :
  (filename = None ∨ data = None ∨ disk_fd s = -1 ∨ size <= 0
   ∨ (∃ n, filename = Some n ∧ MAX_FILENAME <= Z.of_nat (String.length n)) →
   fs_read filename data size s w = Done (-3, [])) ∧
  (∀ n buf,
     filename = Some n → data = Some buf → disk_fd s ≠ -1 → 0 < size →
     valid_name n → ¬ name_in_use (inode_table s) n →
     fs_read filename data size s w = Done (-1, [])) ∧
  (∀ r got,
     size < 2147483648 →
     fs_read filename data size s w = Done (r, got) →
     Z.of_nat (length got) <= Z.max 0 size ∧
     (r = -3 ∨ r = -1
      ∨ (r = Z.of_nat (length got) ∧ r <= size ∧
         ∃ ino, ino ∈ inode_table s ∧ i_used ino = true ∧
                r <= Z.max 0 (i_size ino)))).
Proof.
  split_and!.
  - intros Hbad. unfold fs_read.
    destruct filename as [fname|]; [|done].
    destruct data as [buf|]; [|done].
    destruct (Z.eqb_spec (disk_fd s) (-1)) as [|Hfd]; [done|].
    destruct (Z.leb_spec size 0) as [|Hpos]; [done|]. simpl.
    destruct (Z.leb_spec MAX_FILENAME (Z.of_nat (String.length fname)))
      as [|Hv]; [done|].
    destruct Hbad as [?|[?|[?|[?|(n & [= <-] & ?)]]]]; done || lia.
  - intros n buf -> -> Hfd Hsize Hv Hnone. unfold fs_read, valid_name in *.
    destruct (Z.eqb_spec (disk_fd s) (-1)) as [|_]; [done|].
    destruct (Z.leb_spec size 0) as [|_]; [lia|]. simpl.
    destruct (Z.leb_spec MAX_FILENAME (Z.of_nat (String.length n)))
      as [|_]; [lia|].
    apply (find_inode_absent _ _ Hv) in Hnone. by rewrite Hnone.
  - intros r got Hint Hrun. unfold fs_read in Hrun.
    destruct filename as [fname|];
      [|injection Hrun as <- <-; simpl; split; [lia|auto]].
    destruct data as [buf|];
      [|injection Hrun as <- <-; simpl; split; [lia|auto]].
    destruct (disk_fd s =? -1);
      [injection Hrun as <- <-; simpl; split; [lia|auto]|].
    destruct (Z.leb_spec size 0) as [|Hpos];
      [injection Hrun as <- <-; simpl; split; [lia|auto]|].
    simpl in Hrun.
    destruct (MAX_FILENAME <=? Z.of_nat (String.length fname));
      [injection Hrun as <- <-; simpl; split; [lia|auto]|].
    destruct (Z.eqb_spec (find_inode (inode_table s) fname) (-1)) as [|Hfound];
      [injection Hrun as <- <-; simpl; split; [lia|auto]|].
    destruct (find_inode_found _ _ Hfound) as (k & ino & Hidx & Hk & Hu & _).
    rewrite Hidx, Nat2Z.id, Hk in Hrun.
    set (btr := if i_size ino <? size then i_size ino else size) in *.
    assert (btr <= size ∧ btr <= i_size ino) as [Hb1 Hb2].
    { unfold btr. destruct (Z.ltb_spec (i_size ino) size); lia. }
    apply read_blocks_bound in Hrun as [Hlen Hres]; [|lia|done|lia|lia].
    split; [lia|].
    destruct Hres as [->|[-> Hle]]; [auto|].
    right. right. split; [done|]. split.
    + lia.
    + exists ino. split_and!; [|done|lia].
      apply list_elem_of_lookup. eauto.
Qed.

(** *** Listing *)

(** On a consistent mounted session fs_list, asked for MAX_FILES names,
    returns the number of files there are: the number of inodes minus
    the free-inode counter. *)
Theorem list_counts_files rows s :
  session_ok s → disk_fd s ≠ -1 →
  MAX_FILES <= Z.of_nat (length rows) →
  ∃ rows',
    fs_list (Some rows) MAX_FILES s
    = Done (MAX_FILES - free_inodes (sb s), Some rows') ∧
    length rows' = length rows ∧
    take (Z.to_nat (MAX_FILES - free_inodes (sb s))) rows'
    = listed_names (inode_table s) MAX_FILES.
Proof.
  intros Hok Hfd Hrows. unfold fs_list.
  destruct (Z.eqb_spec (disk_fd s) (-1)) as [|_]; [done|].
  destruct geometry_bounds
    as (H1 & H2 & H3 & H4 & H5 & H6 & H7 & H8 & H9 & H10 & H11 & H12 & H13).
  destruct (Z.leb_spec MAX_FILES 0) as [|_]; [lia|].
  rewrite Z.ltb_irrefl. simpl.
  rewrite list_loop_spec by lia. simpl.
  rewrite Z.sub_0_r.
  set (names := listed_names (inode_table s) MAX_FILES).
  assert (Z.of_nat (length names) = MAX_FILES - free_inodes (sb s)) as Hcount.
  { unfold names, listed_names. rewrite length_take, length_fmap.
    pose proof (ok_free_inodes s Hok) as Hsum.
    pose proof (used_count_bounds (inode_table s)) as Hb.
    rewrite (ok_table_len s Hok) in Hb.
    unfold used_count in *. lia. }
  pose proof (session_ok_free_inodes s Hok) as Hfi.
  eexists. split; [by rewrite Hcount|]. split.
  - rewrite length_app, length_drop. lia.
  - rewrite <- Hcount, Nat2Z.id. by rewrite take_app_length.
Qed.

(** *** What the operations never do *)


Lemma store_blocks_meta needed size data newb : ∀ i f,
  f_sb (store_blocks i needed size data newb f) = f_sb f ∧
  f_bitmap (store_blocks i needed size data newb f) = f_bitmap f ∧
  f_inodes (store_blocks i needed size data newb f) = f_inodes f.
Proof.
  induction newb as [|b newb IH]; intros i f; simpl; [done|].
  destruct (IH (i + 1) (store_chunk i needed size data b f)) as (-> & -> & ->).
  unfold store_chunk. by destruct (_ <? _).
Qed.

(** The metadata blocks of the image are written at unmount only: no
    create, delete, write, read or list changes the stored superblock,
    bitmap or inode table of the mounted image, the descriptor of the
    session, or the open descriptors. *)
Theorem metadata_only_at_unmount o s w s' w' f :
  run_op o s w = Done (s', w') →
  fd_file (disk_fd s) w = Some f →
  disk_fd s' = disk_fd s ∧ fds w' = fds w ∧
  ∃ f', fd_file (disk_fd s) w' = Some f' ∧
        f_sb f' = f_sb f ∧ f_bitmap f' = f_bitmap f ∧
        f_inodes f' = f_inodes f.
Proof.
  intros Hrun Hf.
  destruct o as [n | n | n d sz | n d sz | b m]; simpl in Hrun.
  - injection Hrun as <- <-. split; [apply fs_create_fd|]. eauto 10.
  - destruct (fs_delete n s) as [[r s1]|] eqn:Hdel; [|done].
    simpl in Hrun. injection Hrun as <- <-.
    split; [by eapply fs_delete_fd|]. eauto 10.
  - destruct (fs_write n d sz s w) as [[[r s1] w1]|] eqn:Hwr; [|done].
    simpl in Hrun. injection Hrun as <- <-.
    destruct (decide (r = 0)) as [->|Hr].
    2:{ apply fs_write_failed in Hwr as [-> ->]; [|done]. eauto 10. }
    apply fs_write_Done0 in Hwr
      as (fname & bytes & k & ino & blks1 & bm1 & fb1 & bm2 & fb2 & blks2
          & _ & _ & _ & _ & Hsize & _ & _ & _ & _ & _ & Halloc & ->).
    destruct geometry_bounds
      as (H1 & H2 & H3 & H4 & H5 & H6 & H7 & H8 & H9 & H10 & H11 & H12 & H13).
    assert (0 < sz) as Hpos by lia.
    pose proof (blocks_for_pos sz Hpos) as Hnpos.
    pose proof (blocks_for_bounds sz) as Hnb.
    assert (blocks_for sz < 2147483648) as Hint.
    { assert (blocks_for sz <= MAX_FILES) by (apply blocks_for_le; lia). lia. }
    apply alloc_blocks_Done in Halloc
      as (newb & _ & _ & _ & _ & _ & _ & _ & _ & _ & _ & ->);
      [|lia|lia|done|done].
    simpl. split; [done|]. split; [apply fds_with_file|].
    rewrite fd_file_with_file, Hf. simpl. eexists. split; [done|].
    apply store_blocks_meta.
  - destruct (fs_read n d sz s w); [|done].
    simpl in Hrun. injection Hrun as <- <-. eauto 10.
  - destruct (fs_list b m s); [|done].
    simpl in Hrun. injection Hrun as <- <-. eauto 10.
Qed.

(** *** A counter ahead of the bitmap *)

Lemma release_blocks_zeros n bm fb :
  release_blocks (replicate n 0) bm fb = Done (replicate n 0, bm, fb).
Proof. induction n as [|n IH]; simpl; [done|]. by rewrite IH. Qed.

Lemma all_zero_replicate (l : list Z) :
  (∀ b, b ∈ l → b = 0) → l = replicate (length l) 0.
Proof.
  induction l as [|a l IH]; intros Hall; simpl; [done|].
  rewrite (Hall a) by left. f_equal. apply IH. intros b Hb. apply Hall. by right.
Qed.

(** fs_write does not look at the result of find_free_block.  When the
    free-block counter promises a block that the bitmap does not have -
    fs_mount takes both from the image as they are - the allocation loop
    passes -1 to mark_block_used, which shifts by a negative amount. *)
Theorem write_unchecked_allocation fname bytes size s w k ino :
  disk_fd s ≠ -1 → valid_name fname →
  0 < size <= MAX_FILES * BLOCK_SIZE →
  find_inode (inode_table s) fname = Z.of_nat k →
  inode_table s !! k = Some ino →
  (∀ b, b ∈ i_blocks ino → b = 0) →
  blocks_for size <= free_blocks (sb s) →
  (∀ j, 10 <= j < MAX_BLOCKS → bit_is_set (block_bitmap s) j = true) →
  fs_write (Some fname) (Some bytes) size s w = Fault NegativeShift.
Proof.
  intros Hfd Hv Hsize Hidx Hk Hzero Hfree Hfull.
  rewrite (fs_write_run fname bytes size s w k ino) by done.
  rewrite (all_zero_replicate _ Hzero), release_blocks_zeros. simpl.
  pose proof (blocks_for_pos size ltac:(lia)) as Hnpos.
  destruct (Z.to_nat (blocks_for size)) as [|n] eqn:Hn; [lia|]. simpl.
  destruct (find_free_block_spec (block_bitmap s)) as [[-> _] | [Hrange Hclear]].
  - done.
  - rewrite (Hfull _ Hrange) in Hclear. done.
Qed.

(** *** Running out of inodes *)

Lemma find_free_inode_by_counter s :
  session_ok s →
  (0 < free_inodes (sb s) → find_free_inode (inode_table s) ≠ -1) ∧
  (free_inodes (sb s) <= 0 → find_free_inode (inode_table s) = -1).
Proof.
  intros Hok.
  pose proof (ok_free_inodes s Hok) as Hsum.
  pose proof (ok_table_len s Hok) as Hlen.
  pose proof (gok_files G HG) as Hfiles.
  split.
  - intros Hpos Hnone.
    apply (find_free_inode_from_miss _ 0 ltac:(lia)) in Hnone.
    rewrite Forall_forall in Hnone.
    pose proof (used_count_all _ Hnone). lia.
  - intros Hzero.
    destruct (Z.eqb_spec (find_free_inode (inode_table s)) (-1)) as [|Hfree];
      [done|].
    destruct (find_free_inode_from_found (inode_table s) 0 ltac:(lia) Hfree)
      as (k & old & _ & Hk & Hunused).
    pose proof (used_count_lt _ _ _ Hk Hunused). lia.
Qed.

(** On a consistent session without a free inode, deleting a file makes
    room for exactly one: the next new name is created, the one after
    it is turned down with -2. *)
Theorem delete_makes_room gone n1 n2 s s1 :
  session_ok s → free_inodes (sb s) = 0 →
  fs_delete (Some gone) s = Done (0, s1) →
  valid_name n1 → valid_name n2 → n1 ≠ n2 →
  ¬ name_in_use (inode_table s1) n1 → ¬ name_in_use (inode_table s1) n2 →
  ∃ s2,
    fs_create (Some n1) s1 = (0, s2) ∧ fs_create (Some n2) s2 = (-2, s2).
Proof.
  intros Hok Hzero Hdel Hv1 Hv2 Hne Hnew1 Hnew2.
  pose proof (fs_delete_ok _ _ _ _ Hok Hdel) as Hok1.
  destruct geometry_bounds
    as (H1 & H2 & H3 & H4 & H5 & H6 & H7 & H8 & H9 & H10 & H11 & H12 & H13).
  pose proof (fs_delete_Done0 _ _ _ Hdel)
    as (n & k & ino & blks & bm & fb & _ & Hfd & _ & _ & _ & _ & _ & _ & Hs1).
  assert (free_inodes (sb s1) = 1) as Hone.
  { rewrite Hs1. simpl. rewrite Hzero. by apply wrap_id. }
  assert (disk_fd s1 ≠ -1) as Hfd1 by (by rewrite Hs1).
  destruct (find_free_inode_by_counter s1 Hok1) as [Hsome _].
  assert (find_free_inode (inode_table s1) ≠ -1) as Hfree1
    by (apply Hsome; lia).
  destruct (fs_create_succeeds n1 s1 Hfd1 Hv1 Hnew1 Hfree1)
    as (s2 & Hcr & _ & _).
  exists s2. split; [done|].
  pose proof (fs_create_ok (Some n1) s1 Hok1) as Hok2.
  rewrite Hcr in Hok2. simpl in Hok2.
  pose proof (fs_create_Done0 _ _ _ Hcr)
    as (n' & k2 & old & Hn' & _ & _ & _ & _ & Hk2 & _ & Hs2).
  injection Hn' as <-.
  assert (free_inodes (sb s2) = 0) as Hz2.
  { rewrite Hs2. simpl. rewrite Hone. by apply wrap_id. }
  assert (disk_fd s2 ≠ -1) as Hfd2 by (by rewrite Hs2).
  assert (¬ name_in_use (inode_table s2) n2) as Hnew2'.
  { rewrite Hs2. simpl. intros (x & Hx & Hux & Hnx).
    apply list_elem_of_lookup in Hx as [j Hj].
    apply list_lookup_insert_Some in Hj as [(_ & <- & _) | [_ Hj]].
    - by simpl in Hnx.
    - apply Hnew2. exists x. split_and!; auto.
      apply list_elem_of_lookup. eauto. }
  destruct (find_free_inode_by_counter s2 Hok2) as [_ Hnone].
  unfold fs_create, valid_name in *.
  destruct (Z.eqb_spec (disk_fd s2) (-1)) as [|_]; [done|].
  destruct (Z.leb_spec MAX_FILENAME (Z.of_nat (String.length n2)))
    as [|_]; [lia|].
  apply (find_inode_absent _ _ Hv2) in Hnew2'. rewrite Hnew2'. simpl.
  rewrite Hnone by lia. done.
Qed.

End Proofs.

(** * The model at work *)

Lemma ref_geometry_ok : geometry_ok ref_geometry.
Proof. constructor; by vm_compute. Qed.

Lemma small_geometry_ok : geometry_ok small_geometry.
Proof. constructor; by vm_compute. Qed.

Lemma outcome_eta (o : outcome (Z * session * world)) r :
  code_of o = Some r → o = Done (r, session_of o, world_of o).
Proof. destruct o as [[[r' s] w]|]; simpl; [by intros [= ->] | done]. Qed.

Lemma done_code_inj (r r' : Z) (s s' : session) (w w' : world) :
  Done (r, s, w) = Done (r', s', w') → r = r'.
Proof. by intros [= -> _ _]. Qed.

Lemma triple_eta (x : Z * session * world) r :
  x.1.1 = r → x = (r, x.1.2, x.2).
Proof. destruct x as [[r' s] w]. simpl. by intros ->. Qed.

Lemma ref_formatted_ok : ref_formatted
  = Done (0, session_of ref_formatted, world_of ref_formatted).
Proof. apply outcome_eta. by vm_compute. Qed.

Lemma ref_mounted_ok : ref_mounted = (0, ref_session_empty, ref_world).
Proof. apply triple_eta. by vm_compute. Qed.

Lemma ref_reachable_empty : reachable (G := ref_geometry) ref_session_empty ref_world.
Proof. exact (reach_start _ _ _ _ _ _ _ ref_formatted_ok ref_mounted_ok). Qed.

Lemma ref_reachable_created : reachable (G := ref_geometry) ref_session ref_world.
Proof.
  exact (reach_step (OpCreate (Some "a.txt")) _ _ _ _ ref_reachable_empty eq_refl).
Qed.

Lemma ref_written_ok : ref_written
  = Done (0, session_of ref_written, world_of ref_written).
Proof. apply outcome_eta. by vm_compute. Qed.

Lemma ref_reachable_written :
  reachable (G := ref_geometry) (session_of ref_written) (world_of ref_written).
Proof.
  apply (reach_step (OpWrite (Some "a.txt") (Some hello) 5) ref_session ref_world);
    [exact ref_reachable_created|].
  simpl. fold ref_written. by rewrite ref_written_ok.
Qed.

Lemma ref_is_mounted : disk_fd ref_session ≠ -1.
Proof. by vm_compute. Qed.

Lemma ref_valid_name : valid_name (G := ref_geometry) "a.txt".
Proof. by vm_compute. Qed.

Lemma ref_name_in_use : name_in_use (inode_table ref_session) "a.txt".
Proof.
  exists {| i_used := true; i_name := "a.txt"; i_size := 0;
            i_blocks := replicate 12 0 |}.
  split_and!; [|done|done].
  apply list_elem_of_lookup. exists 0%nat. by vm_compute.
Qed.



(** ** C1: the round trip *)

Lemma write_read_roundtrip_witness :
  reachable (G := ref_geometry) ref_session ref_world
  ∧ 0 < 5 <= MAX_DIRECT_BLOCKS (geometry := ref_geometry)
             * BLOCK_SIZE (geometry := ref_geometry)
  ∧ ∃ s' w',
      fs_write (G := ref_geometry) (Some "a.txt") (Some hello) 5 ref_session ref_world
        = Done (0, s', w')
      ∧ fs_read (G := ref_geometry) (Some "a.txt") (Some []) 5 s' w'
        = Done (5, take (Z.to_nat 5) hello).
Proof.
  split; [exact ref_reachable_created|].
  split; [by vm_compute|].
  apply (write_read_roundtrip ref_geometry_ok ref_session ref_world "a.txt" hello [] 5
           ref_reachable_created ref_valid_name ref_name_in_use);
    by vm_compute.
Defined.

(** The claim as stated fails at size 0: fs_write and fs_read both turn
    a size of 0 down with -3, so the read does not return 0. *)
Lemma roundtrip_fails_at_size_zero :
  reachable (G := ref_geometry) ref_session ref_world
  ∧ name_in_use (inode_table ref_session) "a.txt"
  ∧ code_of (fs_write (G := ref_geometry) (Some "a.txt") (Some []) 0
               ref_session ref_world) = Some (-3)
  ∧ ¬ ∃ r s' w',
        fs_write (G := ref_geometry) (Some "a.txt") (Some []) 0 ref_session ref_world
          = Done (r, s', w')
        ∧ fs_read (G := ref_geometry) (Some "a.txt") (Some []) 0 s' w'
          = Done (0, []).
Proof.
  split_and!.
  - exact ref_reachable_created.
  - exact ref_name_in_use.
  - by vm_compute.
  - intros (r & s' & w' & _ & Hread). unfold fs_read in Hread.
    by destruct (disk_fd s' =? -1).
Qed.

(** ** C2 and C3: the invariants *)



(** ** C4: no space *)

Lemma small_filled_ok : small_filled = Done (0, small_session, small_world).
Proof. apply outcome_eta. by vm_compute. Qed.

Lemma small_name_in_use : name_in_use (inode_table small_session) "a".
Proof.
  exists {| i_used := true; i_name := "a"; i_size := 32; i_blocks := [10; 11] |}.
  split_and!; [|done|done].
  apply list_elem_of_lookup. exists 0%nat. by vm_compute.
Qed.


Lemma write_without_space_witness :
  disk_fd small_session ≠ -1
  ∧ free_blocks (sb small_session) < blocks_for (G := small_geometry) 1
  ∧ fs_write (G := small_geometry) (Some "a") (Some [Byte.x42]) 1
      small_session small_world
    = Done (-2, small_session, small_world).
Proof.
  split; [by vm_compute|]. split; [by vm_compute|].
  apply (write_without_space small_geometry_ok "a" [Byte.x42] 1 small_session small_world).
  - by vm_compute.
  - by vm_compute.
  - exact small_name_in_use.
  - by vm_compute.
  - by vm_compute.
Defined.

(** The claim as stated fails for a size above the bound of fs_write: on
    the reference run, 10448896 bytes need 2551 blocks, one more than are
    free, and fs_write returns -3, not -2. *)
Lemma no_space_claim_fails_above_bound :
  disk_fd ref_session ≠ -1
  ∧ name_in_use (inode_table ref_session) "a.txt"
  ∧ free_blocks (sb ref_session) < blocks_for (G := ref_geometry) 10448896
  ∧ fs_write (G := ref_geometry) (Some "a.txt")
      (Some (replicate (Z.to_nat 10448896) Byte.x00)) 10448896 ref_session ref_world
    = Done (-3, ref_session, ref_world)
  ∧ fs_write (G := ref_geometry) (Some "a.txt")
      (Some (replicate (Z.to_nat 10448896) Byte.x00)) 10448896 ref_session ref_world
    ≠ Done (-2, ref_session, ref_world).
Proof.
  assert (fs_write (G := ref_geometry) (Some "a.txt")
            (Some (replicate (Z.to_nat 10448896) Byte.x00)) 10448896
            ref_session ref_world = Done (-3, ref_session, ref_world)) as Hrun.
  { apply (fs_write_too_large ref_geometry_ok). by vm_compute. }
  split_and!.
  - exact ref_is_mounted.
  - exact ref_name_in_use.
  - by vm_compute.
  - exact Hrun.
  - rewrite Hrun. intros Heq. apply done_code_inj in Heq. lia.
Qed.

(** ** C5: the block array *)

Lemma write_past_block_array_witness :
  MAX_DIRECT_BLOCKS (geometry := ref_geometry)
    < MAX_FILES (geometry := ref_geometry)
  ∧ MAX_DIRECT_BLOCKS (geometry := ref_geometry) + 1
    <= free_blocks (sb ref_session)
  ∧ fs_write (G := ref_geometry) (Some "a.txt")
      (Some (replicate (Z.to_nat 49153) Byte.x41)) 49153
      ref_session ref_world
    = Fault OutOfBounds.
Proof.
  split; [by vm_compute|]. split; [by vm_compute|].
  refine (proj2 (proj2 (write_past_block_array ref_geometry_ok "a.txt"
                          (replicate (Z.to_nat 49153) Byte.x41)
                          ref_session ref_world _ _ ref_is_mounted
                          ref_valid_name ref_name_in_use _))).
  - by vm_compute.
  - exact (proj1 (reachable_inv ref_geometry_ok _ _ ref_reachable_created)).
  - by vm_compute.
Defined.

(** The same call, evaluated. *)
Lemma write_past_block_array_run :
  fs_write (G := ref_geometry) (Some "a.txt")
    (Some (replicate (Z.to_nat 49153) Byte.x41)) 49153 ref_session ref_world
  = Fault OutOfBounds.
Proof. by vm_compute. Qed.

(** ** C6: persistence *)

Lemma persistence_roundtrip_witness :
  ∃ s1 w1 s2 w2 s3 s4 w4 s5 w5 s6 w6,
    fs_format (G := ref_geometry) "disk.img"
      (boot_session (G := ref_geometry)) blank_world = Done (0, s1, w1) ∧
    fs_mount (G := ref_geometry) "disk.img" s1 w1 = (0, s2, w2) ∧
    fs_create (G := ref_geometry) (Some "a.txt") s2 = (0, s3) ∧
    fs_write (G := ref_geometry) (Some "a.txt") (Some hello)
      (Z.of_nat (length hello)) s3 w2 = Done (0, s4, w4) ∧
    fs_unmount s4 w4 = (s5, w5) ∧
    fs_mount (G := ref_geometry) "disk.img" s5 w5 = (0, s6, w6) ∧
    fs_read (G := ref_geometry) (Some "a.txt") (Some [])
      (Z.of_nat (length hello)) s6 w6
    = Done (Z.of_nat (length hello), hello).
Proof.
  apply (persistence_roundtrip ref_geometry_ok "disk.img" "a.txt" hello []
           (boot_session (G := ref_geometry)) blank_world eq_refl eq_refl
           ref_valid_name).
  by vm_compute.
Defined.

(** ** C7: mounting *)

Lemma mount_fails_closed_witness :
  image_rejected (G := ref_geometry) empty_file
  ∧ ∃ s',
      fs_mount (G := ref_geometry) "short.img"
        (boot_session (G := ref_geometry)) truncated_disk
      = (-1, s', truncated_disk)
      ∧ disk_fd s' = -1.
Proof.
  split; [exact I|].
  exact (proj1 (proj2 (mount_fails_closed (G := ref_geometry) "short.img"
                         (boot_session (G := ref_geometry)) truncated_disk))
           eq_refl empty_file eq_refl I).
Defined.

(** ** C8: deleting *)

Lemma delete_status_witness :
  name_in_use (inode_table ref_session) "a.txt"
  ∧ ∃ s', fs_delete (G := ref_geometry) (Some "a.txt") ref_session = Done (0, s').
Proof.
  split; [exact ref_name_in_use|].
  destruct (delete_status ref_geometry_ok (Some "a.txt") ref_session)
    as (_ & _ & _ & Hfound & _).
  destruct (Hfound "a.txt" ref_is_mounted eq_refl ref_valid_name
              ref_name_in_use) as [_ Hruns].
  apply Hruns.
  exact (proj1 (reachable_inv ref_geometry_ok _ _ ref_reachable_created)).
Defined.

(** ** C9: listing *)

Lemma list_contract_witness :
  disk_fd ref_session ≠ -1
  ∧ fs_list (G := ref_geometry) (Some (replicate 5 EmptyString)) 5 ref_session
    = Done (1, Some ("a.txt" :: replicate 4 EmptyString)).
Proof.
  split; [exact ref_is_mounted|].
  destruct (list_contract ref_geometry_ok ref_session 5 ref_is_mounted)
    as (Hlist & _ & _).
  rewrite Hlist; by vm_compute.
Defined.

(** The claim as stated fails on the status: with a null buffer fs_list
    returns -1, not -3. *)
Lemma list_returns_minus_one :
  disk_fd ref_session ≠ -1
  ∧ fs_list (G := ref_geometry) None 5 ref_session = Done (-1, None)
  ∧ fs_list (G := ref_geometry) None 5 ref_session ≠ Done (-3, None).
Proof. split_and!; by vm_compute. Qed.

(** ** C10: the frame of a write *)



(** ** The single functions at work *)

Lemma ref_session_ok : session_ok (G := ref_geometry) ref_session.
Proof. exact (proj1 (reachable_inv ref_geometry_ok _ _ ref_reachable_created)). Qed.



Lemma ref_write_run :
  run_op (G := ref_geometry) (OpWrite (Some "a.txt") (Some hello) 5)
    ref_session ref_world
  = Done (session_of ref_written, world_of ref_written).
Proof. simpl. fold ref_written. by rewrite ref_written_ok. Qed.

(** The slot of "a.txt" on the reference run. *)
Lemma find_inode_first_match_witness :
  ∃ k ino,
    find_inode (G := ref_geometry) (inode_table ref_session) "a.txt"
    = Z.of_nat k
    ∧ inode_table ref_session !! k = Some ino
    ∧ i_used ino = true ∧ i_name ino = "a.txt".
Proof.
  destruct (find_inode_first_match (G := ref_geometry)
              (inode_table ref_session) "a.txt" ref_valid_name)
    as [[_ Hno] | (k & ino & H1 & H2 & H3 & H4 & _)].
  - destruct (Hno ref_name_in_use).
  - exists k, ino. split_and!; assumption.
Defined.

(** Block 10 marked and released again on the bitmap of a formatted
    image of the small geometry. *)
Lemma mark_block_roundtrip_witness :
  ∃ bm1 bm2,
    mark_block_used (G := small_geometry) 10 (255 :: 3 :: replicate 14 0)
    = Done bm1
    ∧ mark_block_free (G := small_geometry) 10 bm1 = Done bm2
    ∧ bit_is_set bm1 10 = true
    ∧ bm2 = 255 :: 3 :: replicate 14 0.
Proof.
  destruct (mark_block_roundtrip (G := small_geometry) 10
              (255 :: 3 :: replicate 14 0))
    as (bm1 & bm2 & H1 & H2 & _ & _ & H3 & _ & _ & H4).
  - reflexivity.
  - unfold bitmap_bytes. simpl.
    repeat (apply Forall_cons_2; [lia|]). apply Forall_nil_2.
  - by vm_compute.
  - exists bm1, bm2. split_and!; try assumption. apply H4. by vm_compute.
Defined.

(** The image that fs_format makes on the reference geometry. *)
Lemma format_layout_witness :
  ∃ s' w',
    fs_format (G := ref_geometry) "disk.img"
      (boot_session (G := ref_geometry)) blank_world = Done (0, s', w')
    ∧ fds w' = fds blank_world
    ∧ sb s' = fresh_sb (G := ref_geometry).
Proof.
  destruct (proj2 (format_layout ref_geometry_ok "disk.img"
                     (boot_session (G := ref_geometry)) blank_world) eq_refl)
    as (bm & f & s' & w' & Hrun & Hs & _ & Hfds & _).
  exists s', w'. split_and!; [assumption|assumption|]. by rewrite Hs.
Defined.

(** Mounting an image file that is not there. *)
Lemma mount_failure_clean_witness :
  fs_mount (G := ref_geometry) "none.img" (boot_session (G := ref_geometry))
    blank_world
  = (-1, boot_session (G := ref_geometry), blank_world)
  ∧ -1 ≠ 0.
Proof.
  assert (fs_mount (G := ref_geometry) "none.img"
            (boot_session (G := ref_geometry)) blank_world
          = (-1, boot_session (G := ref_geometry), blank_world)) as Hrun
    by (by vm_compute).
  assert (-1 ≠ 0) as Hr by lia.
  destruct (mount_failure_clean (G := ref_geometry) _ _ _ _ _ _ Hrun Hr)
    as (_ & _ & _ & _).
  split; assumption.
Defined.


(** Format and mount from the state in which the program starts. *)
Lemma format_then_mount_witness :
  ∃ s1 w1 s2 w2,
    fs_format (G := ref_geometry) "disk.img"
      (boot_session (G := ref_geometry)) blank_world = Done (0, s1, w1)
    ∧ fs_mount (G := ref_geometry) "disk.img" s1 w1 = (0, s2, w2)
    ∧ session_ok (G := ref_geometry) s2
    ∧ free_inodes (sb s2) = MAX_FILES (geometry := ref_geometry).
Proof.
  destruct (format_then_mount ref_geometry_ok "disk.img"
              (boot_session (G := ref_geometry)) blank_world eq_refl eq_refl)
    as (s1 & w1 & s2 & w2 & H1 & H2 & H3 & _ & _ & H4 & _).
  exists s1, w1, s2, w2. split_and!; assumption.
Defined.

(** Formatting another image while "a.txt" exists in the mounted
    session. *)
Lemma format_while_mounted_witness :
  name_in_use (inode_table ref_session) "a.txt"
  ∧ ∃ s' w',
      fs_format (G := ref_geometry) "other.img" ref_session ref_world
      = Done (0, s', w')
      ∧ disk_fd s' = disk_fd ref_session
      ∧ ¬ name_in_use (inode_table s') "a.txt".
Proof.
  split; [exact ref_name_in_use|].
  assert (creatable ref_world "other.img" = true) as Hc by (by vm_compute).
  destruct (format_while_mounted ref_geometry_ok "other.img" ref_session
              ref_world ref_is_mounted Hc)
    as (s' & w' & H1 & H2 & _ & _ & H3 & _).
  exists s', w'. split_and!; [assumption|assumption|apply H3].
Defined.

(** The names after the write of the reference run. *)
Lemma names_unique_invariant_witness :
  reachable (G := ref_geometry) (session_of ref_written) (world_of ref_written)
  ∧ names_unique (G := ref_geometry) (inode_table (session_of ref_written)).
Proof.
  split; [exact ref_reachable_written|].
  exact (proj1 (names_unique_invariant ref_geometry_ok _ _
                  ref_reachable_written)).
Defined.

(** The first file on a fresh image. *)
Lemma create_capacity_witness :
  0 < free_inodes (sb ref_session_empty)
  ∧ ∃ s',
      fs_create (G := ref_geometry) (Some "a.txt") ref_session_empty = (0, s')
      ∧ free_inodes (sb s') = free_inodes (sb ref_session_empty) - 1.
Proof.
  assert (0 < free_inodes (sb ref_session_empty)) as Hpos by (by vm_compute).
  split; [exact Hpos|].
  destruct (reachable_inv ref_geometry_ok _ _ ref_reachable_empty)
    as (Hok & Hfd & _).
  assert (¬ name_in_use (inode_table ref_session_empty) "a.txt") as Hnew.
  { apply (proj1 (find_inode_absent (G := ref_geometry) _ _ ref_valid_name)).
    by vm_compute. }
  destruct (create_capacity ref_geometry_ok "a.txt" ref_session_empty
              Hok Hfd ref_valid_name Hnew) as [Hyes _].
  destruct (Hyes Hpos) as (s' & H1 & H2 & _).
  exists s'. split; assumption.
Defined.

(** "a.txt" right after its creation. *)
Lemma created_file_is_empty_witness :
  fs_create (G := ref_geometry) (Some "a.txt") ref_session_empty
  = (0, ref_session)
  ∧ fs_create (G := ref_geometry) (Some "a.txt") ref_session
    = (-1, ref_session)
  ∧ fs_read (G := ref_geometry) (Some "a.txt") (Some []) 100
      ref_session ref_world = Done (0, []).
Proof.
  assert (fs_create (G := ref_geometry) (Some "a.txt") ref_session_empty
          = (0, ref_session)) as Hrun by (by vm_compute).
  destruct (created_file_is_empty (G := ref_geometry) "a.txt"
              ref_session_empty ref_session Hrun)
    as (_ & H1 & H2 & _).
  split_and!; [assumption|assumption|]. apply H2. lia.
Defined.

(** "a.txt" deleted on the reference run. *)
Lemma delete_then_not_found_witness :
  ∃ s',
    fs_delete (G := ref_geometry) (Some "a.txt") ref_session = Done (0, s')
    ∧ fs_delete (G := ref_geometry) (Some "a.txt") s' = Done (-1, s')
    ∧ ∃ s'', fs_create (G := ref_geometry) (Some "a.txt") s' = (0, s'').
Proof.
  assert (∃ s', fs_delete (G := ref_geometry) (Some "a.txt") ref_session
                = Done (0, s')) as [s' Hdel]
    by (eexists; vm_compute; reflexivity).
  destruct (delete_then_not_found ref_geometry_ok "a.txt" ref_session s'
              (reachable_names ref_geometry_ok _ _ ref_reachable_created) Hdel)
    as (_ & H1 & _ & _ & H2).
  exists s'. split_and!; assumption.
Defined.


(** A write without a name. *)
Lemma write_status_witness :
  fs_write (G := ref_geometry) None (Some hello) 5 ref_session ref_world
  = Done (-3, ref_session, ref_world).
Proof.
  exact (proj1 (write_status ref_geometry_ok None (Some hello) 5
                  ref_session ref_world) (or_introl eq_refl)).
Defined.


(** The bytes of the reference run in the image. *)
Lemma write_stores_data_witness :
  ∃ k new f',
    inode_table (session_of ref_written) !! k = Some new
    ∧ fd_file (disk_fd (session_of ref_written)) (world_of ref_written)
      = Some f'
    ∧ ∀ j b o, i_blocks new !! j = Some b → b ≠ 0 → 0 <= o < 4096 →
        f_data f' (b * 4096 + o)
        = if Z.of_nat j * 4096 + o <? 5
          then default Byte.x00 (hello !! Z.to_nat (Z.of_nat j * 4096 + o))
          else Byte.x00.
Proof.
  destruct (reachable_inv ref_geometry_ok _ _ ref_reachable_created)
    as (Hok & Hfd & [f Hf]).
  assert (5 <= Z.of_nat (length hello)) as Hlen by (by vm_compute).
  destruct (write_stores_data ref_geometry_ok "a.txt" hello 5 ref_session
              ref_world _ _ f Hok Hf Hlen ref_written_ok)
    as (k & new & f' & _ & H1 & H2 & H3).
  exists k, new, f'. split_and!; [assumption|assumption|].
  intros j b o Hj Hb Ho. exact (proj2 (proj2 (H3 j b o Hj Hb Ho))).
Defined.

(** "Hello" read back into a buffer of 100 bytes. *)
Lemma read_back_any_size_witness :
  ∃ s' w',
    fs_write (G := ref_geometry) (Some "a.txt") (Some hello) 5
      ref_session ref_world = Done (0, s', w')
    ∧ fs_read (G := ref_geometry) (Some "a.txt") (Some []) 100 s' w'
      = Done (5, hello).
Proof.
  apply (read_back_any_size ref_geometry_ok "a.txt" hello [] 5 100
           ref_session ref_world ref_reachable_created ref_valid_name
           ref_name_in_use);
    by vm_compute.
Defined.

(** One name listed on the reference run. *)
Lemma list_counts_files_witness :
  MAX_FILES (geometry := ref_geometry) - free_inodes (sb ref_session) = 1
  ∧ ∃ rows',
      fs_list (G := ref_geometry) (Some (replicate 256 EmptyString))
        (MAX_FILES (geometry := ref_geometry)) ref_session
      = Done (MAX_FILES (geometry := ref_geometry)
              - free_inodes (sb ref_session), Some rows')
      ∧ length rows' = 256%nat.
Proof.
  split; [by vm_compute|].
  assert (MAX_FILES (geometry := ref_geometry)
          <= Z.of_nat (length (replicate 256 EmptyString))) as Hrows
    by (by vm_compute).
  destruct (list_counts_files ref_geometry_ok (replicate 256 EmptyString)
              ref_session ref_session_ok ref_is_mounted Hrows)
    as (rows' & H1 & H2 & _).
  exists rows'. split; [assumption|]. rewrite H2. reflexivity.
Defined.

(** The write of the reference run completes. *)
Lemma reachable_op_completes_witness :
  op_in_bounds (G := ref_geometry) (OpWrite (Some "a.txt") (Some hello) 5)
  ∧ ∃ s' w',
      run_op (G := ref_geometry) (OpWrite (Some "a.txt") (Some hello) 5)
        ref_session ref_world = Done (s', w').
Proof.
  assert (op_in_bounds (G := ref_geometry)
            (OpWrite (Some "a.txt") (Some hello) 5)) as Hin by (by vm_compute).
  split; [exact Hin|].
  exact (reachable_op_completes ref_geometry_ok _ _ _ ref_reachable_created Hin).
Defined.


(** The write of the reference run leaves the stored metadata alone. *)
Lemma metadata_only_at_unmount_witness :
  ∃ f f',
    fd_file (disk_fd ref_session) ref_world = Some f
    ∧ fd_file (disk_fd ref_session) (world_of ref_written) = Some f'
    ∧ f_sb f' = f_sb f ∧ f_bitmap f' = f_bitmap f
    ∧ f_inodes f' = f_inodes f.
Proof.
  destruct (reachable_inv ref_geometry_ok _ _ ref_reachable_created)
    as (_ & _ & [f Hf]).
  destruct (metadata_only_at_unmount ref_geometry_ok _ _ _ _ _ f
              ref_write_run Hf)
    as (_ & _ & f' & H1 & H2 & H3 & H4).
  exists f, f'. split_and!; assumption.
Defined.

(** A write on the image whose counter is ahead of its bitmap. *)
Lemma write_unchecked_allocation_witness :
  stale_mounted.1.1 = 0
  ∧ fs_write (G := small_geometry) (Some "a") (Some [Byte.x42]) 1
      stale_session stale_world
    = Fault NegativeShift.
Proof.
  split; [by vm_compute|].
  apply (write_unchecked_allocation small_geometry_ok "a" [Byte.x42] 1
           stale_session stale_world 0%nat
           {| i_used := true; i_name := "a"; i_size := 0; i_blocks := [0; 0] |}).
  - by vm_compute.
  - by vm_compute.
  - by vm_compute.
  - by vm_compute.
  - by vm_compute.
  - intros b Hb. simpl in Hb.
    repeat (apply elem_of_cons in Hb as [->|Hb]; [reflexivity|]).
    by apply elem_of_nil in Hb.
  - by vm_compute.
  - intros j Hj.
    assert (j = 10 ∨ j = 11) as [->| ->] by (simpl in Hj; lia);
      by vm_compute.
Defined.

Lemma small_formatted_ok : small_formatted
  = Done (0, session_of small_formatted, world_of small_formatted).
Proof. apply outcome_eta. by vm_compute. Qed.

Lemma small_mounted_ok :
  small_mounted = (0, small_mounted.1.2, small_mounted.2).
Proof. apply triple_eta. by vm_compute. Qed.

Lemma small_reachable_full :
  reachable (G := small_geometry) small_full small_mounted.2.
Proof.
  apply (reach_step (OpCreate (Some "d")) _ _ _ _
           (reach_step (OpCreate (Some "c")) _ _ _ _
              (reach_step (OpCreate (Some "b")) _ _ _ _
                 (reach_step (OpCreate (Some "a")) _ _ _ _
                    (reach_start _ _ _ _ _ _ _
                       small_formatted_ok small_mounted_ok)
                    eq_refl) eq_refl) eq_refl) eq_refl).
Qed.

(** A full inode table on the small geometry: delete("d") lets "e" in
    and "f" not. *)
Lemma delete_makes_room_witness :
  free_inodes (sb small_full) = 0
  ∧ fs_delete (G := small_geometry) (Some "d") small_full
    = Done (0, small_after_delete)
  ∧ ∃ s2,
      fs_create (G := small_geometry) (Some "e") small_after_delete = (0, s2)
      ∧ fs_create (G := small_geometry) (Some "f") s2 = (-2, s2).
Proof.
  assert (free_inodes (sb small_full) = 0) as Hzero by (by vm_compute).
  assert (fs_delete (G := small_geometry) (Some "d") small_full
          = Done (0, small_after_delete)) as Hdel by (by vm_compute).
  assert (valid_name (G := small_geometry) "e") as Hv1 by (by vm_compute).
  assert (valid_name (G := small_geometry) "f") as Hv2 by (by vm_compute).
  split; [exact Hzero|]. split; [exact Hdel|].
  apply (delete_makes_room small_geometry_ok "d" "e" "f" small_full
           small_after_delete
           (proj1 (reachable_inv small_geometry_ok _ _ small_reachable_full))
           Hzero Hdel Hv1 Hv2).
  - by vm_compute.
  - apply (proj1 (find_inode_absent (G := small_geometry) _ _ Hv1)).
    by vm_compute.
  - apply (proj1 (find_inode_absent (G := small_geometry) _ _ Hv2)).
    by vm_compute.
Defined.
